(** * Construct: the conversation-grounded legal query pipeline

    A shallow embedding of [src/services/lexiAIService.js] (the query
    orchestrator, intent classifier, system-prompt builder and response
    post-processor), of the Gemini adapter [aiService]
    ([generateWithGoogleAI], [generateWithChatHistory]) and of
    [utils/apiError.js], together with the properties the specification
    states about them.

    JavaScript strings are sequences of UTF-16 code units, numbers are
    binary64 floats, and values coming from [JSON.parse] or from a request
    body are JSON-shaped.  Asynchronous functions are run to completion:
    an [await]ed call is a call in the state-and-exception monad [M]. *)

From Stdlib Require Import List NArith ZArith Bool String Ascii Lia.
From Stdlib Require Import Floats.PrimFloat.
Import ListNotations.

Set Implicit Arguments.
Set Warnings "-inexact-float,-register-all".

(* ================================================================== *)
(** ** JavaScript strings *)

(** A string is its list of UTF-16 code units. *)
Definition jsstring := list N.

(** Source literals are ASCII, so a literal is its list of byte codes. *)
Definition js (s : string) : jsstring := map N_of_ascii (list_ascii_of_string s).

Fixpoint str_eqb (a b : jsstring) : bool :=
  match a, b with
  | [], [] => true
  | x :: a', y :: b' => N.eqb x y && str_eqb a' b'
  | _, _ => false
  end.

(** [String.prototype.startsWith] *)
Fixpoint startsWith (s prefix : jsstring) : bool :=
  match prefix, s with
  | [], _ => true
  | p :: prefix', c :: s' => N.eqb c p && startsWith s' prefix'
  | _ :: _, [] => false
  end.

(** [String.prototype.includes] *)
Fixpoint includes (s sub : jsstring) : bool :=
  startsWith s sub ||
  match s with
  | [] => false
  | _ :: s' => includes s' sub
  end.

(** [String.prototype.endsWith] *)
Definition endsWith (s suffix : jsstring) : bool :=
  startsWith (rev s) (rev suffix).

(** WhiteSpace and LineTerminator code points of ECMA-262: what
    [String.prototype.trim] strips and what [\s] matches. *)
Definition isWhiteSpace (c : N) : bool :=
  ((9 <=? c) && (c <=? 13) || (c =? 32) || (c =? 160) || (c =? 5760)
   || (8192 <=? c) && (c <=? 8202) || (c =? 8232) || (c =? 8233)
   || (c =? 8239) || (c =? 8287) || (c =? 12288) || (c =? 65279))%N.

Fixpoint trimStart (s : jsstring) : jsstring :=
  match s with
  | c :: s' => if isWhiteSpace c then trimStart s' else s
  | [] => []
  end.

Definition trimEnd (s : jsstring) : jsstring := rev (trimStart (rev s)).

(** [String.prototype.trim] *)
Definition trim (s : jsstring) : jsstring := trimEnd (trimStart s).

(* ================================================================== *)
(** ** Regular expressions

    The fragment of the regular-expression language the service uses:
    character classes, sequence, alternation, greedy [?] and greedy [*]
    over a class.  Matching is the backtracking matcher of ECMA-262 in
    continuation-passing style: the continuation receives the number of
    code units consumed so far and the rest of the input. *)

Inductive Regex : Type :=
| REmpty
| RChar (p : N -> bool)
| RSeq (a b : Regex)
| RAlt (a b : Regex)
| ROpt (a : Regex)
| RStar (p : N -> bool).

Definition MatchCont := nat -> jsstring -> option nat.

Definition orElse {A} (x y : option A) : option A :=
  match x with Some _ => x | None => y end.

Fixpoint starMatch (p : N -> bool) (k : MatchCont) (n : nat) (s : jsstring) : option nat :=
  match s with
  | c :: rest => if p c then orElse (starMatch p k (S n) rest) (k n s) else k n s
  | [] => k n s
  end.

Fixpoint matchRe (r : Regex) (k : MatchCont) (n : nat) (s : jsstring) : option nat :=
  match r with
  | REmpty => k n s
  | RChar p =>
      match s with
      | c :: rest => if p c then k (S n) rest else None
      | [] => None
      end
  | RSeq a b => matchRe a (fun n' s' => matchRe b k n' s') n s
  | RAlt a b => orElse (matchRe a k n s) (matchRe b k n s)
  | ROpt a => orElse (matchRe a k n s) (k n s)
  | RStar p => starMatch p k n s
  end.

(** Length of the match of [r] anchored at the start of [s], if any. *)
Definition matchAt (r : Regex) (s : jsstring) : option nat :=
  matchRe r (fun n _ => Some n) 0 s.

Definition RPlus (p : N -> bool) : Regex := RSeq (RChar p) (RStar p).

Fixpoint RSeqs (l : list Regex) : Regex :=
  match l with
  | [] => REmpty
  | [r] => r
  | r :: rest => RSeq r (RSeqs rest)
  end.

(** A literal; with [ci] the ASCII letters match in either case, which is
    what the [i] flag does without the [u] flag. *)
Definition isUpper (c : N) : bool := ((65 <=? c) && (c <=? 90))%N.
Definition isLower (c : N) : bool := ((97 <=? c) && (c <=? 122))%N.
Definition isLetter (c : N) : bool := isUpper c || isLower c.
Definition isDigit (c : N) : bool := ((48 <=? c) && (c <=? 57))%N.
Definition toUpperAscii (c : N) : N := if isLower c then (c - 32)%N else c.

Definition charIs (ci : bool) (x : N) : N -> bool :=
  fun c => if ci then N.eqb (toUpperAscii c) (toUpperAscii x) && (c <? 128)%N
           else N.eqb c x.

Definition RLit (ci : bool) (s : string) : Regex :=
  RSeqs (map (fun x => RChar (charIs ci x)) (js s)).

(** [String.prototype.match] with a non-global regex: the leftmost match. *)
Fixpoint firstMatch (r : Regex) (s : jsstring) : option jsstring :=
  match matchAt r s with
  | Some len => Some (firstn len s)
  | None =>
      match s with
      | [] => None
      | _ :: rest => firstMatch r rest
      end
  end.

(** [String.prototype.match] with a global regex: every match, scanning
    from the end of the previous one ([skip] counts the code units of the
    current match still to be passed over).  An empty match advances
    [lastIndex] by one. *)
Fixpoint scanMatches (r : Regex) (skip : nat) (s : jsstring) : list jsstring :=
  match skip with
  | S skip' =>
      match s with
      | [] => []
      | _ :: rest => scanMatches r skip' rest
      end
  | O =>
      match matchAt r s with
      | Some len =>
          firstn len s ::
          match s with
          | [] => []
          | _ :: rest => scanMatches r (pred len) rest
          end
      | None =>
          match s with
          | [] => []
          | _ :: rest => scanMatches r 0 rest
          end
      end
  end.

Definition matchAll (r : Regex) (s : jsstring) : list jsstring := scanMatches r 0 s.

(** [String.prototype.split] with a regex separator and no limit.  [cur]
    holds, reversed, the piece started after the last separator. *)
Fixpoint splitScan (r : Regex) (skip : nat) (cur : jsstring) (s : jsstring) : list jsstring :=
  match s with
  | [] => [rev cur]
  | c :: rest =>
      match skip with
      | S skip' => splitScan r skip' cur rest
      | O =>
          match matchAt r s with
          | Some (S len') => rev cur :: splitScan r len' [] rest
          | Some O =>
              match cur with
              | [] => splitScan r 0 [c] rest
              | _ :: _ => rev cur :: splitScan r 0 [c] rest
              end
          | None => splitScan r 0 (c :: cur) rest
          end
      end
  end.

Definition split (r : Regex) (s : jsstring) : list jsstring :=
  match s with
  | [] => match matchAt r [] with Some _ => [] | None => [[]] end
  | _ :: _ => splitScan r 0 [] s
  end.

(* ================================================================== *)
(** ** JavaScript values *)

(** JSON-shaped values, plus the built-in functions and objects a lookup
    through [Object.prototype] can return ([VNative], named by the
    property that reaches them). *)
Inductive JsVal : Type :=
| VUndefined
| VNull
| VBool (b : bool)
| VNum (x : float)
| VStr (s : jsstring)
| VArr (elems : list JsVal)
| VObj (props : list (jsstring * JsVal))
| VNative (name : jsstring).

Definition VS (s : string) : JsVal := VStr (js s).

(** ToBoolean *)
Definition truthy (v : JsVal) : bool :=
  match v with
  | VUndefined | VNull => false
  | VBool b => b
  | VNum x => negb (PrimFloat.eqb x 0%float) && PrimFloat.eqb x x
  | VStr s => match s with [] => false | _ :: _ => true end
  | VArr _ | VObj _ | VNative _ => true
  end.

(** [a || b] *)
Definition jsOr (a b : JsVal) : JsVal := if truthy a then a else b.

(** [typeof v === 'string'] *)
Definition isString (v : JsVal) : bool :=
  match v with VStr _ => true | _ => false end.

(** [v === 'literal'] *)
Definition strictEqStr (v : JsVal) (s : jsstring) : bool :=
  match v with VStr t => str_eqb t s | _ => false end.

(** Equality of two ids in a query filter: equal strings. *)
Definition sameKey (a b : JsVal) : bool :=
  match a, b with
  | VStr x, VStr y => str_eqb x y
  | _, _ => false
  end.

(** Own property of an object built by an object literal or by
    [JSON.parse]. *)
Fixpoint lookup (key : jsstring) (props : list (jsstring * JsVal)) : option JsVal :=
  match props with
  | [] => None
  | (k, v) :: rest => if str_eqb k key then Some v else lookup key rest
  end.

Definition hasOwn (key : jsstring) (props : list (jsstring * JsVal)) : bool :=
  match lookup key props with Some _ => true | None => false end.

(** [obj.key = v] on an ordinary object: overwrite in place, or add last. *)
Fixpoint setProp (key : jsstring) (v : JsVal) (props : list (jsstring * JsVal))
  : list (jsstring * JsVal) :=
  match props with
  | [] => [(key, v)]
  | (k, w) :: rest => if str_eqb k key then (k, v) :: rest else (k, w) :: setProp key v rest
  end.

(** The property names of [Object.prototype]; none of them is callable
    on a JSON value in a way the service uses, but a computed lookup
    [table[key]] reaches them. *)
Definition objectPrototypeNames : list jsstring :=
  map js ["constructor"; "__defineGetter__"; "__defineSetter__"; "hasOwnProperty";
          "__lookupGetter__"; "__lookupSetter__"; "isPrototypeOf";
          "propertyIsEnumerable"; "toString"; "valueOf"; "__proto__";
          "toLocaleString"]%string.

(* ================================================================== *)
(** ** Errors: [utils/apiError.js] *)

(** A thrown value is either an [APIError] or some other [Error] (a
    [TypeError], a [SyntaxError], an error of the provider SDK or of the
    database driver), of which only the message is ever read. *)
Inductive JsError : Type :=
| Error (message : jsstring)
| APIError (message : jsstring) (status : Z) (isOperational : bool) (metadata : JsVal).

(** [new APIError(message, status)]: [isOperational = true],
    [metadata = null]. *)
Definition newAPIError (message : jsstring) (status : Z) : JsError :=
  APIError message status true VNull.

(** [error instanceof APIError] *)
Definition isAPIError (e : JsError) : bool :=
  match e with APIError _ _ _ _ => true | Error _ => false end.

(** [error.message] *)
Definition messageOf (e : JsError) : jsstring :=
  match e with Error m => m | APIError m _ _ _ => m end.

(** [error.status]; a plain [Error] has none. *)
Definition statusOf (e : JsError) : option Z :=
  match e with Error _ => None | APIError _ s _ _ => Some s end.

(** The constants of the [http-status] package the service uses. *)
Module httpStatus.
Definition BAD_REQUEST : Z := 400.
Definition NOT_FOUND : Z := 404.
Definition INTERNAL_SERVER_ERROR : Z := 500.
End httpStatus.

(** The error taxonomy of the specification, read off a thrown value. *)
Definition isValidationError (e : JsError) : bool :=
  match statusOf e with Some s => Z.eqb s httpStatus.BAD_REQUEST | None => false end.
Definition isNotFound (e : JsError) : bool :=
  match statusOf e with Some s => Z.eqb s httpStatus.NOT_FOUND | None => false end.

Definition Result (A : Type) : Type := (JsError + A)%type.

(* ================================================================== *)
(** ** ToString and property reads *)

Section Conversions.

(** [Number.prototype.toString], a built-in of the runtime. *)
Variable numberToString : float -> jsstring.

(** ToString of a value, as a template literal applies it.  [None] is
    the [TypeError] "Cannot convert object to primitive value": a JSON
    object with an own [toString] has no callable conversion left.  An
    array is joined with commas, [null] and [undefined] elements giving
    the empty string.  A built-in function prints as native code under
    its own name, which is [Object] for the one [constructor] reaches. *)
Fixpoint ToString (v : JsVal) : option jsstring :=
  match v with
  | VUndefined => Some (js "undefined")
  | VNull => Some (js "null")
  | VBool true => Some (js "true")
  | VBool false => Some (js "false")
  | VNum x => Some (numberToString x)
  | VStr s => Some s
  | VArr elems =>
      (fix joinElems (l : list JsVal) : option jsstring :=
         match l with
         | [] => Some []
         | e :: rest =>
             let piece :=
               match e with
               | VUndefined | VNull => Some []
               | _ => ToString e
               end in
             match piece, rest with
             | None, _ => None
             | Some p, [] => Some p
             | Some p, _ :: _ =>
                 match joinElems rest with
                 | Some q => Some (p ++ js "," ++ q)
                 | None => None
                 end
             end
         end) elems
  | VObj props =>
      if hasOwn (js "toString") props then None else Some (js "[object Object]")
  | VNative name =>
      if str_eqb name (js "__proto__") then Some (js "[object Object]")
      else if str_eqb name (js "constructor") then
        Some (js "function Object() { [native code] }")
      else Some (js "function " ++ name ++ js "() { [native code] }")
  end.

Definition cannotConvert : JsError :=
  Error (js "Cannot convert object to primitive value").

Definition toStringOrThrow (v : JsVal) : Result jsstring :=
  match ToString v with
  | Some s => inr s
  | None => inl cannotConvert
  end.

End Conversions.

(** [v.key] for the keys the service reads ([type], [clauseType],
    [confidence]), none of which any built-in prototype defines: the own
    property of an object, [undefined] on every other value, and a
    [TypeError] on [null] and [undefined]. *)
Definition getProp (v : JsVal) (key : string) : Result JsVal :=
  match v with
  | VUndefined =>
      inl (Error (js "Cannot read properties of undefined (reading '" ++ js key ++ js "')"))
  | VNull =>
      inl (Error (js "Cannot read properties of null (reading '" ++ js key ++ js "')"))
  | VObj props =>
      match lookup (js key) props with
      | Some x => inr x
      | None => inr VUndefined
      end
  | _ => inr VUndefined
  end.

(* ================================================================== *)
(** ** The world outside the service *)

Definition Props := list (jsstring * JsVal).

(** An entry of a chat history as the service builds it:
    [{ role, parts }]. *)
Record HistoryEntry : Type := mkEntry { entryRole : JsVal; entryParts : JsVal }.

(** A turn in the provider's own format: [{ role, parts: [{ text }] }]. *)
Record ChatTurn : Type := mkTurn { turnRole : JsVal; turnText : JsVal }.

(** An outbound call to the generative-AI backend:
    [getGenerativeModel({model}).generateContent(contents)], or
    [getGenerativeModel({model, systemInstruction}).startChat({history})
     .sendMessage(prompt)]. *)
Inductive ProviderCall : Type :=
| GenerateContent (model : jsstring) (contents : list JsVal)
| SendMessage (model : jsstring) (systemInstruction : JsVal)
              (history : list ChatTurn) (prompt : JsVal).

Definition callModel (c : ProviderCall) : jsstring :=
  match c with
  | GenerateContent m _ => m
  | SendMessage m _ _ _ => m
  end.

(** Modelled from the spec: the Message and Conversation entities of
    section 3, whose schema ([models/conversation.model]) is not among
    the sources. *)
Record Message : Type := mkMessage {
  role : JsVal;
  content : JsVal;
  metadata : Props
}.

(** Modelled from the spec: see [Message]. *)
Record Conversation : Type := mkConversation {
  _id : jsstring;
  userId : JsVal;
  title : JsVal;
  description : JsVal;
  status : jsstring;
  messages : list Message
}.

Record World : Type := mkWorld {
  conversations : list Conversation;      (* the Conversation collection *)
  providerCalls : list ProviderCall;      (* outbound calls, oldest first *)
  warnings : list (jsstring * jsstring);  (* logger.warn lines, oldest first *)
  dbOps : nat;                            (* database operations issued *)
  clockReads : nat                        (* Date.now() calls made *)
}.

(** What the service does not decide: built-ins of the runtime, the
    configuration, and the behaviour of the backend, the database and
    the clock. *)
Record Runtime : Type := mkRuntime {
  numberToString : float -> jsstring;
  (** [JSON.parse]: the parsed value, or the message of the SyntaxError *)
  JSON_parse : jsstring -> jsstring + JsVal;
  (** [config.googleAI.apiKey] is set *)
  googleConfigured : bool;
  (** the text a call returns, or the message of the error it throws,
      given the calls made before it *)
  provider : list ProviderCall -> ProviderCall -> jsstring + jsstring;
  (** the n-th database operation throws an error with this message *)
  dbFault : nat -> option jsstring;
  (** the value of the n-th [Date.now()] *)
  clockAt : nat -> float;
  (** the [_id] given to the n-th document created *)
  newObjectId : nat -> jsstring
}.

(* ================================================================== *)
(** ** The monad of a request: state and exceptions *)

Definition M (A : Type) : Type := World -> Result A * World.

Definition ret {A} (x : A) : M A := fun w => (inr x, w).

Definition throw {A} (e : JsError) : M A := fun w => (inl e, w).

Definition bind {A B} (m : M A) (k : A -> M B) : M B :=
  fun w =>
    match m w with
    | (inr x, w') => k x w'
    | (inl e, w') => (inl e, w')
    end.

(** [try { m } catch (e) { h e }]: what [m] did to the world before it
    threw stays done. *)
Definition tryCatch {A} (m : M A) (h : JsError -> M A) : M A :=
  fun w =>
    match m w with
    | (inl e, w') => h e w'
    | r => r
    end.

(** A pure computation that may throw. *)
Definition lift {A} (r : Result A) : M A :=
  match r with
  | inr x => ret x
  | inl e => throw e
  end.

Declare Scope js_scope.
Delimit Scope js_scope with js.
Notation "x <- m ;; k" := (bind m (fun x => k))
  (at level 61, m at next level, right associativity) : js_scope.
Notation "m ;; k" := (bind m (fun _ => k))
  (at level 61, right associativity) : js_scope.
Local Open Scope js_scope.
Local Open Scope list_scope.

(** The catch block every method of the service ends with:
    [if (error instanceof APIError) throw error;
     throw new APIError(`<prefix>${error.message}`, INTERNAL_SERVER_ERROR)]. *)
Definition rethrowOrWrap {A} (prefix : string) (error : JsError) : M A :=
  if isAPIError error then throw error
  else throw (newAPIError (js prefix ++ messageOf error) httpStatus.INTERNAL_SERVER_ERROR).

(* ================================================================== *)
(** ** The generation provider adapter ([aiService]) *)

(** The options bag of the adapter.  Only [systemPrompt] is read. *)
Record GenOptions : Type := mkOptions {
  systemPrompt : JsVal;
  temperature : JsVal;
  maxTokens : JsVal
}.

(** [{ text, history }] *)
Record ChatResult : Type := mkChatResult {
  chatText : jsstring;
  chatHistory : list HistoryEntry
}.

Definition defaultSystemPrompt : JsVal :=
  VS "You are a legal contract expert. Generate professional, legally sound contracts.".

Definition modelNames : list jsstring :=
  [js "gemini-2.5-flash"; js "gemini-1.5-flash"; js "gemini-pro"].

Definition allModelsFailed : JsError := Error (js "All Google AI models failed").
Definition notConfigured : JsError := Error (js "Google AI not configured").

Section Service.

Variable rt : Runtime.

(** One call to the backend: it is recorded, and returns or throws as
    the backend decides. *)
Definition callProvider (c : ProviderCall) : M jsstring :=
  fun w =>
    let w' := mkWorld (conversations w) (providerCalls w ++ [c]) (warnings w)
                      (dbOps w) (clockReads w) in
    match provider rt (providerCalls w) c with
    | inr text => (inr text, w')
    | inl msg => (inl (Error msg), w')
    end.

(** [logger.warn(a, b)] *)
Definition loggerWarn (a b : jsstring) : M unit :=
  fun w =>
    (inr tt, mkWorld (conversations w) (providerCalls w) (warnings w ++ [(a, b)])
                     (dbOps w) (clockReads w)).

(** [Date.now()] *)
Definition dateNow : M float :=
  fun w =>
    (inr (clockAt rt (clockReads w)),
     mkWorld (conversations w) (providerCalls w) (warnings w)
             (dbOps w) (S (clockReads w))).

(** The loop both generation methods share:
    [for (const modelName of modelNames) { try { return attempt }
     catch (error) { logger.warn(...); continue; } }
     throw new Error('All Google AI models failed')]. *)
Fixpoint tryModels {A} (attempt : jsstring -> M A) (names : list jsstring) : M A :=
  match names with
  | [] => throw allModelsFailed
  | modelName :: rest =>
      tryCatch (attempt modelName)
        (fun error =>
           loggerWarn (js "Google AI model " ++ modelName ++ js " failed:")
                      (messageOf error) ;;
           tryModels attempt rest)
  end.

Definition generateWithGoogleAI (prompt : JsVal) (options : GenOptions) : M jsstring :=
  if negb (googleConfigured rt) then throw notConfigured
  else
    tryModels
      (fun modelName =>
         callProvider
           (GenerateContent modelName
              [jsOr (systemPrompt options) defaultSystemPrompt; prompt]))
      modelNames.

(** [history.filter(msg => msg.role !== 'system')
           .map(msg => ({ role: msg.role === 'user' ? 'user' : 'model',
                          parts: [{ text: msg.parts }] }))] *)
Definition toChatTurns (history : list HistoryEntry) : list ChatTurn :=
  map (fun msg =>
         mkTurn (if strictEqStr (entryRole msg) (js "user") then VS "user" else VS "model")
                (entryParts msg))
      (filter (fun msg => negb (strictEqStr (entryRole msg) (js "system"))) history).

Definition generateWithChatHistory (prompt : JsVal) (history : list HistoryEntry)
           (options : GenOptions) : M ChatResult :=
  if negb (googleConfigured rt) then throw notConfigured
  else
    tryModels
      (fun modelName =>
         responseText <-
           callProvider
             (SendMessage modelName (jsOr (systemPrompt options) defaultSystemPrompt)
                          (toChatTurns history) prompt) ;;
         ret (mkChatResult responseText
                (history ++ [mkEntry (VS "user") prompt;
                             mkEntry (VS "model") (VStr responseText)])))
      modelNames.

(* ================================================================ *)
(** ** The conversation store *)

(** One database operation: it is counted, and throws when the
    database decides so. *)
Definition dbOp : M unit :=
  fun w =>
    let w' := mkWorld (conversations w) (providerCalls w) (warnings w)
                      (S (dbOps w)) (clockReads w) in
    match dbFault rt (dbOps w) with
    | Some msg => (inl (Error msg), w')
    | None => (inr tt, w')
    end.

(** The filter [{ _id: conversationId, userId, status: { $ne: 'deleted' } }]. *)
Definition ownedBy (conversationId owner : JsVal) (c : Conversation) : bool :=
  strictEqStr conversationId (_id c) && sameKey owner (userId c)
  && negb (str_eqb (status c) (js "deleted")).

(** Modelled from the spec: [models/conversation.model], the Mongoose
    model behind [Conversation.findOne], is not among the sources.
    Following section 6 ([getById] must exclude [status = deleted]): one
    database operation, returning the first stored conversation the
    filter accepts, or [null]. *)
Definition Conversation_findOne (conversationId owner : JsVal) : M (option Conversation) :=
  dbOp ;;
  fun w => (inr (find (ownedBy conversationId owner) (conversations w)), w).

(** Modelled from the spec: the collection behind the missing model keeps
    one document per [_id]; storing a document replaces the one with its
    id, or adds it. *)
Fixpoint storeDoc (doc : Conversation) (docs : list Conversation) : list Conversation :=
  match docs with
  | [] => [doc]
  | d :: rest =>
      if str_eqb (_id d) (_id doc) then doc :: rest else d :: storeDoc doc rest
  end.

(** Modelled from the spec: [conversation.save()] of the missing model,
    one database operation that stores the document. *)
Definition Conversation_save (doc : Conversation) : M unit :=
  dbOp ;;
  fun w =>
    (inr tt, mkWorld (storeDoc doc (conversations w)) (providerCalls w) (warnings w)
                     (dbOps w) (clockReads w)).

(** Modelled from the spec: messages are append-only and kept in
    creation order (section 3), so a new message goes after the others. *)
Definition pushMessage (conversation : Conversation) (m : Message) : Conversation :=
  mkConversation (_id conversation) (userId conversation) (title conversation)
                 (description conversation) (status conversation)
                 (messages conversation ++ [m]).

(** Modelled from the spec: [conversation.addMessage(role, content,
    metadata)] of the missing model ([appendMessage] of section 6): the
    message is appended and the conversation saved.  Message timestamps,
    which nothing reads, are left out. *)
Definition Conversation_addMessage (conversation : Conversation)
           (role content : JsVal) (metadata : Props) : M Conversation :=
  let conversation' := pushMessage conversation (mkMessage role content metadata) in
  Conversation_save conversation' ;;
  ret conversation'.

(* ================================================================ *)
(** ** The service ([LexiAIService]) *)

Definition getOwn (props : Props) (key : string) : JsVal :=
  match lookup (js key) props with
  | Some v => v
  | None => VUndefined
  end.

Definition badRequest {A} (message : string) : M A :=
  throw (newAPIError (js message) httpStatus.BAD_REQUEST).

Definition seedMessage : Message :=
  mkMessage (VS "system")
    (VS "You are a legal document assistant. You help users understand, analyze, and improve legal documents.")
    [(js "type", VS "system")].

(** [createConversation(userId, title, description = '')]; a description
    left out or given as [undefined] takes the default. *)
Definition createConversation (owner title : JsVal) (description : option JsVal)
  : M Conversation :=
  tryCatch
    (if negb (truthy owner) then badRequest "User ID is required"
     else if negb (truthy title) then badRequest "Title is required"
     else
       fun w =>
         let conversation :=
           mkConversation (newObjectId rt (dbOps w))
                          owner
                          title
                          (match description with
                           | Some VUndefined | None => VStr []
                           | Some d => d
                           end)
                          (js "active")
                          [seedMessage] in
         (Conversation_save conversation ;; ret conversation) w)
    (rethrowOrWrap "Error creating conversation: ").

Definition getConversation (conversationId owner : JsVal) : M Conversation :=
  tryCatch
    (if negb (truthy conversationId) then badRequest "Conversation ID is required"
     else if negb (truthy owner) then badRequest "User ID is required"
     else
       found <- Conversation_findOne conversationId owner ;;
       match found with
       | None => throw (newAPIError (js "Conversation not found") httpStatus.NOT_FOUND)
       | Some conversation => ret conversation
       end)
    (rethrowOrWrap "Error getting conversation: ").

(** [metadata.type = role === 'system' ? 'system' : 'chat'] when
    [!metadata.type] *)
Definition withDefaultType (role : JsVal) (metadata : Props) : Props :=
  if negb (truthy (getOwn metadata "type")) then
    setProp (js "type")
            (if strictEqStr role (js "system") then VS "system" else VS "chat")
            metadata
  else metadata.

(** [addMessage(conversationId, userId, role, content, metadata = {})];
    [None] is an omitted [metadata]. *)
Definition addMessage (conversationId owner role content : JsVal)
           (metadataArg : option Props) : M Conversation :=
  let metadata := match metadataArg with Some m => m | None => [] end in
  tryCatch
    (if negb (truthy conversationId) then badRequest "Conversation ID is required"
     else if negb (truthy owner) then badRequest "User ID is required"
     else if negb (truthy role) then badRequest "Message role is required"
     else if negb (truthy content) then badRequest "Message content is required"
     else
       let metadata' := withDefaultType role metadata in
       conversation <- getConversation conversationId owner ;;
       Conversation_addMessage conversation role content metadata')
    (rethrowOrWrap "Error adding message: ").

(** *** System-prompt builder *)

Definition toStr (v : JsVal) : Result jsstring :=
  toStringOrThrow (numberToString rt) v.

(** The clause the [switch (intent.type)] appends. *)
Definition intentClause (intent : Props) (tone : JsVal) : Result jsstring :=
  let type := getOwn intent "type" in
  if strictEqStr type (js "summarize") then
    inr (js "Summarize the following text in a clear and concise manner.")
  else if strictEqStr type (js "explain") then
    inr (js "Explain the following legal terms and concepts in plain English.")
  else if strictEqStr type (js "analyze") then
    inr (js "Analyze the following text for potential risks, missing clauses, and enforceability concerns.")
  else if strictEqStr type (js "suggest") then
    match toStr (getOwn intent "clauseType") with
    | inl e => inl e
    | inr clauseType =>
        inr (js "Suggest appropriate " ++ clauseType
             ++ js " clauses based on the following context.")
    end
  else if strictEqStr type (js "adjust") then
    match toStr (jsOr tone (VS "formal")) with
    | inl e => inl e
    | inr t =>
        inr (js "Rewrite the following text in a " ++ t
             ++ js " tone while maintaining its legal meaning.")
    end
  else
    inr (js "Provide clear, accurate, and helpful legal information.").

(** [if (documentType) baseMessage += ` The context is about a ${documentType}.`] *)
Definition documentSentence (documentType : JsVal) : Result jsstring :=
  if truthy documentType then
    match toStr documentType with
    | inl e => inl e
    | inr d => inr (js " The context is about a " ++ d ++ js ".")
    end
  else inr [].

(** [if (tone) baseMessage += ` Use a ${tone} tone in your response.`] *)
Definition toneSentence (tone : JsVal) : Result jsstring :=
  if truthy tone then
    match toStr tone with
    | inl e => inl e
    | inr t => inr (js " Use a " ++ t ++ js " tone in your response.")
    end
  else inr [].

Definition prepareSystemMessage (intent : Props) (documentType tone : JsVal)
  : Result jsstring :=
  match intentClause intent tone with
  | inl e => inl e
  | inr clause =>
      let baseMessage := js "You are a legal document assistant. " ++ clause in
      match documentSentence documentType with
      | inl e => inl e
      | inr d =>
          let baseMessage := baseMessage ++ d in
          match toneSentence tone with
          | inl e => inl e
          | inr t => inr (baseMessage ++ t)
          end
      end
  end.

(** *** Intent classifier *)

Definition defaultIntent : Props :=
  [(js "type", VS "general"); (js "confidence", VNum 0.95)].

(** [/\{[\s\S]*\}/] *)
Definition braceRegex : Regex :=
  RSeqs [RChar (N.eqb 123); RStar (fun _ => true); RChar (N.eqb 125)].

Definition jsonParse (text : jsstring) : M JsVal :=
  match JSON_parse rt text with
  | inr v => ret v
  | inl msg => throw (Error msg)
  end.

(** [{ systemPrompt: 'Analyze ...', temperature: 0.3, maxTokens: 500 }] *)
Definition classifierOptions : GenOptions :=
  mkOptions
    (VS "Analyze this legal query and determine the intent. Return a JSON object with type and confidence.")
    (VNum 0.3) (VNum 500).

Definition analyzeIntent (message : JsVal) : M Props :=
  tryCatch
    (responseText <- generateWithGoogleAI message classifierOptions ;;
     result <-
       tryCatch (jsonParse responseText)
         (fun _ =>
            match firstMatch braceRegex responseText with
            | Some jsonMatch => jsonParse jsonMatch
            | None => throw (Error (js "Invalid response format"))
            end) ;;
     type <- lift (getProp result "type") ;;
     clauseType <- lift (getProp result "clauseType") ;;
     confidence <- lift (getProp result "confidence") ;;
     ret [(js "type", jsOr type (VS "general"));
          (js "clauseType", clauseType);
          (js "confidence", jsOr confidence (VNum 0.95))])
    (fun _ => ret defaultIntent).

(** *** Response post-processor *)

(** [/(Section|Article)\s+\d+[A-Za-z]?\s+(of\s+the\s+[A-Za-z\s]+Act)?/gi] *)
Definition sectionRegex : Regex :=
  RSeqs [RAlt (RLit true "Section") (RLit true "Article");
         RPlus isWhiteSpace; RPlus isDigit; ROpt (RChar isLetter); RPlus isWhiteSpace;
         ROpt (RSeqs [RLit true "of"; RPlus isWhiteSpace; RLit true "the";
                      RPlus isWhiteSpace;
                      RPlus (fun c => isLetter c || isWhiteSpace c);
                      RLit true "Act"])].

(** [/([A-Z][a-zA-Z]+\s+v\.\s+[A-Z][a-zA-Z]+)/g] *)
Definition caseRegex : Regex :=
  RSeqs [RChar isUpper; RPlus isLetter; RPlus isWhiteSpace; RLit false "v.";
         RPlus isWhiteSpace; RChar isUpper; RPlus isLetter].

(** [/[A-Z][a-zA-Z\s]+Act(,?\s*\d{4})?/g] *)
Definition actRegex : Regex :=
  RSeqs [RChar isUpper; RPlus (fun c => isLetter c || isWhiteSpace c); RLit false "Act";
         ROpt (RSeqs [ROpt (RChar (N.eqb 44)); RStar isWhiteSpace;
                      RChar isDigit; RChar isDigit; RChar isDigit; RChar isDigit])].

(** [[...new Set(references)]]: each string once, at its first
    occurrence. *)
Definition setAdd (seen : list jsstring) (x : jsstring) : list jsstring :=
  if existsb (str_eqb x) seen then seen else seen ++ [x].

Definition uniqueStrings (l : list jsstring) : list jsstring :=
  fold_left setAdd l [].

(** [if (!text || typeof text !== 'string') return references;] guards
    both extraction passes; past it [text] is a string. *)
Definition notText (text : JsVal) : bool := negb (truthy text) || negb (isString text).

Definition stringOf (text : JsVal) : jsstring :=
  match text with VStr s => s | _ => [] end.

Definition extractReferences (text : JsVal) : list jsstring :=
  if notText text then []
  else
    let sectionMatches := matchAll sectionRegex (stringOf text) in
    let caseMatches := matchAll caseRegex (stringOf text) in
    let actMatches := matchAll actRegex (stringOf text) in
    uniqueStrings (sectionMatches ++ caseMatches ++ actMatches).

Definition actionVerbs : list jsstring :=
  map js ["Consider"; "Ensure"; "Review"; "Verify"; "Confirm"; "Add"; "Remove";
          "Update"; "Check"; "Include"; "Exclude"]%string.

(** [/\r?\n/] *)
Definition lineBreak : Regex := RSeq (ROpt (RChar (N.eqb 13))) (RChar (N.eqb 10)).

(** The inner loop: [for (const verb of actionVerbs)
    if (line.trim().startsWith(verb)) { suggestions.push(line.trim()); break; }] *)
Fixpoint scanVerbs (line : jsstring) (verbs : list jsstring) (suggestions : list jsstring)
  : list jsstring :=
  match verbs with
  | [] => suggestions
  | verb :: rest =>
      if startsWith (trim line) verb then suggestions ++ [trim line]
      else scanVerbs line rest suggestions
  end.

Definition extractSuggestions (text : JsVal) : list jsstring :=
  if notText text then []
  else
    let lines := split lineBreak (stringOf text) in
    fold_left (fun suggestions line => scanVerbs line actionVerbs suggestions) lines [].

(** *** Metadata type *)

Definition typeMap : Props :=
  [(js "summarize", VS "summarize"); (js "explain", VS "explain");
   (js "analyze", VS "analyze"); (js "suggest", VS "suggest");
   (js "adjust", VS "adjust"); (js "InformationRequest", VS "chat");
   (js "ClarificationRequest", VS "chat"); (js "GeneralQuery", VS "chat");
   (js "LegalAdvice", VS "chat"); (js "DocumentReview", VS "analyze");
   (js "RiskAssessment", VS "analyze"); (js "ComplianceCheck", VS "analyze");
   (js "ClauseGeneration", VS "suggest"); (js "ToneAdjustment", VS "adjust")].

(** [typeMap[intentType] || 'chat']: the key is the string form of
    [intentType]; the lookup goes through the object literal, then
    through [Object.prototype]. *)
Definition mapIntentToMetadataType (intentType : JsVal) : Result JsVal :=
  match toStr intentType with
  | inl e => inl e
  | inr key =>
      let found :=
        match lookup key typeMap with
        | Some v => v
        | None =>
            if existsb (str_eqb key) objectPrototypeNames then VNative key
            else VUndefined
        end in
      inr (jsOr found (VS "chat"))
  end.

(** *** Query orchestrator *)

(** [options = {}] destructured; an absent field is [undefined]. *)
Record QueryOptions : Type := mkQueryOptions {
  optConversationId : JsVal;
  optUserId : JsVal;
  optDocumentType : JsVal;
  optTone : JsVal
}.

(** [{ text, metadata }] *)
Record QueryResult : Type := mkQueryResult {
  resultText : jsstring;
  resultMetadata : Props
}.

(** [conversation.messages.filter(msg => msg.role !== 'system')
      .map(msg => ({ role: msg.role === 'user' ? 'user' : 'model',
                     parts: msg.content }))] *)
Definition formatHistory (conversation : Conversation) : list HistoryEntry :=
  map (fun msg =>
         mkEntry (if strictEqStr (role msg) (js "user") then VS "user" else VS "model")
                 (content msg))
      (filter (fun msg => negb (strictEqStr (role msg) (js "system")))
              (messages conversation)).

(** Lines 203-215: the history of the conversation, when one is named. *)
Definition loadHistory (options : QueryOptions) : M (list HistoryEntry) :=
  if truthy (optConversationId options) && truthy (optUserId options) then
    conversation <- getConversation (optConversationId options) (optUserId options) ;;
    ret (formatHistory conversation)
  else ret [].

(** Lines 201-235: history, generation and latency, inside the inner
    [try] whose [catch] wraps whatever was thrown. *)
Definition generateAnswer (message : JsVal) (options : QueryOptions)
           (systemMessage : jsstring) (startTime : float) : M (jsstring * float) :=
  tryCatch
    (history <- loadHistory options ;;
     aiResponse <-
       match history with
       | _ :: _ =>
           result <- generateWithChatHistory message history
                       (mkOptions (VStr systemMessage) (VNum 0.7) VUndefined) ;;
           ret (chatText result)
       | [] =>
           generateWithGoogleAI message
             (mkOptions (VStr systemMessage) (VNum 0.7) (VNum 1000))
       end ;;
     now <- dateNow ;;
     ret (aiResponse, PrimFloat.sub now startTime))
    (fun err =>
       throw (newAPIError (js "Error processing legal query: " ++ messageOf err)
                          httpStatus.INTERNAL_SERVER_ERROR)).

Definition buildMetadata (metadataType : JsVal) (options : QueryOptions)
           (responseTime : float) (aiResponse : jsstring) : Props :=
  [(js "type", metadataType);
   (js "documentType", optDocumentType options);
   (js "tone", optTone options);
   (js "responseTime", VNum responseTime);
   (js "references", VArr (map VStr (extractReferences (VStr aiResponse))));
   (js "suggestions", VArr (map VStr (extractSuggestions (VStr aiResponse))));
   (js "provider", VS "google")].

(** Lines 249-252: the two turns, user first. *)
Definition saveInteraction (message : JsVal) (options : QueryOptions)
           (metadataType : JsVal) (aiResponse : jsstring) (metadata : Props) : M unit :=
  if truthy (optConversationId options) && truthy (optUserId options) then
    addMessage (optConversationId options) (optUserId options) (VS "user") message
               (Some [(js "type", metadataType)]) ;;
    addMessage (optConversationId options) (optUserId options) (VS "assistant")
               (VStr aiResponse) (Some metadata) ;;
    ret tt
  else ret tt.

(** Lines 183-246: everything up to the assembled metadata. *)
Definition answerQuery (message : JsVal) (options : QueryOptions) (startTime : float)
  : M (jsstring * JsVal * Props) :=
  if negb (truthy message) then badRequest "Message is required"
  else
    intent <- analyzeIntent message ;;
    metadataType <- lift (mapIntentToMetadataType (getOwn intent "type")) ;;
    systemMessage <-
      lift (prepareSystemMessage intent (optDocumentType options) (optTone options)) ;;
    answer <- generateAnswer message options systemMessage startTime ;;
    ret (fst answer, metadataType,
         buildMetadata metadataType options (snd answer) (fst answer)).

Definition processLegalQuery (message : JsVal) (options : QueryOptions) : M QueryResult :=
  startTime <- dateNow ;;
  tryCatch
    (answered <- answerQuery message options startTime ;;
     let aiResponse := fst (fst answered) in
     let metadataType := snd (fst answered) in
     let metadata := snd answered in
     saveInteraction message options metadataType aiResponse metadata ;;
     ret (mkQueryResult aiResponse metadata))
    (rethrowOrWrap "Error processing legal query: ").

End Service.

(* ================================================================== *)
(** ** More of the provider adapter ([aiService]) *)

(** [Number(n)] for an array index or a length. *)
Fixpoint floatOfNat (n : nat) : float :=
  match n with
  | O => 0%float
  | S k => PrimFloat.add (floatOfNat k) 1%float
  end.

(** [Array.prototype.join] on strings *)
Fixpoint joinWith (sep : jsstring) (l : list jsstring) : jsstring :=
  match l with
  | [] => []
  | [x] => x
  | x :: rest => x ++ sep ++ joinWith sep rest
  end.

(** [String.prototype.replace] with a one-character pattern and the
    empty replacement: the first occurrence goes. *)
Fixpoint removeFirst (c : N) (s : jsstring) : jsstring :=
  match s with
  | [] => []
  | x :: rest => if N.eqb x c then rest else x :: removeFirst c rest
  end.

(** [String.prototype.split] as [splitScan] does it, for a separator
    given by the length it matches at a position ([None]: no match
    there); this is how a separator with a lookahead is run. *)
Fixpoint splitScanBy (sepAt : jsstring -> option nat) (skip : nat) (cur : jsstring)
         (s : jsstring) : list jsstring :=
  match s with
  | [] => [rev cur]
  | c :: rest =>
      match skip with
      | S skip' => splitScanBy sepAt skip' cur rest
      | O =>
          match sepAt s with
          | Some (S len') => rev cur :: splitScanBy sepAt len' [] rest
          | Some O =>
              match cur with
              | [] => splitScanBy sepAt 0 [c] rest
              | _ :: _ => rev cur :: splitScanBy sepAt 0 [c] rest
              end
          | None => splitScanBy sepAt 0 (c :: cur) rest
          end
      end
  end.

(** [[A-Z][A-Za-z\s]+:], the lookahead of the section separator. *)
Definition headingRegex : Regex :=
  RSeqs [RChar isUpper; RPlus (fun c => isLetter c || isWhiteSpace c); RChar (N.eqb 58)].

(** [/\n(?=[A-Z][A-Za-z\s]+:)/] at the start of [s]: a line feed that a
    heading follows; the line feed alone is the separator. *)
Definition sectionBreakAt (s : jsstring) : option nat :=
  match s with
  | c :: rest =>
      if N.eqb c 10 then
        match matchAt headingRegex rest with
        | Some _ => Some 1
        | None => None
        end
      else None
  | [] => None
  end.

Definition splitBy (sepAt : jsstring -> option nat) (s : jsstring) : list jsstring :=
  match s with
  | [] => match sepAt [] with Some _ => [] | None => [[]] end
  | _ :: _ => splitScanBy sepAt 0 [] s
  end.

(** [{ title, content, order }] *)
Definition sectionObject (title content : jsstring) (order : nat) : JsVal :=
  VObj [(js "title", VStr title); (js "content", VStr content);
        (js "order", VNum (floatOfNat order))].

(** The callback of [sections.map]: [section.split('\n')], the first
    piece as title without its first colon, the others joined again as
    content, both trimmed, and [index + 1] as order.  Destructuring an
    empty array would leave [title] undefined. *)
Definition sectionOfText (index : nat) (section : jsstring) : Result JsVal :=
  match split (RChar (N.eqb 10)) section with
  | title :: contentParts =>
      inr (sectionObject (trim (removeFirst 58 title))
                         (trim (joinWith [10%N] contentParts))
                         (index + 1))
  | [] => inl (Error (js "Cannot read properties of undefined (reading 'replace')"))
  end.

Fixpoint mapSections (index : nat) (sections : list jsstring) : Result (list JsVal) :=
  match sections with
  | [] => inr []
  | section :: rest =>
      match sectionOfText index section with
      | inl e => inl e
      | inr x =>
          match mapSections (S index) rest with
          | inl e => inl e
          | inr xs => inr (x :: xs)
          end
      end
  end.

(** [parseSectionsFromText(text)]; only a string has a [split]. *)
Definition parseSectionsFromText (text : JsVal) : Result JsVal :=
  match text with
  | VStr s =>
      match mapSections 0 (splitBy sectionBreakAt s) with
      | inr sections => inr (VArr sections)
      | inl e => inl e
      end
  | VUndefined =>
      inl (Error (js "Cannot read properties of undefined (reading 'split')"))
  | VNull => inl (Error (js "Cannot read properties of null (reading 'split')"))
  | _ => inl (Error (js "text.split is not a function"))
  end.

(** [getFallbackSections(contractType)]; the argument is not used. *)
Definition getFallbackSections (contractType : JsVal) : JsVal :=
  VArr [sectionObject (js "Parties") (js "Contract parties information") 1;
        sectionObject (js "Term") (js "Contract duration and terms") 2;
        sectionObject (js "Obligations") (js "Party obligations and responsibilities") 3;
        sectionObject (js "Payment Terms") (js "Payment schedules and methods") 4;
        sectionObject (js "Termination") (js "Contract termination conditions") 5;
        sectionObject (js "Miscellaneous") (js "Standard boilerplate clauses") 6].

Definition fallbackClauses : Props :=
  [(js "confidentiality",
    VS "All parties agree to maintain the confidentiality of proprietary information.");
   (js "termination",
    VS "This agreement may be terminated by either party with written notice.");
   (js "payment",
    VS "Payment shall be made according to the terms specified in this agreement.");
   (js "liability",
    VS "Liability shall be limited to the extent permitted by applicable law.");
   (js "default", VS "Standard legal clause for the specified context.")].

(** The state of the adapter object: [this.providers] and
    [this.currentProvider]; [None] is the [NaN] a list without providers
    leads to. *)
Record AdapterState : Type := mkAdapterState {
  providers : list jsstring;
  currentProvider : option nat
}.

(** [constructor()] *)
Definition newAdapterState : AdapterState := mkAdapterState [js "google"] (Some 0).

(** [getNextProvider()]: the provider returned and the state left. *)
Definition getNextProvider (s : AdapterState) : JsVal * AdapterState :=
  let next :=
    match currentProvider s, List.length (providers s) with
    | Some c, S n => Some ((c + 1) mod (S n))
    | _, _ => None
    end in
  (match next with
   | Some i => match nth_error (providers s) i with Some p => VStr p | None => VUndefined end
   | None => VUndefined
   end,
   mkAdapterState (providers s) next).

(** What the adapter keeps besides the world of a request: the writes
    made to the cache, and the info and error lines logged. *)
Record CacheWrite : Type := mkCacheWrite {
  writeKey : JsVal;
  writeValue : jsstring;
  writeTTL : JsVal
}.

Inductive LogArg : Type :=
| LogText (s : jsstring)
| LogError (e : JsError).

Record Session : Type := mkSession {
  world : World;
  cacheWrites : list CacheWrite;
  infoLog : list jsstring;
  errorLog : list (jsstring * LogArg)
}.

(** [cacheService], which is not among the sources, as the adapter sees
    it: what [getCachedAIResponse(prompt)] returns (or the message of
    what it throws) given the writes made so far, and whether
    [cacheAIResponse] throws. *)
Record CacheService : Type := mkCacheService {
  cacheLookup : list CacheWrite -> JsVal -> jsstring + JsVal;
  cacheWriteFault : list CacheWrite -> CacheWrite -> option jsstring
}.

(** The options bag of [generateContent]: the adapter options and
    [cacheTTL]. *)
Record ContentOptions : Type := mkContentOptions {
  genOptions : GenOptions;
  cacheTTL : JsVal
}.

Definition MS (A : Type) : Type := Session -> Result A * Session.

Definition retS {A} (x : A) : MS A := fun s => (inr x, s).

Definition throwS {A} (e : JsError) : MS A := fun s => (inl e, s).

Definition bindS {A B} (m : MS A) (k : A -> MS B) : MS B :=
  fun s =>
    match m s with
    | (inr x, s') => k x s'
    | (inl e, s') => (inl e, s')
    end.

Definition tryCatchS {A} (m : MS A) (h : JsError -> MS A) : MS A :=
  fun s =>
    match m s with
    | (inl e, s') => h e s'
    | r => r
    end.

(** A computation on the world, run inside a session. *)
Definition inWorld {A} (m : M A) : MS A :=
  fun s =>
    match m (world s) with
    | (r, w') => (r, mkSession w' (cacheWrites s) (infoLog s) (errorLog s))
    end.

Definition liftS {A} (r : Result A) : MS A :=
  match r with
  | inr x => retS x
  | inl e => throwS e
  end.

(** [logger.info(line)] *)
Definition loggerInfo (line : jsstring) : MS unit :=
  fun s =>
    (inr tt, mkSession (world s) (cacheWrites s) (infoLog s ++ [line]) (errorLog s)).

(** [logger.error(label, arg)] *)
Definition loggerError (label : jsstring) (arg : LogArg) : MS unit :=
  fun s =>
    (inr tt, mkSession (world s) (cacheWrites s) (infoLog s)
                       (errorLog s ++ [(label, arg)])).

Declare Scope session_scope.
Delimit Scope session_scope with session.
Notation "x <- m ;; k" := (bindS m (fun x => k))
  (at level 61, m at next level, right associativity) : session_scope.
Notation "m ;; k" := (bindS m (fun _ => k))
  (at level 61, right associativity) : session_scope.

Section Adapter.

Variable rt : Runtime.

(** The loop of [healthCheck]:
    [for (const modelName of modelNames) { try { await
     model.generateContent('test'); success = true; break; }
     catch (error) { logger.warn(...); continue; } }].  The string
    ['test'] is a request of one part. *)
Fixpoint probeModels (names : list jsstring) : M bool :=
  match names with
  | [] => ret false
  | modelName :: rest =>
      tryCatch
        (callProvider rt (GenerateContent modelName [VS "test"]) ;; ret true)
        (fun error =>
           loggerWarn (js "Health check failed for model " ++ modelName ++ js ":")
                      (messageOf error) ;;
           probeModels rest)
  end.

(** [healthCheck()]: the object [{ google }]. *)
Definition healthCheck : M Props :=
  if googleConfigured rt then
    tryCatch
      (success <- probeModels modelNames ;;
       ret [(js "google", VBool success)])
      (fun _ => ret [(js "google", VBool false)])
  else ret [(js "google", VBool false)].

(** [clauses[type] || clauses.default] *)
Definition getFallbackClause (type : JsVal) : Result JsVal :=
  match toStr rt type with
  | inl e => inl e
  | inr key =>
      let found :=
        match lookup key fallbackClauses with
        | Some v => v
        | None =>
            if existsb (str_eqb key) objectPrototypeNames then VNative key
            else VUndefined
        end in
      inr (jsOr found (getOwn fallbackClauses "default"))
  end.

Variable cache : CacheService.

Local Open Scope session_scope.

(** [cacheService.getCachedAIResponse(prompt)] *)
Definition getCachedAIResponse (prompt : JsVal) : MS JsVal :=
  fun s =>
    match cacheLookup cache (cacheWrites s) prompt with
    | inr v => (inr v, s)
    | inl msg => (inl (Error msg), s)
    end.

(** [cacheService.cacheAIResponse(prompt, response, ttl)] *)
Definition cacheAIResponse (prompt : JsVal) (response : jsstring) (ttl : JsVal) : MS unit :=
  fun s =>
    let write := mkCacheWrite prompt response ttl in
    match cacheWriteFault cache (cacheWrites s) write with
    | Some msg => (inl (Error msg), s)
    | None =>
        (inr tt, mkSession (world s) (cacheWrites s ++ [write]) (infoLog s) (errorLog s))
    end.

Definition generateContent (prompt : JsVal) (options : ContentOptions) : MS JsVal :=
  cachedResponse <- getCachedAIResponse prompt ;;
  if truthy cachedResponse then
    loggerInfo (js "Using cached AI response") ;;
    retS cachedResponse
  else
    tryCatchS
      (response <- inWorld (generateWithGoogleAI rt prompt (genOptions options)) ;;
       cacheAIResponse prompt response (jsOr (cacheTTL options) (VNum 3600)) ;;
       retS (VStr response))
      (fun error =>
         loggerError (js "Google AI failed:") (LogText (messageOf error)) ;;
         throwS error).

(** [`Generate contract sections for a ${contractType} contract with
     ${parties.length} parties. Include all necessary legal sections.`];
    [parties] is an array, or missing. *)
Definition sectionsPrompt (contractType : JsVal) (parties : option (list JsVal))
  : Result jsstring :=
  match toStr rt contractType with
  | inl e => inl e
  | inr t =>
      match parties with
      | None =>
          inl (Error (js "Cannot read properties of undefined (reading 'length')"))
      | Some l =>
          inr (js "Generate contract sections for a " ++ t ++ js " contract with "
               ++ numberToString rt (floatOfNat (List.length l))
               ++ js " parties. Include all necessary legal sections.")
      end
  end.

Definition generateContractSections (contractType : JsVal) (parties : option (list JsVal))
  : MS JsVal :=
  prompt <- liftS (sectionsPrompt contractType parties) ;;
  tryCatchS
    (response <-
       generateContent (VStr prompt)
         (mkContentOptions
            (mkOptions
               (VS "You are a legal expert. Generate comprehensive contract sections in JSON format.")
               (VNum 0.5) VUndefined)
            VUndefined) ;;
     tryCatchS
       (text <- liftS (toStr rt response) ;;
        match JSON_parse rt text with
        | inr v => retS v
        | inl msg => throwS (Error msg)
        end)
       (fun _ => liftS (parseSectionsFromText response)))
    (fun error =>
       loggerError (js "Error generating contract sections:") (LogError error) ;;
       retS (getFallbackSections contractType)).





End Adapter.

(* ================================================================== *)
(** ** Archiving and restoring ([LexiAIService]) *)

(** A thrown value with the fields of an [APIError] as the constructor
    stores them, whatever was passed in each position. *)
Inductive Thrown : Type :=
| ThrownError (message : jsstring)
| ThrownAPIError (message status : JsVal) (isOperational : bool) (metadata : JsVal).

Definition thrownOf (e : JsError) : Thrown :=
  match e with
  | Error m => ThrownError m
  | APIError m s op md => ThrownAPIError (VStr m) (VNum (floatOfNat (Z.to_nat s))) op md
  end.

(** [new APIError(httpStatus.X, 'text')]: the status code lands in
    [message] and the text in [status]. *)
Definition misordered (code : float) (text : jsstring) : Thrown :=
  ThrownAPIError (VNum code) (VStr text) true VNull.

Definition MT (A : Type) : Type := World -> (Thrown + A) * World.

Definition retT {A} (x : A) : MT A := fun w => (inr x, w).

Definition throwT {A} (e : Thrown) : MT A := fun w => (inl e, w).

Definition bindT {A B} (m : MT A) (k : A -> MT B) : MT B :=
  fun w =>
    match m w with
    | (inr x, w') => k x w'
    | (inl e, w') => (inl e, w')
    end.

Definition tryCatchT {A} (m : MT A) (h : Thrown -> MT A) : MT A :=
  fun w =>
    match m w with
    | (inl e, w') => h e w'
    | r => r
    end.

(** A call into the methods modelled in [M]. *)
Definition awaitM {A} (m : M A) : MT A :=
  fun w =>
    match m w with
    | (inl e, w') => (inl (thrownOf e), w')
    | (inr x, w') => (inr x, w')
    end.

(** [if (error instanceof APIError) throw error;
     throw new APIError(httpStatus.INTERNAL_SERVER_ERROR, `<prefix>${error.message}`)] *)
Definition rethrowOrMisorder {A} (prefix : string) (error : Thrown) : MT A :=
  match error with
  | ThrownAPIError _ _ _ _ => throwT error
  | ThrownError m => throwT (misordered 500 (js prefix ++ m))
  end.

Section Lifecycle.

Variable rt : Runtime.

(** [conversation.archive()] and [conversation.restore()], methods of the
    model that is not among the sources: the conversation as the method
    leaves it, or what it throws. *)
Variable archive : Conversation -> M Conversation.
Variable restore : Conversation -> M Conversation.

Definition archiveConversation (conversationId owner : JsVal) : MT Conversation :=
  tryCatchT
    (if negb (truthy conversationId) then
       throwT (misordered 400 (js "Conversation ID is required"))
     else if negb (truthy owner) then
       throwT (misordered 400 (js "User ID is required"))
     else
       bindT (awaitM (getConversation rt conversationId owner))
             (fun conversation => awaitM (archive conversation)))
    (rethrowOrMisorder "Error archiving conversation: ").

Definition restoreConversation (conversationId owner : JsVal) : MT Conversation :=
  tryCatchT
    (if negb (truthy conversationId) then
       throwT (misordered 400 (js "Conversation ID is required"))
     else if negb (truthy owner) then
       throwT (misordered 400 (js "User ID is required"))
     else
       bindT (awaitM (getConversation rt conversationId owner))
             (fun conversation => awaitM (restore conversation)))
    (rethrowOrMisorder "Error restoring conversation: ").

End Lifecycle.

(* ================================================================== *)
(** ** The contract conversation model ([models/contractConversation.js]) *)

(** An element of [history]: [{ role, parts, modifiedBlocks, timestamp }]. *)
Record HistoryItem : Type := mkHistoryItem {
  itemRole : JsVal;
  itemParts : JsVal;
  itemModifiedBlocks : JsVal;
  itemTimestamp : float
}.

Record ContractConversation : Type := mkContractConversation {
  ccContractId : JsVal;
  ccUserId : JsVal;
  ccHistory : list HistoryItem;
  ccContractContext : JsVal;
  ccCreatedAt : float;
  ccUpdatedAt : float
}.

Definition withHistory (doc : ContractConversation) (h : list HistoryItem)
  : ContractConversation :=
  mkContractConversation (ccContractId doc) (ccUserId doc) h (ccContractContext doc)
                         (ccCreatedAt doc) (ccUpdatedAt doc).

Section ContractConversationMethods.

Variable rt : Runtime.

(** [this.save()]: the [pre('save')] hook sets [updatedAt] to the current
    time, then the document goes to the database (validation against the
    schema is part of that operation).  The document is given back as the
    call leaves it in memory, with what the call returned or threw. *)
Definition documentSave (doc : ContractConversation)
  : World -> (ContractConversation * Result unit) * World :=
  fun w =>
    match dateNow rt w with
    | (inr now, w1) =>
        let doc' := mkContractConversation (ccContractId doc) (ccUserId doc) (ccHistory doc)
                                           (ccContractContext doc) (ccCreatedAt doc) now in
        match dbOp rt w1 with
        | (r, w2) => ((doc', r), w2)
        end
    | (inl e, w1) => ((doc, inl e), w1)
    end.

(** [addMessage(role, parts, modifiedBlocks = [])]; an argument left out
    is [undefined], and takes the default. *)
Definition contractAddMessage (doc : ContractConversation) (role parts : JsVal)
           (modifiedBlocks : JsVal)
  : World -> (ContractConversation * Result unit) * World :=
  fun w =>
    match dateNow rt w with
    | (inr now, w1) =>
        documentSave
          (withHistory doc
             (ccHistory doc
              ++ [mkHistoryItem role parts
                    (match modifiedBlocks with VUndefined => VArr [] | b => b end) now]))
          w1
    | (inl e, w1) => ((doc, inl e), w1)
    end.

(** [clearHistory()] *)
Definition clearHistory (doc : ContractConversation)
  : World -> (ContractConversation * Result unit) * World :=
  documentSave (withHistory doc []).

End ContractConversationMethods.

(** [getFormattedHistory()] *)
Definition getFormattedHistory (doc : ContractConversation) : list ChatTurn :=
  map (fun msg =>
         mkTurn (if strictEqStr (itemRole msg) (js "user") then VS "user" else VS "model")
                (itemParts msg))
      (filter (fun msg => negb (strictEqStr (itemRole msg) (js "system"))) (ccHistory doc)).

(** [Array.prototype.slice(start)] for an integer [start]. *)
Definition sliceFrom {A} (start : Z) (l : list A) : list A :=
  let len := Z.of_nat (List.length l) in
  let k := if (start <? 0)%Z then Z.max (len + start) 0 else Z.min start len in
  skipn (Z.to_nat k) l.

(** [getRecentMessages(limit = 10)], for an integer [limit]. *)
Definition getRecentMessages (doc : ContractConversation) (limit : option Z)
  : list HistoryItem :=
  let limit := match limit with Some n => n | None => 10%Z end in
  sliceFrom (- limit) (ccHistory doc).

(* ================================================================== *)
(** ** The subscription gate ([middlewares/checkSubscription.js]) *)

(** The request, as far as the middleware reads and writes it. *)
Record Request : Type := mkRequest {
  reqUser : JsVal;
  reqSubscriptionInfo : JsVal
}.

Definition PAYMENT_REQUIRED : float := 402%float.

Definition unlimitedSubscription : JsVal :=
  VObj [(js "canCreate", VBool true);
        (js "remainingFree", VNum PrimFloat.infinity);
        (js "limit", VNum PrimFloat.infinity);
        (js "requiresSubscription", VBool false)].

Definition getThrown (v : JsVal) (key : string) : Thrown + JsVal :=
  match getProp v key with
  | inl e => inl (thrownOf e)
  | inr x => inr x
  end.

(** The handler wrapped by [catchAsync]: [inr req] is [next()] called on
    the request as the handler left it, [inl] what the handler threw.
    [nodeEnv] is [config.NODE_ENV]; [checkContractCreationLimit] is the
    method of the subscription service, which is not among the sources. *)
Definition checkSubscription (nodeEnv : JsVal)
           (checkContractCreationLimit : JsVal -> Thrown + JsVal) (req : Request)
  : Thrown + Request :=
  if strictEqStr nodeEnv (js "development") then
    inr (mkRequest (reqUser req) unlimitedSubscription)
  else
    match getThrown (reqUser req) "id" with
    | inl e => inl e
    | inr userId =>
        match checkContractCreationLimit userId with
        | inl e => inl e
        | inr limitCheck =>
            match getThrown limitCheck "canCreate" with
            | inl e => inl e
            | inr canCreate =>
                if negb (truthy canCreate) then
                  match getThrown limitCheck "reason",
                        getThrown limitCheck "remainingFree",
                        getThrown limitCheck "limit" with
                  | inr reason, inr remainingFree, inr limit =>
                      inl (ThrownAPIError
                             (jsOr reason (VS "Subscription required to create more contracts"))
                             (VNum PAYMENT_REQUIRED)
                             true
                             (VObj [(js "remainingFree", remainingFree);
                                    (js "limit", limit);
                                    (js "requiresSubscription", VBool true)]))
                  | inl e, _, _ => inl e
                  | _, inl e, _ => inl e
                  | _, _, inl e => inl e
                  end
                else inr (mkRequest (reqUser req) limitCheck)
            end
        end
    end.

(* ================================================================== *)
(** ** BlockNote content as text (the converters after [APIError]) *)

(** [typeof v === 'object'] for a value that is not [null]. *)
Definition isObjectValue (v : JsVal) : bool :=
  match v with
  | VArr _ | VObj _ => true
  | VNative name => str_eqb name (js "__proto__")
  | _ => false
  end.

(** [v.key] and [v?.key] for the keys the converters read ([type],
    [content], [props], [text], [level]), which no built-in prototype
    defines: the own property of an object, [undefined] on anything
    else. *)
Definition field (v : JsVal) (key : string) : JsVal :=
  match v with
  | VObj props => getOwn props key
  | _ => VUndefined
  end.

(** [f] on each element in order, up to the first that throws. *)
Fixpoint mapResult {A B} (f : A -> Result B) (l : list A) : Result (list B) :=
  match l with
  | [] => inr []
  | x :: rest =>
      match f x with
      | inl e => inl e
      | inr y =>
          match mapResult f rest with
          | inl e => inl e
          | inr ys => inr (y :: ys)
          end
      end
  end.

Section BlockNote.

(** [Number.prototype.toString], a built-in of the runtime. *)
Variable numberToString : float -> jsstring.

(** ['#'.repeat(level)], a built-in of the runtime: the hashes, or the
    [RangeError] of a count that is negative or infinite. *)
Variable repeatHash : JsVal -> Result jsstring.

(** What [Array.prototype.join] makes of an element: nothing of
    [undefined] and [null], the string form of anything else. *)
Definition joinPiece (v : JsVal) : Result jsstring :=
  match v with
  | VUndefined | VNull => inr []
  | _ => toStringOrThrow numberToString v
  end.

(** [pieces.join('')] *)
Fixpoint joinPieces (pieces : list JsVal) : Result jsstring :=
  match pieces with
  | [] => inr []
  | v :: rest =>
      match joinPiece v with
      | inl e => inl e
      | inr s =>
          match joinPieces rest with
          | inl e => inl e
          | inr t => inr (s ++ t)
          end
      end
  end.

(** [const level = props?.level || 1; '#'.repeat(level)] *)
Definition headingHashes (props : JsVal) : Result jsstring :=
  repeatHash (jsOr (field props "level") (VNum 1)).

(** [formatBlockText(text, type, props = {})] *)
Definition formatBlockText (text : jsstring) (type props : JsVal) : Result jsstring :=
  match text with
  | [] => inr []
  | _ :: _ =>
      if strictEqStr type (js "heading") then
        match headingHashes props with
        | inl e => inl e
        | inr hashes => inr (hashes ++ js " " ++ trim text)
        end
      else if strictEqStr type (js "quote") then inr (js "> " ++ trim text)
      else if strictEqStr type (js "bulletListItem") then
        inr ([8226%N; 32%N] ++ trim text)
      else if strictEqStr type (js "numberedListItem") then inr (js "1. " ++ trim text)
      else if strictEqStr type (js "checkListItem") then
        inr ([9744%N; 32%N] ++ trim text)
      else inr (trim text)
  end.

(** [convertBlockToText(block)].  The recursion is on the block: the
    own property [content] is looked up in place, and an inline item
    with a truthy [content] is converted as a block of its own. *)
Fixpoint convertBlockToText (block : JsVal) : Result jsstring :=
  match block with
  | VObj props =>
      (fix contentOf (l : Props) : Result jsstring :=
         match l with
         | [] => inr []
         | (k, v) :: rest =>
             if str_eqb k (js "content") then
               match v with
               | VStr content =>
                   formatBlockText content (getOwn props "type") (getOwn props "props")
               | VArr items =>
                   match
                     (fix eachItem (l : list JsVal) : Result (list JsVal) :=
                        match l with
                        | [] => inr []
                        | item :: more =>
                            match
                              match item with
                              | VStr _ => inr item
                              | _ =>
                                  if isObjectValue item then
                                    if strictEqStr (field item "type") (js "text")
                                       && truthy (field item "text")
                                    then inr (field item "text")
                                    else if truthy (field item "content") then
                                      match convertBlockToText item with
                                      | inl e => inl e
                                      | inr s => inr (VStr s)
                                      end
                                    else inr (VStr [])
                                  else inr (VStr [])
                              end
                            with
                            | inl e => inl e
                            | inr piece =>
                                match eachItem more with
                                | inl e => inl e
                                | inr pieces => inr (piece :: pieces)
                                end
                            end
                        end) items
                   with
                   | inl e => inl e
                   | inr pieces =>
                       match joinPieces pieces with
                       | inl e => inl e
                       | inr text =>
                           formatBlockText text (getOwn props "type") (getOwn props "props")
                       end
                   end
               | _ => inr []
               end
             else contentOf rest
         end) props
  | _ => inr []
  end.

(** [convertBlockNoteToText(blockNoteContent)] *)
Definition convertBlockNoteToText (blockNoteContent : JsVal) : Result jsstring :=
  if negb (truthy blockNoteContent) then inr []
  else
    match blockNoteContent with
    | VArr blocks =>
        match mapResult convertBlockToText blocks with
        | inl e => inl e
        | inr texts => inr (joinWith [10%N; 10%N] texts)
        end
    | VStr s => inr s
    | _ => if isObjectValue blockNoteContent then convertBlockToText blockNoteContent
           else inr []
    end.

(** The callback of [content.map] in [convertBlockToMarkdown]:
    [typeof item === 'string' ? item : item?.text ? item.text : '']. *)
Definition markdownItem (item : JsVal) : JsVal :=
  match item with
  | VStr _ => item
  | _ => if truthy (field item "text") then field item "text" else VStr []
  end.

(** [convertBlockToMarkdown(block)] *)
Definition convertBlockToMarkdown (block : JsVal) : Result jsstring :=
  if negb (truthy block) || negb (isObjectValue block) then inr []
  else
    let type := field block "type" in
    let content := field block "content" in
    let props := field block "props" in
    match
      match content with
      | VStr s => inr s
      | VArr items => joinPieces (map markdownItem items)
      | _ => inr []
      end
    with
    | inl e => inl e
    | inr text =>
        if strictEqStr type (js "heading") then
          match headingHashes props with
          | inl e => inl e
          | inr hashes => inr (hashes ++ js " " ++ trim text)
          end
        else if strictEqStr type (js "quote") then inr (js "> " ++ trim text)
        else if strictEqStr type (js "bulletListItem") then inr (js "- " ++ trim text)
        else if strictEqStr type (js "numberedListItem") then inr (js "1. " ++ trim text)
        else inr (trim text)
    end.

(** [convertBlockNoteToMarkdown(blockNoteContent)] *)
Definition convertBlockNoteToMarkdown (blockNoteContent : JsVal) : Result jsstring :=
  if negb (truthy blockNoteContent) then inr []
  else
    match blockNoteContent with
    | VArr blocks =>
        match mapResult convertBlockToMarkdown blocks with
        | inl e => inl e
        | inr texts => inr (joinWith [10%N; 10%N] texts)
        end
    | _ => if isObjectValue blockNoteContent then convertBlockToMarkdown blockNoteContent
           else inr []
    end.

End BlockNote.

(* ================================================================== *)
(** ** The context service ([ContextService], after [AIService]) *)

(** [options = {}] destructured: [{ userId, conversationId,
    recentLimit = 5 }]; [None] is an absent [recentLimit], otherwise an
    integer. *)
Record ContextOptions : Type := mkContextOptions {
  ctxUserId : JsVal;
  ctxConversationId : JsVal;
  ctxRecentLimit : option Z
}.

(** [{ role, content, timestamp }] *)
Record ContextMessage : Type := mkContextMessage {
  ctxRole : JsVal;
  ctxContent : JsVal;
  ctxTimestamp : JsVal
}.

(** The world of a request and what the service logs. *)
Record ContextState : Type := mkContextState {
  ctxWorld : World;
  debugLog : list jsstring;
  ctxErrorLog : list (jsstring * LogArg)
}.

(** The filter [{ _id: conversationId, userId }]: the status is not
    part of it. *)
Definition ownedAnyStatus (conversationId owner : JsVal) (c : Conversation) : bool :=
  strictEqStr conversationId (_id c) && sameKey owner (userId c).

Section Context.

Variable rt : Runtime.

(** [msg.timestamp], which the record of a message leaves out. *)
Variable timestampOf : Message -> JsVal.

(** [conversation.messages.filter(msg => msg.role !== 'system')
      .slice(-recentLimit)
      .map(msg => ({ role: msg.role, content: msg.content,
                     timestamp: msg.timestamp }))] *)
Definition recentContext (conversation : Conversation) (recentLimit : option Z)
  : list ContextMessage :=
  let limit := match recentLimit with Some n => n | None => 5%Z end in
  map (fun msg => mkContextMessage (role msg) (content msg) (timestampOf msg))
      (sliceFrom (- limit)
         (filter (fun msg => negb (strictEqStr (role msg) (js "system")))
                 (messages conversation))).

(** [getRelevantContext(queryText, options = {})].  Modelled from the
    spec as far as the store goes: [Conversation.findOne] is one database
    operation returning the first stored conversation the filter
    accepts.  Whatever is thrown inside is caught, logged, and answered
    with the empty array. *)
Definition getRelevantContext (queryText : JsVal) (options : ContextOptions)
  : ContextState -> list ContextMessage * ContextState :=
  fun s =>
    if negb (truthy (ctxUserId options)) || negb (truthy (ctxConversationId options))
    then ([], s)
    else
      match dbOp rt (ctxWorld s) with
      | (inl error, w') =>
          ([], mkContextState w' (debugLog s)
                 (ctxErrorLog s ++ [(js "Error getting relevant context:", LogError error)]))
      | (inr _, w') =>
          match find (ownedAnyStatus (ctxConversationId options) (ctxUserId options))
                     (conversations w') with
          | None => ([], mkContextState w' (debugLog s) (ctxErrorLog s))
          | Some conversation =>
              let recentMessages := recentContext conversation (ctxRecentLimit options) in
              (recentMessages,
               mkContextState w'
                 (debugLog s
                  ++ [js "Retrieved "
                      ++ numberToString rt (floatOfNat (List.length recentMessages))
                      ++ js " recent messages for context"])
                 (ctxErrorLog s))
          end
      end.

(** [findSimilarContext(queryText, options = {})] *)
Definition findSimilarContext (queryText : JsVal) (options : ContextOptions)
  : ContextState -> list ContextMessage * ContextState :=
  getRelevantContext queryText options.

End Context.

(* ================================================================== *)
(** ** Vocabulary of the statements *)

(** The line feed. *)
Definition LF : jsstring := [10%N].

(** The reading of C3 the code is checked against: with intent [adjust]
    and a tone given, the prompt stops after the adjust clause and the
    document sentence. *)
Definition toneSentenceSkippedForAdjust (rt : Runtime) : Prop :=
  forall (intent : Props) (documentType tone : JsVal) (s : jsstring),
    strictEqStr (getOwn intent "type") (js "adjust") = true ->
    truthy tone = true ->
    prepareSystemMessage rt intent documentType tone = inr s ->
    exists t d,
      toStr rt tone = inr t /\ documentSentence rt documentType = inr d /\
      s = js "You are a legal document assistant. "
          ++ js "Rewrite the following text in a " ++ t
          ++ js " tone while maintaining its legal meaning." ++ d.

(** The world after one [Date.now()]. *)
Definition afterClockRead (w : World) : World :=
  mkWorld (conversations w) (providerCalls w) (warnings w) (dbOps w) (S (clockReads w)).

(** The world after [logger.warn(a, b)]. *)
Definition afterWarning (w : World) (a b : jsstring) : World :=
  mkWorld (conversations w) (providerCalls w) (warnings w ++ [(a, b)])
          (dbOps w) (clockReads w).

(** Two worlds with the same store and the same counters of the database
    and the clock: what a call to the adapter leaves unchanged. *)
Definition sameStore (w w' : World) : Prop :=
  conversations w' = conversations w /\ dbOps w' = dbOps w
  /\ clockReads w' = clockReads w.

(** A backend on which each of the three models fails, each for its own
    reason. *)
Definition failingScript : list (jsstring + jsstring) :=
  [inl (js "quota exceeded"); inl (js "deadline exceeded"); inl (js "model not found")].

(** The world after one database operation that changed nothing. *)
Definition afterDbOp (w : World) : World :=
  mkWorld (conversations w) (providerCalls w) (warnings w) (S (dbOps w)) (clockReads w).

(** The world after a successful [addMessage]: a lookup, then the save
    of [doc]. *)
Definition afterSave (w : World) (doc : Conversation) : World :=
  mkWorld (storeDoc doc (conversations w)) (providerCalls w) (warnings w)
          (S (S (dbOps w))) (clockReads w).

(** [metadata = {}] when the argument is omitted. *)
Definition defaultedMetadata (metadataArg : option Props) : Props :=
  match metadataArg with Some md => md | None => [] end.

(** The ids of the stored conversations. *)
Definition docIds (w : World) : list jsstring := map _id (conversations w).

(** Appending, one after the other, the messages of a list. *)
Fixpoint appendAll (rt : Runtime) (conversationId owner : JsVal) (msgs : list Message)
  : M unit :=
  match msgs with
  | [] => ret tt
  | m :: rest =>
      (addMessage rt conversationId owner (role m) (content m) (Some (metadata m)) ;;
       appendAll rt conversationId owner rest)%js
  end.

(** A message as [addMessage] stores it. *)
Definition asStored (m : Message) : Message :=
  mkMessage (role m) (content m) (withDefaultType (role m) (metadata m)).

(** The entry the specification expects for a stored turn: [model] for
    the assistant, [user] for the user. *)
Definition expectedEntry (m : Message) : HistoryEntry :=
  mkEntry (if strictEqStr (role m) (js "assistant") then VS "model" else VS "user")
          (content m).

(** A non-system message: a turn of the user or of the assistant. *)
Definition isTurn (m : Message) : Prop :=
  role m = VS "user" \/ role m = VS "assistant".

(** Three turns to append, two without a metadata type. *)
Definition threeTurns : list Message :=
  [mkMessage (VS "user") (VS "What is a lease?") [];
   mkMessage (VS "assistant") (VS "A lease is a contract.") [];
   mkMessage (VS "user") (VS "And a sublease?") [(js "type", VS "explain")]].

(** The world after one outbound call. *)
Definition afterCall (w : World) (c : ProviderCall) : World :=
  mkWorld (conversations w) (providerCalls w ++ [c]) (warnings w) (dbOps w) (clockReads w).

(** What the backend does with the [i]-th of the calls [calls], made one
    after the other on top of the calls [before]. *)
Definition answerAt (rt : Runtime) (before calls : list ProviderCall) (i : nat)
  : option (jsstring + jsstring) :=
  match nth_error calls i with
  | Some c => Some (provider rt (before ++ firstn i calls) c)
  | None => None
  end.

(** Each of the first [j] calls fails. *)
Definition failsBefore (rt : Runtime) (before calls : list ProviderCall) (j : nat) : Prop :=
  forall i, i < j -> exists msg, answerAt rt before calls i = Some (inl msg).

(** The [j]-th call is the first to be answered, with [text]. *)
Definition firstAnswer (rt : Runtime) (before calls : list ProviderCall) (j : nat)
           (text : jsstring) : Prop :=
  answerAt rt before calls j = Some (inr text) /\ failsBefore rt before calls j.

(** The call [generateWithGoogleAI] makes to a model. *)
Definition contentCall (prompt : JsVal) (options : GenOptions) (modelName : jsstring)
  : ProviderCall :=
  GenerateContent modelName [jsOr (systemPrompt options) defaultSystemPrompt; prompt].

(** The call [generateWithChatHistory] makes to a model. *)
Definition chatCall (prompt : JsVal) (history : list HistoryEntry) (options : GenOptions)
           (modelName : jsstring) : ProviderCall :=
  SendMessage modelName (jsOr (systemPrompt options) defaultSystemPrompt)
              (toChatTurns history) prompt.

(** The call [healthCheck] makes to a model. *)
Definition probeCall (modelName : jsstring) : ProviderCall :=
  GenerateContent modelName [VS "test"].

(** What a run of the fallback loop over [calls] leaves, for a result
    [r] computed from the answer by [f]. *)
Definition fallbackRun {A} (rt : Runtime) (f : jsstring -> A) (calls : list ProviderCall)
           (w : World) (r : Result A) (w' : World) : Prop :=
  sameStore w w'
  /\ match r with
     | inr x =>
         exists j text,
           firstAnswer rt (providerCalls w) calls j text
           /\ x = f text
           /\ providerCalls w' = providerCalls w ++ firstn (S j) calls
           /\ List.length (warnings w') = List.length (warnings w) + j
     | inl e =>
         e = allModelsFailed
         /\ failsBefore rt (providerCalls w) calls (List.length calls)
         /\ providerCalls w' = providerCalls w ++ calls
         /\ List.length (warnings w') = List.length (warnings w) + List.length calls
     end.


(** [n] calls of [getNextProvider] in a row: what they return, and the
    state they leave. *)
Fixpoint nextProviders (n : nat) (s : AdapterState) : list JsVal * AdapterState :=
  match n with
  | O => ([], s)
  | S k =>
      let (p, s1) := getNextProvider s in
      let (ps, s2) := nextProviders k s1 in
      (p :: ps, s2)
  end.

(** A string that does not start with white space. *)
Definition headClean (s : jsstring) : Prop :=
  match s with
  | [] => True
  | c :: _ => isWhiteSpace c = false
  end.

(** Sections numbered from [index + 1], from their titles and contents. *)
Fixpoint numbered (index : nat) (l : list (jsstring * jsstring)) : list JsVal :=
  match l with
  | [] => []
  | (title, content) :: rest =>
      sectionObject title content (index + 1) :: numbered (S index) rest
  end.



Definition sectionsOptions : ContentOptions :=
  mkContentOptions
    (mkOptions
       (VS "You are a legal expert. Generate comprehensive contract sections in JSON format.")
       (VNum 0.5) VUndefined)
    VUndefined.

(** [v] is what [generateContent] hands back for [prompt] from session
    [s]: a truthy value found in the cache, or the text the provider
    answered. *)
Definition servedFor (rt : Runtime) (cache : CacheService) (prompt : JsVal)
           (options : ContentOptions) (s : Session) (v : JsVal) : Prop :=
  (cacheLookup cache (cacheWrites s) prompt = inr v /\ truthy v = true)
  \/ (exists text,
         v = VStr text
         /\ fst (generateWithGoogleAI rt prompt (genOptions options) (world s)) = inr text).

(** From [w] to [w'] at most [n] outbound calls were added, after the
    ones made before. *)
Definition grows (n : nat) (w w' : World) : Prop :=
  exists calls,
    providerCalls w' = providerCalls w ++ calls /\ List.length calls <= n.

(** Nothing was read from or written to the database. *)
Definition sameDatabase (w w' : World) : Prop :=
  conversations w' = conversations w /\ dbOps w' = dbOps w.

(** Every run of [m] takes the world to one related to it by [R]. *)
Definition keeps {A} (R : World -> World -> Prop) (m : M A) : Prop :=
  forall w r w', m w = (r, w') -> R w w'.

(** An intent whose [type] and [confidence] are both truthy. *)
Definition wellFormedIntent (intent : Props) : Prop :=
  truthy (getOwn intent "type") = true /\ truthy (getOwn intent "confidence") = true.

(** The least number of code units a match of [r] takes. *)
Fixpoint minLen (r : Regex) : nat :=
  match r with
  | REmpty => 0
  | RChar _ => 1
  | RSeq a b => minLen a + minLen b
  | RAlt a b => Nat.min (minLen a) (minLen b)
  | ROpt _ => 0
  | RStar _ => 0
  end.

(** A continuation that, started after [n] code units with [s] left,
    answers between [n + lo] and [n + length s]. *)
Definition contBetween (lo : nat) (k : MatchCont) : Prop :=
  forall n s m, k n s = Some m -> n + lo <= m <= n + List.length s.

(** [x] occurs in [s]. *)
Definition substringOf (x s : jsstring) : Prop := exists before after, s = before ++ x ++ after.

(** The history item [addMessage(role, parts)] pushes reads as this turn;
    a system item gives none. *)
Definition turnOf (role parts : jsstring) : list ChatTurn :=
  if str_eqb role (js "system") then []
  else [mkTurn (if str_eqb role (js "user") then VS "user" else VS "model") (VStr parts)].

(** The callback of [content.map] in [convertBlockToText]. *)
Definition textPiece (numberToString : float -> jsstring)
           (repeatHash : JsVal -> Result jsstring) (item : JsVal) : Result JsVal :=
  match item with
  | VStr _ => inr item
  | _ =>
      if isObjectValue item then
        if strictEqStr (field item "type") (js "text") && truthy (field item "text")
        then inr (field item "text")
        else if truthy (field item "content") then
          match convertBlockToText numberToString repeatHash item with
          | inl e => inl e
          | inr s => inr (VStr s)
          end
        else inr (VStr [])
      else inr (VStr [])
  end.




(** The number of constructors of a value, the measure the converters
    recurse along. *)
Fixpoint valueSize (v : JsVal) : nat :=
  match v with
  | VArr elems =>
      S ((fix total (l : list JsVal) : nat :=
            match l with
            | [] => 0
            | e :: rest => valueSize e + total rest
            end) elems)
  | VObj props =>
      S ((fix total (l : list (jsstring * JsVal)) : nat :=
            match l with
            | [] => 0
            | (_, e) :: rest => valueSize e + total rest
            end) props)
  | _ => 1
  end.

(** An error a converter may throw: the [TypeError] of a value that has
    no string form, or whatever ['#'.repeat] threw. *)
Definition converterError (repeatHash : JsVal -> Result jsstring) (e : JsError) : Prop :=
  e = cannotConvert \/ exists level, repeatHash level = inl e.

(** The instruction of the [default] branch of the prompt builder. *)
Definition genericClause : jsstring :=
  js "Provide clear, accurate, and helpful legal information.".

(** The intent types the prompt builder has a branch for. *)
Definition knownPromptType (type : JsVal) : bool :=
  strictEqStr type (js "summarize") || strictEqStr type (js "explain")
  || strictEqStr type (js "analyze") || strictEqStr type (js "suggest")
  || strictEqStr type (js "adjust").

(** The clause of an intent when no tone is given, as the table of the
    prompt builder reads: one sentence for each of the five intent types
    ([adjust] with the default tone, formal) and the generic one for any
    other type. *)
Definition instructionWithoutTone (rt : Runtime) (intent : Props) : Result jsstring :=
  match getOwn intent "type" with
  | VStr type =>
      if str_eqb type (js "summarize") then
        inr (js "Summarize the following text in a clear and concise manner.")
      else if str_eqb type (js "explain") then
        inr (js "Explain the following legal terms and concepts in plain English.")
      else if str_eqb type (js "analyze") then
        inr (js "Analyze the following text for potential risks, missing clauses, and enforceability concerns.")
      else if str_eqb type (js "suggest") then
        match toStr rt (getOwn intent "clauseType") with
        | inl e => inl e
        | inr clauseType =>
            inr (js "Suggest appropriate " ++ clauseType
                 ++ js " clauses based on the following context.")
        end
      else if str_eqb type (js "adjust") then
        inr (js "Rewrite the following text in a formal tone while maintaining its legal meaning.")
      else inr genericClause
  | _ => inr genericClause
  end.

(** [d] is the context sentence of a document type: nothing for a falsy
    one, the sentence naming it otherwise. *)
Definition contextSentenceOf (rt : Runtime) (documentType : JsVal) (d : jsstring) : Prop :=
  if truthy documentType then
    exists name,
      toStr rt documentType = inr name
      /\ d = js " The context is about a " ++ name ++ js "."
  else d = [].

(** The turns the provider is sent for an entry of the history: none for
    a system entry, one with role [user] for a user entry, one with role
    [model] for an entry of any other role. *)
Definition turnFor (e : HistoryEntry) : list ChatTurn :=
  match entryRole e with
  | VStr r =>
      if str_eqb r (js "system") then []
      else if str_eqb r (js "user") then [mkTurn (VS "user") (entryParts e)]
      else [mkTurn (VS "model") (entryParts e)]
  | _ => [mkTurn (VS "model") (entryParts e)]
  end.

(** The call a model is expected to receive from
    [generateWithChatHistory]. *)
Definition expectedChatCall (prompt : JsVal) (history : list HistoryEntry)
           (options : GenOptions) (modelName : jsstring) : ProviderCall :=
  SendMessage modelName
              (if truthy (systemPrompt options) then systemPrompt options
               else defaultSystemPrompt)
              (flat_map turnFor history) prompt.

(** The entry of the provider history that answers to a stored message:
    same content, role [user] for the user, [model] for the assistant. *)
Definition entryAnswers (m : Message) (e : HistoryEntry) : Prop :=
  entryParts e = content m
  /\ (role m = VS "user" -> entryRole e = VS "user")
  /\ (role m = VS "assistant" -> entryRole e = VS "model").

(** A message that is not a system message. *)
Definition nonSystem (m : Message) : Prop :=
  strictEqStr (role m) (js "system") = false.

(** What [JSON.parse(response)] returns, [None] when it throws. *)
Definition parsedAsJson (rt : Runtime) (response : JsVal) : option JsVal :=
  match toStr rt response with
  | inr text =>
      match JSON_parse rt text with
      | inr v => Some v
      | inl _ => None
      end
  | inl _ => None
  end.

(* ================================================================== *)
(** ** Concrete runs

    A runtime for the closed examples: the backend answers from a script
    (its n-th call gets the n-th entry), one database operation may be
    made to fail, and [JSON.parse] knows the one document the examples
    send through it. *)

Module Demo.

Definition quoted (s : string) : jsstring := [34%N] ++ js s ++ [34%N].

(** The text [{"type":"adjust"}]. *)
Definition adjustJson : jsstring :=
  js "{" ++ quoted "type" ++ js ":" ++ quoted "adjust" ++ js "}".

Definition parse (text : jsstring) : jsstring + JsVal :=
  if str_eqb text adjustJson then inr (VObj [(js "type", VS "adjust")])
  else inl (js "Unexpected token in JSON").

(** Stands in for [Number.prototype.toString]; no run below prints a
    number. *)
Definition printNumber (x : float) : jsstring := js "NaN".

Definition scripted (script : list (jsstring + jsstring))
  : list ProviderCall -> ProviderCall -> jsstring + jsstring :=
  fun earlier _ => nth (List.length earlier) script (inl (js "script exhausted")).

Definition faultAt (failing : option nat) : nat -> option jsstring :=
  fun n =>
    match failing with
    | Some k => if Nat.eqb n k then Some (js "write failed") else None
    | None => None
    end.

Definition clock (n : nat) : float :=
  match n with O => 1000%float | _ => 1250%float end.

Definition runtime (script : list (jsstring + jsstring)) (failing : option nat) : Runtime :=
  mkRuntime printNumber parse true (scripted script) (faultAt failing) clock
            (fun _ => js "c1").

Definition emptyWorld : World := mkWorld [] [] [] 0 0.

(** A store holding one conversation of user [u1], with its seed
    message and one earlier exchange. *)
Definition c1 : Conversation :=
  mkConversation (js "c1") (VS "u1") (VS "Lease") (VStr []) (js "active")
    [seedMessage;
     mkMessage (VS "user") (VS "What is a lease?") [(js "type", VS "chat")];
     mkMessage (VS "assistant") (VS "A lease is a contract.") [(js "type", VS "chat")]].

Definition oneConversation : World := mkWorld [c1] [] [] 0 0.

(** The same store after the conversation was soft-deleted. *)
Definition deletedConversation : World :=
  mkWorld [mkConversation (js "c1") (VS "u1") (VS "Lease") (VStr []) (js "deleted")
                          (messages c1)] [] [] 0 0.

Definition inC1 (documentType tone : JsVal) : QueryOptions :=
  mkQueryOptions (VS "c1") (VS "u1") documentType tone.

Definition noConversation (documentType tone : JsVal) : QueryOptions :=
  mkQueryOptions VUndefined VUndefined documentType tone.

(** A deployment without an API key. *)
Definition unconfigured : Runtime :=
  mkRuntime printNumber parse false (scripted []) (faultAt None) clock
            (fun _ => js "c1").

Definition emptySession : Session := mkSession emptyWorld [] [] [].

(** ['#'.repeat(level)] for the levels 1 to 3, and the [RangeError] of
    the level -1; no run below has another level. *)
Definition hashes (level : JsVal) : Result jsstring :=
  match level with
  | VNum x =>
      if PrimFloat.eqb x 1 then inr (js "#")
      else if PrimFloat.eqb x 2 then inr (js "##")
      else if PrimFloat.eqb x 3 then inr (js "###")
      else if PrimFloat.eqb x (-1) then inl (Error (js "Invalid count value: -1"))
      else inr []
  | _ => inr []
  end.

(** [{ type, content: [' Hello ', { type: 'text', text: 'world ' }] }] *)
Definition greeting (type : string) : JsVal :=
  VObj [(js "type", VS type);
        (js "content",
         VArr [VS " Hello "; VObj [(js "type", VS "text"); (js "text", VS "world ")]])].

(** A cache that holds nothing and accepts every write. *)
Definition noCache : CacheService :=
  mkCacheService (fun _ _ => inr VNull) (fun _ _ => None).

End Demo.

(* ================================================================== *)
(** * Properties *)

Unset Implicit Arguments.

(** ** Strings and the response post-processor *)

Lemma str_eqb_eq (a b : jsstring) : str_eqb a b = true <-> a = b.
Proof.
  revert b; induction a as [| x a IH]; intros [| y b]; simpl; split;
    try reflexivity; try discriminate.
  - intros H. apply andb_true_iff in H as [Hx Hab].
    apply N.eqb_eq in Hx. apply IH in Hab. congruence.
  - intros H. injection H as -> ->. rewrite N.eqb_refl. simpl. now apply IH.
Qed.

Lemma str_eqb_refl (a : jsstring) : str_eqb a a = true.
Proof. now apply str_eqb_eq. Qed.

Lemma existsb_str_eqb (x : jsstring) (l : list jsstring) :
  existsb (str_eqb x) l = true <-> In x l.
Proof.
  rewrite existsb_exists. split.
  - intros [y [Hin Heq]]. apply str_eqb_eq in Heq. now subst.
  - intros Hin. exists x. split; [assumption | apply str_eqb_refl].
Qed.

Lemma setAdd_In (seen : list jsstring) (x y : jsstring) :
  In y (setAdd seen x) <-> In y seen \/ y = x.
Proof.
  unfold setAdd. destruct (existsb (str_eqb x) seen) eqn:E.
  - apply existsb_str_eqb in E. split; [now left | intros [H | ->]; assumption].
  - rewrite in_app_iff. simpl. intuition congruence.
Qed.

Lemma setAdd_NoDup (seen : list jsstring) (x : jsstring) :
  NoDup seen -> NoDup (setAdd seen x).
Proof.
  intros Hnd. unfold setAdd. destruct (existsb (str_eqb x) seen) eqn:E; [assumption |].
  assert (Hnot : ~ In x seen).
  { intros Hin. apply existsb_str_eqb in Hin. congruence. }
  clear E. induction Hnd as [| y l Hy Hl IH]; simpl.
  - constructor; [intros [] | constructor].
  - constructor.
    + rewrite in_app_iff. simpl. intros [H | [H | []]]; [contradiction |].
      subst. apply Hnot. now left.
    + apply IH. intros H. apply Hnot. now right.
Qed.

Lemma fold_setAdd_NoDup (l seen : list jsstring) :
  NoDup seen -> NoDup (fold_left setAdd l seen).
Proof.
  revert seen; induction l as [| x l IH]; intros seen Hnd; simpl; [assumption |].
  apply IH. now apply setAdd_NoDup.
Qed.

Lemma fold_setAdd_In (l seen : list jsstring) (y : jsstring) :
  In y (fold_left setAdd l seen) <-> In y seen \/ In y l.
Proof.
  revert seen; induction l as [| x l IH]; intros seen; simpl; [intuition |].
  rewrite IH, setAdd_In. intuition congruence.
Qed.

Lemma uniqueStrings_NoDup (l : list jsstring) : NoDup (uniqueStrings l).
Proof. apply fold_setAdd_NoDup. constructor. Qed.

Lemma uniqueStrings_In (l : list jsstring) (y : jsstring) :
  In y (uniqueStrings l) <-> In y l.
Proof. unfold uniqueStrings. rewrite fold_setAdd_In. simpl. intuition. Qed.

Lemma notText_not_string (text : JsVal) : isString text = false -> notText text = true.
Proof. intros H. unfold notText. rewrite H. simpl. apply orb_true_r. Qed.

Lemma scanVerbs_spec (line : jsstring) (verbs suggestions : list jsstring) :
  scanVerbs line verbs suggestions =
  suggestions ++ (if existsb (startsWith (trim line)) verbs then [trim line] else []).
Proof.
  induction verbs as [| verb rest IH]; simpl.
  - now rewrite app_nil_r.
  - destruct (startsWith (trim line) verb); simpl; [reflexivity | exact IH].
Qed.

Lemma fold_scanVerbs (verbs lines suggestions : list jsstring) :
  fold_left (fun acc line => scanVerbs line verbs acc) lines suggestions =
  suggestions ++
  map trim (filter (fun line => existsb (startsWith (trim line)) verbs) lines).
Proof.
  revert suggestions; induction lines as [| line lines IH]; intros suggestions; simpl.
  - now rewrite app_nil_r.
  - rewrite IH, scanVerbs_spec.
    destruct (existsb (startsWith (trim line)) verbs); simpl.
    + now rewrite <- app_assoc.
    + now rewrite app_nil_r.
Qed.

Example split_line_breaks :
  split lineBreak (js "a" ++ [13%N; 10%N] ++ js "b" ++ LF ++ js "c" ++ [13%N] ++ js "d" ++ LF)
  = [js "a"; js "b"; js "c" ++ [13%N] ++ js "d"; []].
Proof. vm_compute. reflexivity. Qed.

Example trim_unicode_space :
  trim ([160%N; 9%N] ++ js " Review clause 4. " ++ [8232%N]) = js "Review clause 4.".
Proof. vm_compute. reflexivity. Qed.

Example extractReferences_section_and_case :
  extractReferences
    (VS "See Section 12 of the Contract Act and Smith v. Jones. Again: Smith v. Jones.")
  = [js "Section 12 of the Contract Act"; js "Smith v. Jones"; js "Contract Act"].
Proof. vm_compute. reflexivity. Qed.

(** C8.  [extractSuggestions] splits the text at line breaks and returns,
    trimmed and in their original order, exactly the lines that after
    trimming start with one of the eleven action verbs, each of them once;
    on "Consider revising.\nThe sky is blue.\nReview clause 4." the result
    is ["Consider revising."; "Review clause 4."]. *)
Theorem extractSuggestions_qualifying_lines :
  (forall s : jsstring,
      extractSuggestions (VStr s) =
      map trim
          (filter (fun line => existsb (startsWith (trim line)) actionVerbs)
                  (split lineBreak s)))
  /\ List.length actionVerbs = 11
  /\ extractSuggestions
       (VStr (js "Consider revising." ++ LF ++ js "The sky is blue." ++ LF
              ++ js "Review clause 4."))
     = [js "Consider revising."; js "Review clause 4."].
Proof.
  split; [| split; [reflexivity | vm_compute; reflexivity]].
  intros s. unfold extractSuggestions.
  destruct s as [| c s'].
  - vm_compute. reflexivity.
  - replace (notText (VStr (c :: s'))) with false by reflexivity.
    cbv beta zeta. unfold stringOf. apply (fold_scanVerbs actionVerbs).
Qed.

(** C9.  The references returned never hold the same string twice, they
    are exactly the strings matched by one of the three patterns, and both
    extraction passes return the empty list on anything that is not a
    string ([null] and [undefined] included). *)
Theorem extractReferences_no_duplicates :
  forall text : JsVal,
    NoDup (extractReferences text)
    /\ (forall x, In x (extractReferences text) <->
                  notText text = false /\
                  In x (matchAll sectionRegex (stringOf text)
                        ++ matchAll caseRegex (stringOf text)
                        ++ matchAll actRegex (stringOf text)))
    /\ (isString text = false ->
        extractReferences text = [] /\ extractSuggestions text = []).
Proof.
  intros text. unfold extractReferences, extractSuggestions.
  destruct (notText text) eqn:E.
  - split; [constructor |]. split.
    + intros x. simpl. split; [intros [] | intros [H _]; discriminate].
    + intros _. split; reflexivity.
  - cbv zeta. split; [apply uniqueStrings_NoDup |]. split.
    + intros x. rewrite uniqueStrings_In. intuition.
    + intros H. apply notText_not_string in H. congruence.
Qed.

Lemma extractReferences_no_duplicates_witness :
  isString VNull = false
  /\ extractReferences VNull = [] /\ extractSuggestions VNull = []
  /\ extractReferences (VNum 7) = [] /\ extractSuggestions (VNum 7) = [].
Proof.
  split; [reflexivity |].
  destruct (extractReferences_no_duplicates VNull) as [_ [_ H]].
  destruct (H eq_refl) as [H1 H2].
  destruct (extractReferences_no_duplicates (VNum 7)) as [_ [_ H']].
  destruct (H' eq_refl) as [H3 H4].
  repeat split; assumption.
Defined.

(* ================================================================== *)
(** ** The system-prompt builder *)

Lemma strictEqStr_true (v : JsVal) (s : jsstring) :
  strictEqStr v s = true -> v = VStr s.
Proof.
  destruct v; simpl; try discriminate. intros H. apply str_eqb_eq in H. now subst.
Qed.

Lemma intentClause_other_tone (rt : Runtime) (intent : Props) (tone tone' : JsVal) :
  strictEqStr (getOwn intent "type") (js "adjust") = false ->
  intentClause rt intent tone = intentClause rt intent tone'.
Proof.
  intros H. unfold intentClause. rewrite H. reflexivity.
Qed.

Lemma intentClause_adjust (rt : Runtime) (intent : Props) (tone : JsVal) :
  strictEqStr (getOwn intent "type") (js "adjust") = true ->
  intentClause rt intent tone =
  match toStr rt (jsOr tone (VS "formal")) with
  | inl e => inl e
  | inr t =>
      inr (js "Rewrite the following text in a " ++ t
           ++ js " tone while maintaining its legal meaning.")
  end.
Proof.
  intros H. apply strictEqStr_true in H. unfold intentClause. rewrite H. reflexivity.
Qed.

Lemma toneSentence_falsy (rt : Runtime) (tone : JsVal) :
  truthy tone = false -> toneSentence rt tone = inr [].
Proof. intros H. unfold toneSentence. now rewrite H. Qed.

(** C3, as stated, fails: for [{type: 'adjust'}] and tone ['casual'] the
    tone sentence follows the adjust clause. *)
Lemma adjust_prompt_repeats_tone :
  prepareSystemMessage (Demo.runtime [] None) [(js "type", VS "adjust")] VUndefined
                       (VS "casual")
  = inr (js "You are a legal document assistant. Rewrite the following text in a casual tone while maintaining its legal meaning."
         ++ js " Use a casual tone in your response.")
  /\ ~ toneSentenceSkippedForAdjust (Demo.runtime [] None).
Proof.
  split; [vm_compute; reflexivity |].
  intros H.
  destruct (H [(js "type", VS "adjust")] VUndefined (VS "casual") _
              eq_refl eq_refl eq_refl) as [t [d [Ht [Hd Hs]]]].
  vm_compute in Ht. injection Ht as <-.
  vm_compute in Hd. injection Hd as <-.
  vm_compute in Hs. discriminate Hs.
Qed.

(** The prompt for [{type: 'adjust'}] and tone ['casual'] names the
    casual tone and not the formal one, and ends with the tone
    sentence. *)
Example adjust_prompt_names_casual_tone :
  exists s,
    prepareSystemMessage (Demo.runtime [] None) [(js "type", VS "adjust")] VUndefined
                         (VS "casual") = inr s
    /\ includes s (js "casual tone") = true
    /\ includes s (js "formal tone") = false
    /\ endsWith s (js " Use a casual tone in your response.") = true.
Proof. eexists. split; [vm_compute; reflexivity |]. vm_compute. repeat split. Qed.

Lemma intentClause_without_tone (rt : Runtime) (intent : Props) (tone : JsVal) :
  truthy tone = false ->
  intentClause rt intent tone = instructionWithoutTone rt intent.
Proof.
  intros Htone. unfold intentClause, instructionWithoutTone, jsOr. rewrite Htone.
  cbv zeta.
  destruct (getOwn intent "type") as [| | | | type | | |]; reflexivity.
Qed.

Lemma documentSentence_context (rt : Runtime) (documentType : JsVal) (d : jsstring) :
  documentSentence rt documentType = inr d -> contextSentenceOf rt documentType d.
Proof.
  unfold documentSentence, contextSentenceOf.
  destruct (truthy documentType).
  - destruct (toStr rt documentType) as [e | name]; [discriminate |].
    intros H. injection H as <-. now exists name.
  - intros H. now injection H.
Qed.

(** C3, amended.  The tone sentence is appended exactly when a tone is
    given, whatever the intent: with a tone, the prompt is a body followed
    by " Use a <tone> tone in your response.", where the body is the
    prompt built without a tone for every intent but [adjust], and for
    [adjust] the base instruction, the adjust clause naming the tone and
    the document sentence; without a tone, the prompt is the one built
    for an absent tone, and that prompt is the base instruction, the
    clause of the intent and the context sentence, with nothing after
    them. *)
Theorem prepareSystemMessage_tone_sentence :
  forall (rt : Runtime) (intent : Props) (documentType tone : JsVal) (s : jsstring),
    prepareSystemMessage rt intent documentType tone = inr s ->
    (truthy tone = true ->
     exists body t,
       toStr rt tone = inr t
       /\ s = body ++ js " Use a " ++ t ++ js " tone in your response."
       /\ (strictEqStr (getOwn intent "type") (js "adjust") = true ->
           exists d,
             documentSentence rt documentType = inr d
             /\ body = js "You are a legal document assistant. "
                       ++ (js "Rewrite the following text in a " ++ t
                           ++ js " tone while maintaining its legal meaning.")
                       ++ d)
       /\ (strictEqStr (getOwn intent "type") (js "adjust") = false ->
           prepareSystemMessage rt intent documentType VUndefined = inr body))
    /\ (truthy tone = false ->
        prepareSystemMessage rt intent documentType VUndefined = inr s
        /\ exists clause d,
            instructionWithoutTone rt intent = inr clause
            /\ contextSentenceOf rt documentType d
            /\ s = js "You are a legal document assistant. " ++ clause ++ d).
Proof.
  intros rt intent documentType tone s Hs. split; intros Htone.
  - unfold prepareSystemMessage in Hs.
    destruct (intentClause rt intent tone) as [e | clause] eqn:Hclause; [discriminate |].
    destruct (documentSentence rt documentType) as [e | d] eqn:Hdoc; [discriminate |].
    unfold toneSentence in Hs. rewrite Htone in Hs.
    destruct (toStr rt tone) as [e | t] eqn:Ht; [discriminate |].
    injection Hs as <-.
    exists ((js "You are a legal document assistant. " ++ clause) ++ d), t.
    split; [reflexivity |]. split; [reflexivity |]. split; intros Hadj.
    + exists d. split; [reflexivity |].
      rewrite (intentClause_adjust rt intent tone Hadj) in Hclause.
      unfold jsOr in Hclause. rewrite Htone, Ht in Hclause.
      injection Hclause as <-. reflexivity.
    + unfold prepareSystemMessage.
      rewrite <- (intentClause_other_tone rt intent tone VUndefined Hadj), Hclause.
      rewrite Hdoc. simpl. now rewrite app_nil_r.
  - split.
    + unfold prepareSystemMessage in *.
      assert (Hc : intentClause rt intent tone = intentClause rt intent VUndefined).
      { unfold intentClause, jsOr. rewrite Htone. reflexivity. }
      rewrite <- Hc, (toneSentence_falsy rt tone Htone) in *.
      exact Hs.
    + unfold prepareSystemMessage in Hs.
      rewrite (intentClause_without_tone rt intent tone Htone) in Hs.
      destruct (instructionWithoutTone rt intent) as [e | clause]; [discriminate |].
      destruct (documentSentence rt documentType) as [e | d] eqn:Hdoc; [discriminate |].
      rewrite (toneSentence_falsy rt tone Htone) in Hs.
      injection Hs as <-. exists clause, d.
      split; [reflexivity |]. split; [exact (documentSentence_context _ _ _ Hdoc) |].
      rewrite app_nil_r. reflexivity.
Qed.

Lemma prepareSystemMessage_tone_sentence_witness :
  (exists body t,
      toStr (Demo.runtime [] None) (VS "casual") = inr t
      /\ js "You are a legal document assistant. Rewrite the following text in a casual tone while maintaining its legal meaning. Use a casual tone in your response."
         = body ++ js " Use a " ++ t ++ js " tone in your response.")
  /\ prepareSystemMessage (Demo.runtime [] None) [(js "type", VS "explain")]
                          (VS "lease") VUndefined
     = inr (js "You are a legal document assistant. Explain the following legal terms and concepts in plain English. The context is about a lease.")
  /\ (exists clause d,
         instructionWithoutTone (Demo.runtime [] None) [(js "type", VS "adjust")]
         = inr clause
         /\ contextSentenceOf (Demo.runtime [] None) VUndefined d
         /\ js "You are a legal document assistant. Rewrite the following text in a formal tone while maintaining its legal meaning."
            = js "You are a legal document assistant. " ++ clause ++ d).
Proof.
  split; [| split].
  - destruct (prepareSystemMessage_tone_sentence
                (Demo.runtime [] None) [(js "type", VS "adjust")] VUndefined (VS "casual")
                _ eq_refl) as [H _].
    destruct (H eq_refl) as [body [t [Ht [Hs _]]]].
    exists body, t. split; [exact Ht | exact Hs].
  - destruct (prepareSystemMessage_tone_sentence
                (Demo.runtime [] None) [(js "type", VS "explain")] (VS "lease") (VStr [])
                _ eq_refl) as [_ H].
    exact (proj1 (H eq_refl)).
  - destruct (prepareSystemMessage_tone_sentence
                (Demo.runtime [] None) [(js "type", VS "adjust")] VUndefined VNull
                _ eq_refl) as [_ H].
    exact (proj2 (H eq_refl)).
Defined.

(** Without a tone the prompt of an [adjust] intent stops after the
    adjust clause, which names the formal tone. *)
Example adjust_prompt_without_tone :
  prepareSystemMessage (Demo.runtime [] None) [(js "type", VS "adjust")] VUndefined
                       VUndefined
  = inr (js "You are a legal document assistant. Rewrite the following text in a formal tone while maintaining its legal meaning.").
Proof. vm_compute. reflexivity. Qed.

(* ================================================================== *)
(** ** Running the monad *)

Arguments js : simpl never.

Lemma bind_inr {A B} (m : M A) (k : A -> M B) (w w' : World) (x : A) :
  m w = (inr x, w') -> bind m k w = k x w'.
Proof. intros H. unfold bind. now rewrite H. Qed.

Lemma bind_inl {A B} (m : M A) (k : A -> M B) (w w' : World) (e : JsError) :
  m w = (inl e, w') -> bind m k w = (inl e, w').
Proof. intros H. unfold bind. now rewrite H. Qed.

Lemma tryCatch_inr {A} (m : M A) (h : JsError -> M A) (w w' : World) (x : A) :
  m w = (inr x, w') -> tryCatch m h w = (inr x, w').
Proof. intros H. unfold tryCatch. now rewrite H. Qed.

Lemma tryCatch_inl {A} (m : M A) (h : JsError -> M A) (w w' : World) (e : JsError) :
  m w = (inl e, w') -> tryCatch m h w = h e w'.
Proof. intros H. unfold tryCatch. now rewrite H. Qed.

(** A method that ends with the shared catch block throws nothing but
    [APIError]s. *)
Lemma rethrowOrWrap_APIError {A} (prefix : string) (error e : JsError) (w w' : World)
      (r : Result A) :
  rethrowOrWrap prefix error w = (r, w') -> r = inl e -> isAPIError e = true.
Proof.
  unfold rethrowOrWrap, throw. destruct (isAPIError error) eqn:E; intros H Hr; subst r.
  - injection H as <- _. exact E.
  - injection H as <- _. reflexivity.
Qed.

Lemma rethrowOrWrap_passes {A} (prefix : string) (error : JsError) (w : World) :
  isAPIError error = true ->
  @rethrowOrWrap A prefix error w = (inl error, w).
Proof. intros H. unfold rethrowOrWrap. now rewrite H. Qed.

(* ================================================================== *)
(** ** The query orchestrator: validation *)

(** C7.  An empty or absent message (any falsy value) makes
    [processLegalQuery] fail with the 400 error "Message is required",
    whatever the options, and no call to the provider has been made: the
    record of outbound calls is the one the request started with. *)
Theorem processLegalQuery_rejects_empty_message :
  forall (rt : Runtime) (message : JsVal) (options : QueryOptions) (w : World),
    truthy message = false ->
    exists w',
      processLegalQuery rt message options w
      = (inl (newAPIError (js "Message is required") httpStatus.BAD_REQUEST), w')
      /\ isValidationError (newAPIError (js "Message is required") httpStatus.BAD_REQUEST)
         = true
      /\ providerCalls w' = providerCalls w
      /\ conversations w' = conversations w.
Proof.
  intros rt message options w Hfalsy.
  exists (afterClockRead w).
  split; [| repeat split].
  unfold processLegalQuery, bind, dateNow, tryCatch, answerQuery.
  rewrite Hfalsy. reflexivity.
Qed.

Lemma processLegalQuery_rejects_empty_message_witness :
  truthy (VStr []) = false
  /\ fst (processLegalQuery (Demo.runtime [inr (js "unused")] None) (VStr [])
                            (Demo.inC1 (VS "lease") (VS "casual")) Demo.oneConversation)
     = inl (newAPIError (js "Message is required") 400)
  /\ fst (processLegalQuery (Demo.runtime [inr (js "unused")] None) VUndefined
                            (Demo.noConversation VUndefined VUndefined) Demo.emptyWorld)
     = inl (newAPIError (js "Message is required") 400).
Proof.
  split; [reflexivity |]. split.
  - destruct (processLegalQuery_rejects_empty_message
                (Demo.runtime [inr (js "unused")] None) (VStr [])
                (Demo.inC1 (VS "lease") (VS "casual")) Demo.oneConversation eq_refl)
      as [w' [H _]].
    rewrite H. reflexivity.
  - destruct (processLegalQuery_rejects_empty_message
                (Demo.runtime [inr (js "unused")] None) VUndefined
                (Demo.noConversation VUndefined VUndefined) Demo.emptyWorld eq_refl)
      as [w' [H _]].
    rewrite H. reflexivity.
Defined.

(* ================================================================== *)
(** ** The provider adapter: fallback over the model list *)

(** One step of the loop: the first model's answer if it gives one,
    otherwise a warning and the rest of the list. *)
Lemma tryModels_step {A} (attempt : jsstring -> M A)
      (modelName : jsstring) (rest : list jsstring) (w : World) :
  tryModels attempt (modelName :: rest) w =
  match attempt modelName w with
  | (inr x, w') => (inr x, w')
  | (inl error, w') =>
      tryModels attempt rest
        (afterWarning w' (js "Google AI model " ++ modelName ++ js " failed:")
                      (messageOf error))
  end.
Proof.
  simpl. unfold tryCatch.
  destruct (attempt modelName w) as [[error | x] w']; reflexivity.
Qed.

(** Whatever made the models fail, the loop throws the same fixed
    error. *)
Lemma tryModels_throws_fixed_error {A} (attempt : jsstring -> M A)
      (names : list jsstring) :
  forall (w w' : World) (e : JsError),
    tryModels attempt names w = (inl e, w') -> e = allModelsFailed.
Proof.
  induction names as [| modelName rest IH]; intros w w' e H.
  - simpl in H. unfold throw in H. now injection H as <- _.
  - rewrite tryModels_step in H.
    destruct (attempt modelName w) as [[error | x] w1]; [| discriminate].
    exact (IH _ _ _ H).
Qed.

(** A result of the loop is a result of one of the attempts. *)
Lemma tryModels_result {A} (attempt : jsstring -> M A)
      (names : list jsstring) (P : A -> Prop) :
  (forall modelName w x w', attempt modelName w = (inr x, w') -> P x) ->
  forall (w w' : World) (x : A),
    tryModels attempt names w = (inr x, w') -> P x.
Proof.
  intros Hattempt. induction names as [| modelName rest IH]; intros w w' x H.
  - simpl in H. discriminate.
  - rewrite tryModels_step in H.
    destruct (attempt modelName w) as [[error | y] w1] eqn:E.
    + exact (IH _ _ _ H).
    + injection H as <- <-. exact (Hattempt _ _ _ _ E).
Qed.

Lemma sameStore_refl (w : World) : sameStore w w.
Proof. repeat split. Qed.

Lemma sameStore_trans (w1 w2 w3 : World) :
  sameStore w1 w2 -> sameStore w2 w3 -> sameStore w1 w3.
Proof. unfold sameStore. intuition congruence. Qed.

Lemma callProvider_sameStore (rt : Runtime) (c : ProviderCall) (w w' : World)
      (r : Result jsstring) :
  callProvider rt c w = (r, w') -> sameStore w w'.
Proof.
  unfold callProvider. destruct (provider rt (providerCalls w) c);
    intros H; injection H as _ <-; repeat split.
Qed.

Lemma tryModels_sameStore {A} (attempt : jsstring -> M A)
      (names : list jsstring) :
  (forall modelName w r w', attempt modelName w = (r, w') -> sameStore w w') ->
  forall (w w' : World) (r : Result A),
    tryModels attempt names w = (r, w') -> sameStore w w'.
Proof.
  intros Hattempt. induction names as [| modelName rest IH]; intros w w' r H.
  - simpl in H. unfold throw in H. injection H as _ <-. apply sameStore_refl.
  - rewrite tryModels_step in H.
    destruct (attempt modelName w) as [[error | y] w1] eqn:E.
    + apply Hattempt in E. apply IH in H.
      eapply sameStore_trans; [exact E |].
      eapply sameStore_trans; [| exact H]. repeat split.
    + injection H as _ <-. exact (Hattempt _ _ _ _ E).
Qed.

(** C2.  When every model has failed, both generation methods throw the
    fixed error "All Google AI models failed": whatever the models threw
    is logged as a warning and is not part of what the caller gets.  With
    the three models failing for three different reasons, the models are
    tried once each, in the order of the list, and the error thrown
    mentions none of the reasons. *)
Theorem generation_failure_drops_last_error :
  (forall (rt : Runtime) (prompt : JsVal) (options : GenOptions) (w w' : World)
          (e : JsError),
      googleConfigured rt = true ->
      generateWithGoogleAI rt prompt options w = (inl e, w') ->
      e = Error (js "All Google AI models failed"))
  /\ (forall (rt : Runtime) (prompt : JsVal) (history : list HistoryEntry)
             (options : GenOptions) (w w' : World) (e : JsError),
         googleConfigured rt = true ->
         generateWithChatHistory rt prompt history options w = (inl e, w') ->
         e = Error (js "All Google AI models failed"))
  /\ (let run := generateWithGoogleAI (Demo.runtime failingScript None)
                   (VS "Draft an NDA") (mkOptions VUndefined VUndefined VUndefined)
                   Demo.emptyWorld in
      fst run = inl (Error (js "All Google AI models failed"))
      /\ map callModel (providerCalls (snd run)) = modelNames
      /\ map snd (warnings (snd run))
         = [js "quota exceeded"; js "deadline exceeded"; js "model not found"]).
Proof.
  split; [| split].
  - intros rt prompt options w w' e Hcfg H.
    unfold generateWithGoogleAI in H. rewrite Hcfg in H. simpl negb in H. cbv iota in H.
    exact (tryModels_throws_fixed_error _ _ _ _ _ H).
  - intros rt prompt history options w w' e Hcfg H.
    unfold generateWithChatHistory in H. rewrite Hcfg in H. simpl negb in H. cbv iota in H.
    exact (tryModels_throws_fixed_error _ _ _ _ _ H).
  - vm_compute. repeat split.
Qed.

Lemma generation_failure_drops_last_error_witness :
  googleConfigured (Demo.runtime failingScript None) = true
  /\ fst (generateWithChatHistory (Demo.runtime failingScript None) (VS "Draft an NDA")
            [mkEntry (VS "user") (VS "Hello")] (mkOptions VUndefined VUndefined VUndefined)
            Demo.emptyWorld)
     = inl (Error (js "All Google AI models failed")).
Proof.
  split; [reflexivity |].
  destruct (generateWithChatHistory (Demo.runtime failingScript None) (VS "Draft an NDA")
              [mkEntry (VS "user") (VS "Hello")] (mkOptions VUndefined VUndefined VUndefined)
              Demo.emptyWorld) as [[e | r] w'] eqn:Hrun.
  - destruct generation_failure_drops_last_error as [_ [H _]].
    simpl. f_equal.
    exact (H (Demo.runtime failingScript None) (VS "Draft an NDA")
             [mkEntry (VS "user") (VS "Hello")] (mkOptions VUndefined VUndefined VUndefined)
             Demo.emptyWorld w' e eq_refl Hrun).
  - vm_compute in Hrun. discriminate Hrun.
Defined.

(** The adapter has no side effect beyond its outbound calls and the
    warnings it logs. *)
Lemma generateWithGoogleAI_sameStore (rt : Runtime) (prompt : JsVal)
      (options : GenOptions) (w w' : World) (r : Result jsstring) :
  generateWithGoogleAI rt prompt options w = (r, w') -> sameStore w w'.
Proof.
  unfold generateWithGoogleAI. destruct (negb (googleConfigured rt)).
  - unfold throw. intros H. injection H as _ <-. apply sameStore_refl.
  - apply tryModels_sameStore. intros modelName w0 r0 w0'. apply callProvider_sameStore.
Qed.

(** The fallback itself works as the specification says: with the first
    two models failing and the third answering, the third model's text is
    returned, after one call to each model in the order of the list. *)
Example generateWithGoogleAI_third_model_answers :
  let run := generateWithGoogleAI
               (Demo.runtime [inl (js "quota exceeded"); inl (js "deadline exceeded");
                              inr (js "Here is your NDA.")] None)
               (VS "Draft an NDA") (mkOptions VUndefined VUndefined VUndefined)
               Demo.emptyWorld in
  fst run = inr (js "Here is your NDA.")
  /\ map callModel (providerCalls (snd run)) = modelNames.
Proof. vm_compute. split; reflexivity. Qed.

(* ================================================================== *)
(** ** The intent classifier *)

Ltac case_lookups :=
  repeat match goal with
         | |- context [lookup ?k ?p] => destruct (lookup k p)
         end.

Lemma analyzeIntent_returns (rt : Runtime) (message : JsVal) (w : World) :
  exists intent w', analyzeIntent rt message w = (inr intent, w').
Proof.
  unfold analyzeIntent.
  destruct (generateWithGoogleAI rt message classifierOptions w)
    as [[e | responseText] w1] eqn:Hgen.
  - rewrite (tryCatch_inl _ _ _ _ _ (bind_inl _ _ _ _ _ Hgen)).
    exists defaultIntent, w1. reflexivity.
  - unfold tryCatch at 1. rewrite (bind_inr _ _ _ _ _ Hgen).
    unfold bind, tryCatch, jsonParse, lift, ret, throw.
    destruct (JSON_parse rt responseText) as [m | result].
    + destruct (firstMatch braceRegex responseText) as [jsonMatch |]; [| eauto].
      destruct (JSON_parse rt jsonMatch) as [m' | result]; [eauto |].
      destruct result; simpl; case_lookups; eauto.
    + destruct result; simpl; case_lookups; eauto.
Qed.

(** C5.  [analyzeIntent] always returns an intent and never throws.  It
    returns the default intent [{type: 'general', confidence: 0.95}] when
    the provider call fails, and when the response is not JSON and either
    holds no brace-delimited substring or one that is not JSON either.
    When the response parses to an object without a [confidence], the
    intent returned has confidence 0.95. *)
Theorem analyzeIntent_never_throws :
  forall (rt : Runtime) (message : JsVal) (w : World),
    (exists intent w', analyzeIntent rt message w = (inr intent, w'))
    /\ (forall e w',
           generateWithGoogleAI rt message classifierOptions w = (inl e, w') ->
           analyzeIntent rt message w = (inr defaultIntent, w'))
    /\ (forall responseText w' m,
           generateWithGoogleAI rt message classifierOptions w = (inr responseText, w') ->
           JSON_parse rt responseText = inl m ->
           (firstMatch braceRegex responseText = None
            \/ exists jsonMatch m',
                firstMatch braceRegex responseText = Some jsonMatch
                /\ JSON_parse rt jsonMatch = inl m') ->
           analyzeIntent rt message w = (inr defaultIntent, w'))
    /\ (forall responseText w' props,
           generateWithGoogleAI rt message classifierOptions w = (inr responseText, w') ->
           (JSON_parse rt responseText = inr (VObj props)
            \/ exists m jsonMatch,
                JSON_parse rt responseText = inl m
                /\ firstMatch braceRegex responseText = Some jsonMatch
                /\ JSON_parse rt jsonMatch = inr (VObj props)) ->
           lookup (js "confidence") props = None ->
           analyzeIntent rt message w
           = (inr [(js "type", jsOr (getOwn props "type") (VS "general"));
                   (js "clauseType", getOwn props "clauseType");
                   (js "confidence", VNum 0.95)], w')).
Proof.
  intros rt message w. split; [apply analyzeIntent_returns |].
  unfold analyzeIntent. split; [| split].
  - (* the provider call failed *)
    intros e w' Hgen.
    now rewrite (tryCatch_inl _ _ _ _ _ (bind_inl _ _ _ _ _ Hgen)).
  - (* neither the response nor its brace-delimited part is JSON *)
    intros responseText w' m Hgen Hparse Hbrace.
    unfold tryCatch at 1. rewrite (bind_inr _ _ _ _ _ Hgen).
    unfold bind, tryCatch, jsonParse, lift, ret, throw. rewrite Hparse.
    destruct Hbrace as [Hnone | [jsonMatch [m' [Hsome Hparse']]]].
    + now rewrite Hnone.
    + now rewrite Hsome, Hparse'.
  - (* an object without confidence *)
    intros responseText w' props Hgen Hparsed Hconf.
    unfold tryCatch at 1. rewrite (bind_inr _ _ _ _ _ Hgen).
    unfold bind, tryCatch, jsonParse, lift, ret, throw.
    destruct Hparsed as [Hparse | [m [jsonMatch [Hparse [Hsome Hparse']]]]].
    + rewrite Hparse. unfold getProp, getOwn. rewrite Hconf.
      destruct (lookup (js "type") props), (lookup (js "clauseType") props);
        reflexivity.
    + rewrite Hparse, Hsome, Hparse'. unfold getProp, getOwn. rewrite Hconf.
      destruct (lookup (js "type") props), (lookup (js "clauseType") props);
        reflexivity.
Qed.

Lemma analyzeIntent_never_throws_witness :
  fst (analyzeIntent (Demo.runtime failingScript None) (VS "Is this lease valid?")
                     Demo.emptyWorld)
  = inr [(js "type", VS "general"); (js "confidence", VNum 0.95)]
  /\ fst (analyzeIntent (Demo.runtime [inr (js "I cannot classify this.")] None)
                        (VS "Is this lease valid?") Demo.emptyWorld)
     = inr [(js "type", VS "general"); (js "confidence", VNum 0.95)]
  /\ fst (analyzeIntent (Demo.runtime [inr (js "Sure: " ++ Demo.adjustJson)] None)
                        (VS "Make it friendlier") Demo.emptyWorld)
     = inr [(js "type", VS "adjust"); (js "clauseType", VUndefined);
            (js "confidence", VNum 0.95)].
Proof.
  split; [| split].
  - destruct (analyzeIntent_never_throws (Demo.runtime failingScript None)
                (VS "Is this lease valid?") Demo.emptyWorld) as [_ [H _]].
    erewrite H; [reflexivity | vm_compute; reflexivity].
  - destruct (analyzeIntent_never_throws
                (Demo.runtime [inr (js "I cannot classify this.")] None)
                (VS "Is this lease valid?") Demo.emptyWorld) as [_ [_ [H _]]].
    erewrite H; [reflexivity | vm_compute; reflexivity | vm_compute; reflexivity |].
    left. vm_compute. reflexivity.
  - destruct (analyzeIntent_never_throws
                (Demo.runtime [inr (js "Sure: " ++ Demo.adjustJson)] None)
                (VS "Make it friendlier") Demo.emptyWorld) as [_ [_ [_ H]]].
    erewrite (H _ _ [(js "type", VS "adjust")]);
      [reflexivity | vm_compute; reflexivity | | reflexivity].
    right. exists (js "Unexpected token in JSON"), Demo.adjustJson.
    vm_compute. repeat split.
Defined.

(* ================================================================== *)
(** ** The conversation store and the service methods over it *)

(** What a successful [getConversation] did: one database operation, that
    found the first live conversation with that id and owner. *)
Lemma getConversation_inr (rt : Runtime) (conversationId owner : JsVal)
      (w w' : World) (c : Conversation) :
  getConversation rt conversationId owner w = (inr c, w') ->
  find (ownedBy conversationId owner) (conversations w) = Some c
  /\ dbFault rt (dbOps w) = None
  /\ w' = afterDbOp w
  /\ truthy conversationId = true /\ truthy owner = true.
Proof.
  unfold getConversation, tryCatch, badRequest, Conversation_findOne, bind, dbOp,
    rethrowOrWrap, throw, ret.
  destruct (truthy conversationId); simpl; [| discriminate].
  destruct (truthy owner); simpl; [| discriminate].
  destruct (dbFault rt (dbOps w)); simpl; [discriminate |].
  fold (ownedBy conversationId owner).
  destruct (find (ownedBy conversationId owner) (conversations w)); simpl;
    [| discriminate].
  intros H. injection H as <- <-. repeat split.
Qed.

(** Conversely, the lookup succeeds when the database does not fail and
    such a conversation is stored. *)
Lemma getConversation_found (rt : Runtime) (conversationId owner : JsVal)
      (w : World) (c : Conversation) :
  truthy conversationId = true ->
  truthy owner = true ->
  find (ownedBy conversationId owner) (conversations w) = Some c ->
  dbFault rt (dbOps w) = None ->
  getConversation rt conversationId owner w = (inr c, afterDbOp w).
Proof.
  intros Hcid Howner Hfind Hfault.
  unfold getConversation, tryCatch, badRequest, Conversation_findOne, bind, dbOp,
    rethrowOrWrap, throw, ret.
  rewrite Hcid, Howner. simpl. rewrite Hfault. simpl.
  fold (ownedBy conversationId owner). rewrite Hfind. reflexivity.
Qed.

(** The lookup fails with the 404 error when no live conversation has
    that id and owner. *)
Lemma getConversation_not_found (rt : Runtime) (conversationId owner : JsVal) (w : World) :
  truthy conversationId = true ->
  truthy owner = true ->
  find (ownedBy conversationId owner) (conversations w) = None ->
  dbFault rt (dbOps w) = None ->
  getConversation rt conversationId owner w
  = (inl (newAPIError (js "Conversation not found") httpStatus.NOT_FOUND), afterDbOp w).
Proof.
  intros Hcid Howner Hfind Hfault.
  unfold getConversation, tryCatch, badRequest, Conversation_findOne, bind, dbOp,
    rethrowOrWrap, throw, ret.
  rewrite Hcid, Howner. simpl. rewrite Hfault. simpl.
  fold (ownedBy conversationId owner). rewrite Hfind. reflexivity.
Qed.

Lemma getConversation_throws_APIError (rt : Runtime) (conversationId owner : JsVal)
      (w w' : World) (e : JsError) :
  getConversation rt conversationId owner w = (inl e, w') -> isAPIError e = true.
Proof.
  unfold getConversation, tryCatch.
  match goal with |- context [?body w] => destruct (body w) as [[err | c] w1] end.
  - intros H. exact (rethrowOrWrap_APIError _ _ _ _ _ _ H eq_refl).
  - discriminate.
Qed.

Lemma addMessage_throws_APIError (rt : Runtime) (conversationId owner role content : JsVal)
      (metadataArg : option Props) (w w' : World) (e : JsError) :
  addMessage rt conversationId owner role content metadataArg w = (inl e, w') ->
  isAPIError e = true.
Proof.
  unfold addMessage, tryCatch.
  match goal with |- context [?body w] => destruct (body w) as [[err | c] w1] end.
  - intros H. exact (rethrowOrWrap_APIError _ _ _ _ _ _ H eq_refl).
  - discriminate.
Qed.

(* ================================================================== *)
(** ** The query orchestrator: errors of the history and generation step *)

(** Whatever the inner [try] block throws, an [APIError] included, leaves
    [generateAnswer] as a new 500 error. *)
Lemma generateAnswer_failure_is_500 (rt : Runtime) (message : JsVal)
      (options : QueryOptions) (systemMessage : jsstring) (startTime : float)
      (w w' : World) (e : JsError) :
  generateAnswer rt message options systemMessage startTime w = (inl e, w') ->
  exists err,
    e = newAPIError (js "Error processing legal query: " ++ messageOf err)
                    httpStatus.INTERNAL_SERVER_ERROR.
Proof.
  unfold generateAnswer, tryCatch.
  match goal with |- context [?body w] => destruct (body w) as [[err | x] w1] end.
  - unfold throw. intros H. injection H as <- _. now exists err.
  - discriminate.
Qed.

(** C1.  [getConversation] fails with the 404 error "Conversation not
    found" for a conversation that is absent, owned by someone else, or
    soft-deleted; [processLegalQuery], given the same ids, fails with a
    500 error instead: the inner catch block wraps the 404 error into a
    new error rather than letting it through. *)
Theorem processLegalQuery_rewraps_not_found :
  let rt := Demo.runtime [inr (js "I cannot classify this.")] None in
  let message := VS "Is this lease valid?" in
  let notFound := newAPIError (js "Conversation not found") 404 in
  let wrapped :=
    newAPIError (js "Error processing legal query: Conversation not found") 500 in
  (* absent *)
  fst (getConversation rt (VS "c9") (VS "u1") Demo.oneConversation) = inl notFound
  /\ fst (processLegalQuery rt message
            (mkQueryOptions (VS "c9") (VS "u1") VUndefined VUndefined)
            Demo.oneConversation) = inl wrapped
  (* owned by another user *)
  /\ fst (getConversation rt (VS "c1") (VS "u2") Demo.oneConversation) = inl notFound
  /\ fst (processLegalQuery rt message
            (mkQueryOptions (VS "c1") (VS "u2") VUndefined VUndefined)
            Demo.oneConversation) = inl wrapped
  (* soft-deleted *)
  /\ fst (getConversation rt (VS "c1") (VS "u1") Demo.deletedConversation) = inl notFound
  /\ fst (processLegalQuery rt message
            (mkQueryOptions (VS "c1") (VS "u1") VUndefined VUndefined)
            Demo.deletedConversation) = inl wrapped
  /\ isNotFound notFound = true
  /\ isNotFound wrapped = false.
Proof. vm_compute. repeat split. Qed.

(* ================================================================== *)
(** ** The query orchestrator: persistence *)

Lemma processLegalQuery_after_answer (rt : Runtime) (message : JsVal)
      (options : QueryOptions) (w w1 : World)
      (aiResponse : jsstring) (metadataType : JsVal) (metadata : Props) :
  answerQuery rt message options (clockAt rt (clockReads w)) (afterClockRead w)
  = (inr (aiResponse, metadataType, metadata), w1) ->
  processLegalQuery rt message options w
  = tryCatch
      (saveInteraction rt message options metadataType aiResponse metadata ;;
       ret (mkQueryResult aiResponse metadata))%js
      (rethrowOrWrap "Error processing legal query: ") w1.
Proof.
  intros Hanswer.
  unfold processLegalQuery.
  change (bind (dateNow rt) ?k w)
    with (k (clockAt rt (clockReads w)) (afterClockRead w)).
  cbv beta. unfold tryCatch. rewrite (bind_inr _ _ _ _ _ Hanswer). reflexivity.
Qed.

(** C4.  Once the answer is generated for a request that names a
    conversation and a user, a failure of either [addMessage] is the
    failure of the whole [processLegalQuery]: the very error [addMessage]
    threw is thrown, whether it is the user turn that failed or the
    assistant turn after the user turn was stored, and no result is
    returned. *)
Theorem processLegalQuery_persistence_failure_propagates :
  forall (rt : Runtime) (message : JsVal) (options : QueryOptions) (w w1 : World)
         (aiResponse : jsstring) (metadataType : JsVal) (metadata : Props),
    truthy (optConversationId options) && truthy (optUserId options) = true ->
    answerQuery rt message options (clockAt rt (clockReads w)) (afterClockRead w)
    = (inr (aiResponse, metadataType, metadata), w1) ->
    (forall e w2,
        addMessage rt (optConversationId options) (optUserId options) (VS "user")
                   message (Some [(js "type", metadataType)]) w1 = (inl e, w2) ->
        processLegalQuery rt message options w = (inl e, w2))
    /\ (forall c w2 e w3,
           addMessage rt (optConversationId options) (optUserId options) (VS "user")
                      message (Some [(js "type", metadataType)]) w1 = (inr c, w2) ->
           addMessage rt (optConversationId options) (optUserId options)
                      (VS "assistant") (VStr aiResponse) (Some metadata) w2
           = (inl e, w3) ->
           processLegalQuery rt message options w = (inl e, w3)).
Proof.
  intros rt message options w w1 aiResponse metadataType metadata Hids Hanswer.
  rewrite (processLegalQuery_after_answer _ _ _ _ _ _ _ _ Hanswer).
  unfold saveInteraction. rewrite Hids. split.
  - intros e w2 Huser.
    rewrite (tryCatch_inl _ _ _ _ _ (bind_inl _ _ _ _ _ (bind_inl _ _ _ _ _ Huser))).
    apply rethrowOrWrap_passes. exact (addMessage_throws_APIError _ _ _ _ _ _ _ _ _ Huser).
  - intros c w2 e w3 Huser Hassistant.
    assert (Hsave :
      bind (addMessage rt (optConversationId options) (optUserId options) (VS "user")
                       message (Some [(js "type", metadataType)]))
           (fun _ =>
              bind (addMessage rt (optConversationId options) (optUserId options)
                               (VS "assistant") (VStr aiResponse) (Some metadata))
                   (fun _ => ret tt)) w1 = (inl e, w3)).
    { rewrite (bind_inr _ _ _ _ _ Huser). exact (bind_inl _ _ _ _ _ Hassistant). }
    rewrite (tryCatch_inl _ _ _ _ _ (bind_inl _ _ _ _ _ Hsave)).
    apply rethrowOrWrap_passes.
    exact (addMessage_throws_APIError _ _ _ _ _ _ _ _ _ Hassistant).
Qed.

(** The assistant turn cannot be saved (the fifth database operation of
    the request fails): the request fails with the error of [addMessage],
    although the provider had answered and the user turn is stored. *)
Lemma processLegalQuery_persistence_failure_propagates_witness :
  let rt := Demo.runtime [inr (js "I cannot classify this.");
                          inr (js "Consider adding a break clause.")] (Some 4) in
  let run := processLegalQuery rt (VS "Is this lease valid?")
               (Demo.inC1 VUndefined VUndefined) Demo.oneConversation in
  fst run = inl (newAPIError (js "Error adding message: write failed") 500)
  /\ map (fun c => List.length (messages c)) (conversations (snd run)) = [4].
Proof.
  cbv zeta. split; [| vm_compute; reflexivity].
  destruct (processLegalQuery_persistence_failure_propagates
              (Demo.runtime [inr (js "I cannot classify this.");
                             inr (js "Consider adding a break clause.")] (Some 4))
              (VS "Is this lease valid?") (Demo.inC1 VUndefined VUndefined)
              Demo.oneConversation
              (snd (answerQuery
                      (Demo.runtime [inr (js "I cannot classify this.");
                                     inr (js "Consider adding a break clause.")] (Some 4))
                      (VS "Is this lease valid?") (Demo.inC1 VUndefined VUndefined)
                      1000%float (afterClockRead Demo.oneConversation)))
              (js "Consider adding a break clause.") (VS "chat")
              (buildMetadata (VS "chat") (Demo.inC1 VUndefined VUndefined) 250%float
                             (js "Consider adding a break clause."))
              eq_refl) as [_ H].
  - vm_compute. reflexivity.
  - erewrite H; [reflexivity | vm_compute; reflexivity | vm_compute; reflexivity].
Defined.

(* ================================================================== *)
(** ** Appending messages *)

Lemma lookup_setProp (key : jsstring) (v : JsVal) (props : Props) :
  lookup key (setProp key v props) = Some v.
Proof.
  induction props as [| [k x] rest IH]; simpl.
  - now rewrite str_eqb_refl.
  - destruct (str_eqb k key) eqn:E; simpl; rewrite E; [reflexivity | exact IH].
Qed.

Lemma withDefaultType_type (r : JsVal) (md : Props) :
  getOwn (withDefaultType r md) "type"
  = if truthy (getOwn md "type") then getOwn md "type"
    else if strictEqStr r (js "system") then VS "system" else VS "chat".
Proof.
  unfold withDefaultType. destruct (truthy (getOwn md "type")); simpl; [reflexivity |].
  unfold getOwn. now rewrite lookup_setProp.
Qed.

Lemma In_storeDoc (doc : Conversation) (docs : list Conversation) :
  In doc (storeDoc doc docs).
Proof.
  induction docs as [| d rest IH]; simpl; [now left |].
  destruct (str_eqb (_id d) (_id doc)); simpl; [now left | now right].
Qed.

(** What a successful [addMessage] did: it found the conversation, added
    the message after the others with its metadata type defaulted, and
    stored the result. *)
Lemma addMessage_inr (rt : Runtime) (conversationId owner r c : JsVal)
      (metadataArg : option Props) (w w' : World) (conv : Conversation) :
  addMessage rt conversationId owner r c metadataArg w = (inr conv, w') ->
  exists c0,
    find (ownedBy conversationId owner) (conversations w) = Some c0
    /\ conv = pushMessage c0 (mkMessage r c (withDefaultType r (defaultedMetadata metadataArg)))
    /\ w' = afterSave w conv.
Proof.
  unfold addMessage, tryCatch.
  match goal with |- context [?body w] => destruct (body w) as [[err | x] w1] eqn:Hbody end.
  - unfold rethrowOrWrap, throw. destruct (isAPIError err); discriminate.
  - intros H. injection H as <- <-.
    destruct (truthy conversationId); simpl in Hbody; [| discriminate].
    destruct (truthy owner); simpl in Hbody; [| discriminate].
    destruct (truthy r); simpl in Hbody; [| discriminate].
    destruct (truthy c); simpl in Hbody; [| discriminate].
    unfold bind in Hbody.
    destruct (getConversation rt conversationId owner w) as [[e | c0] w2] eqn:Hget;
      [discriminate |].
    apply getConversation_inr in Hget as [Hfind [_ [-> _]]].
    exists c0. split; [exact Hfind |].
    unfold Conversation_addMessage, Conversation_save, bind, dbOp, ret in Hbody.
    simpl in Hbody.
    destruct (dbFault rt (S (dbOps w))); [discriminate |].
    injection Hbody as <- <-. split; reflexivity.
Qed.

(** C10.  The message [addMessage] stores is the last one of the
    conversation it returns and saves, with the role and content given.
    When the metadata supplied has no (truthy) [type], the stored
    metadata has type ['system'] for role ['system'] and ['chat'] for any
    other role; otherwise the supplied metadata is stored as it is.
    Either way the stored message has a metadata type. *)
Theorem addMessage_defaults_metadata_type :
  forall (rt : Runtime) (conversationId owner r c : JsVal) (metadataArg : option Props)
         (w w' : World) (conv : Conversation),
    addMessage rt conversationId owner r c metadataArg w = (inr conv, w') ->
    exists earlier m,
      messages conv = earlier ++ [m]
      /\ In conv (conversations w')
      /\ role m = r /\ content m = c
      /\ truthy (getOwn (metadata m) "type") = true
      /\ (truthy (getOwn (defaultedMetadata metadataArg) "type") = false ->
          getOwn (metadata m) "type"
          = if strictEqStr r (js "system") then VS "system" else VS "chat")
      /\ (truthy (getOwn (defaultedMetadata metadataArg) "type") = true ->
          metadata m = defaultedMetadata metadataArg).
Proof.
  intros rt conversationId owner r c metadataArg w w' conv H.
  apply addMessage_inr in H as [c0 [_ [-> ->]]].
  exists (messages c0), (mkMessage r c (withDefaultType r (defaultedMetadata metadataArg))).
  split; [reflexivity |]. split; [apply In_storeDoc |].
  split; [reflexivity |]. split; [reflexivity |]. simpl metadata.
  rewrite withDefaultType_type.
  destruct (truthy (getOwn (defaultedMetadata metadataArg) "type")) eqn:E.
  - split; [exact E |]. split; [discriminate |]. intros _.
    unfold withDefaultType. now rewrite E.
  - split; [now destruct (strictEqStr r (js "system")) |].
    split; [reflexivity | discriminate].
Qed.

Lemma addMessage_defaults_metadata_type_witness :
  let rt := Demo.runtime [] None in
  (exists conv w',
      addMessage rt (VS "c1") (VS "u1") (VS "user") (VS "And a sublease?") None
                 Demo.oneConversation = (inr conv, w')
      /\ map (fun m => getOwn (metadata m) "type") (messages conv)
         = [VS "system"; VS "chat"; VS "chat"; VS "chat"])
  /\ (exists conv w',
         addMessage rt (VS "c1") (VS "u1") (VS "system") (VS "Be brief.")
                    (Some [(js "tone", VS "formal")])
                    Demo.oneConversation = (inr conv, w')
         /\ exists earlier m,
             messages conv = earlier ++ [m]
             /\ getOwn (metadata m) "type" = VS "system").
Proof.
  cbv zeta. split.
  - eexists. eexists. split; vm_compute; reflexivity.
  - eexists. eexists. split; [vm_compute; reflexivity |].
    match goal with
    | |- exists earlier m, messages ?conv = _ /\ _ =>
        destruct (addMessage_defaults_metadata_type
                    (Demo.runtime [] None) (VS "c1") (VS "u1") (VS "system")
                    (VS "Be brief.") (Some [(js "tone", VS "formal")])
                    Demo.oneConversation
                    (afterSave Demo.oneConversation conv) conv eq_refl)
          as [earlier [m [Hm [_ [_ [_ [_ [Hdefault _]]]]]]]]
    end.
    exists earlier, m. split; [exact Hm | exact (Hdefault eq_refl)].
Defined.

(* ================================================================== *)
(** ** Round trip through the store and the chat adapter *)

Lemma find_storeDoc (p : Conversation -> bool) (c0 c' : Conversation)
      (docs : list Conversation) :
  NoDup (map _id docs) ->
  find p docs = Some c0 ->
  _id c' = _id c0 ->
  p c' = true ->
  find p (storeDoc c' docs) = Some c'.
Proof.
  intros Hnd Hfind Hid Hp.
  induction docs as [| d rest IH]; simpl in *; [discriminate |].
  destruct (p d) eqn:Hpd.
  - injection Hfind as ->. rewrite Hid, str_eqb_refl. simpl. now rewrite Hp.
  - inversion Hnd as [| ? ? Hnotin Hrest]; subst.
    destruct (str_eqb (_id d) (_id c')) eqn:E.
    + exfalso. apply str_eqb_eq in E. apply Hnotin.
      rewrite E, Hid. apply in_map. apply find_some in Hfind. tauto.
    + simpl. rewrite Hpd. now apply IH.
Qed.

Lemma map_id_storeDoc (c' : Conversation) (docs : list Conversation) :
  In (_id c') (map _id docs) ->
  map _id (storeDoc c' docs) = map _id docs.
Proof.
  induction docs as [| d rest IH]; simpl; [intros [] |].
  destruct (str_eqb (_id d) (_id c')) eqn:E.
  - intros _. apply str_eqb_eq in E. simpl. now rewrite E.
  - intros [H | H].
    + rewrite H, str_eqb_refl in E. discriminate.
    + simpl. now rewrite IH.
Qed.

Lemma appendAll_messages (rt : Runtime) (conversationId owner : JsVal)
      (msgs : list Message) :
  forall (w w' : World) (c0 : Conversation),
    NoDup (docIds w) ->
    find (ownedBy conversationId owner) (conversations w) = Some c0 ->
    appendAll rt conversationId owner msgs w = (inr tt, w') ->
    exists c,
      find (ownedBy conversationId owner) (conversations w') = Some c
      /\ messages c = messages c0 ++ map asStored msgs.
Proof.
  induction msgs as [| m rest IH]; intros w w' c0 Hnd Hfind Hrun.
  - simpl in Hrun. injection Hrun as <-. exists c0. now rewrite app_nil_r.
  - simpl in Hrun. unfold bind in Hrun.
    destruct (addMessage rt conversationId owner (role m) (content m)
                         (Some (metadata m)) w) as [[e | conv] w1] eqn:Hadd;
      [discriminate |].
    apply addMessage_inr in Hadd as [c1 [Hfind1 [Hconv Hw1]]].
    assert (c1 = c0) by congruence. subst c1.
    assert (Hfind' : find (ownedBy conversationId owner) (conversations w1) = Some conv).
    { subst w1. simpl. apply (find_storeDoc _ c0); try assumption.
      - subst conv. reflexivity.
      - subst conv. apply find_some in Hfind. unfold ownedBy in *. simpl. tauto. }
    assert (Hnd' : NoDup (docIds w1)).
    { subst w1. unfold docIds. simpl. rewrite map_id_storeDoc; [exact Hnd |].
      subst conv. simpl. apply in_map. apply find_some in Hfind. tauto. }
    destruct (IH _ _ _ Hnd' Hfind' Hrun) as [c [Hc Hmsgs]].
    exists c. split; [exact Hc |].
    rewrite Hmsgs. subst conv. simpl. now rewrite <- app_assoc.
Qed.

Lemma formatHistory_app (c : Conversation) (earlier later : list Message) :
  messages c = earlier ++ later ->
  formatHistory c
  = map (fun msg =>
           mkEntry (if strictEqStr (role msg) (js "user") then VS "user" else VS "model")
                   (content msg))
        (filter (fun msg => negb (strictEqStr (role msg) (js "system"))) earlier)
    ++ map (fun msg =>
              mkEntry (if strictEqStr (role msg) (js "user") then VS "user" else VS "model")
                      (content msg))
           (filter (fun msg => negb (strictEqStr (role msg) (js "system"))) later).
Proof.
  intros H. unfold formatHistory. now rewrite H, filter_app, map_app.
Qed.

Ltac eval_role_tests :=
  repeat match goal with
         | |- context [strictEqStr (VS ?a) (js ?b)] =>
             let v := eval vm_compute in (strictEqStr (VS a) (js b)) in
             change (strictEqStr (VS a) (js b)) with v
         end.

Lemma formatted_turns (msgs : list Message) :
  Forall isTurn msgs ->
  map (fun msg =>
         mkEntry (if strictEqStr (role msg) (js "user") then VS "user" else VS "model")
                 (content msg))
      (filter (fun msg => negb (strictEqStr (role msg) (js "system")))
              (map asStored msgs))
  = map expectedEntry msgs.
Proof.
  induction 1 as [| m rest Hm _ IH]; [reflexivity |].
  cbn [map filter]. unfold expectedEntry at 1.
  replace (role (asStored m)) with (role m) by reflexivity.
  destruct Hm as [Hm | Hm]; rewrite Hm; eval_role_tests;
    cbn [negb map role content asStored]; rewrite ?Hm; eval_role_tests;
    now rewrite IH.
Qed.

Lemma answerAt_shift (rt : Runtime) (before rest : list ProviderCall) (c : ProviderCall)
      (i : nat) :
  answerAt rt before (c :: rest) (S i) = answerAt rt (before ++ [c]) rest i.
Proof.
  unfold answerAt. simpl. destruct (nth_error rest i); [| reflexivity].
  now rewrite <- app_assoc.
Qed.

Lemma answerAt_first (rt : Runtime) (before rest : list ProviderCall) (c : ProviderCall) :
  answerAt rt before (c :: rest) 0 = Some (provider rt before c).
Proof. unfold answerAt. simpl. now rewrite app_nil_r. Qed.

Lemma callProvider_attempt (rt : Runtime) (c : ProviderCall) (w : World) :
  callProvider rt c w
  = (match provider rt (providerCalls w) c with
     | inr text => inr text
     | inl msg => inl (Error msg)
     end, afterCall w c).
Proof. unfold callProvider. destruct (provider rt (providerCalls w) c); reflexivity. Qed.

Lemma tryModels_answers {A} (rt : Runtime) (mk : jsstring -> ProviderCall)
      (f : jsstring -> A) (attempt : jsstring -> M A) :
  (forall m w,
      attempt m w
      = (match provider rt (providerCalls w) (mk m) with
         | inr text => inr (f text)
         | inl msg => inl (Error msg)
         end, afterCall w (mk m))) ->
  forall (names : list jsstring) (w : World) (j : nat) (text : jsstring),
    firstAnswer rt (providerCalls w) (map mk names) j text ->
    exists w', tryModels attempt names w = (inr (f text), w').
Proof.
  intros Hattempt. induction names as [| m rest IH]; intros w j text [Hanswer Hfails].
  - unfold answerAt in Hanswer. destruct j; discriminate Hanswer.
  - rewrite tryModels_step, Hattempt. cbn [map] in Hanswer, Hfails.
    destruct j as [| j].
    + rewrite answerAt_first in Hanswer. injection Hanswer as ->. eauto.
    + destruct (Hfails 0 (Nat.lt_0_succ j)) as [msg Hfirst].
      rewrite answerAt_first in Hfirst. injection Hfirst as ->.
      apply (IH _ j text). split.
      * cbn [providerCalls afterWarning afterCall]. now rewrite <- answerAt_shift.
      * intros i Hi. cbn [providerCalls afterWarning afterCall].
        rewrite <- answerAt_shift. apply Hfails. lia.
Qed.

Lemma toChatTurns_turnFor (history : list HistoryEntry) :
  toChatTurns history = flat_map turnFor history.
Proof.
  unfold toChatTurns. induction history as [| e rest IH]; [reflexivity |].
  cbn [filter flat_map]. unfold turnFor at 1.
  destruct (entryRole e) as [| | | | r | | |] eqn:Hrole; cbn [strictEqStr negb];
    try (cbn [map]; rewrite Hrole; cbn [strictEqStr app]; now rewrite IH).
  destruct (str_eqb r (js "system")); cbn [negb]; [exact IH |].
  cbn [map]. rewrite Hrole. cbn [strictEqStr].
  destruct (str_eqb r (js "user")); cbn [app]; now rewrite IH.
Qed.

Lemma chatCall_expected (prompt : JsVal) (history : list HistoryEntry)
      (options : GenOptions) (modelName : jsstring) :
  chatCall prompt history options modelName
  = expectedChatCall prompt history options modelName.
Proof. unfold chatCall, expectedChatCall, jsOr. now rewrite toChatTurns_turnFor. Qed.

Lemma expected_chat_calls (prompt : JsVal) (history : list HistoryEntry)
      (options : GenOptions) (names : list jsstring) :
  map (chatCall prompt history options) names
  = map (expectedChatCall prompt history options) names.
Proof. apply map_ext. intros m. apply chatCall_expected. Qed.

Lemma generateWithChatHistory_answers (rt : Runtime) (prompt : JsVal)
      (history : list HistoryEntry) (options : GenOptions) (w : World)
      (j : nat) (text : jsstring) :
  googleConfigured rt = true ->
  firstAnswer rt (providerCalls w)
              (map (expectedChatCall prompt history options) modelNames) j text ->
  exists w',
    generateWithChatHistory rt prompt history options w
    = (inr (mkChatResult text
              (history ++ [mkEntry (VS "user") prompt; mkEntry (VS "model") (VStr text)])),
       w').
Proof.
  intros Hcfg Hfirst. rewrite <- expected_chat_calls in Hfirst.
  unfold generateWithChatHistory. rewrite Hcfg. cbn [negb].
  eapply (tryModels_answers rt (chatCall prompt history options)
            (fun text =>
               mkChatResult text
                 (history ++ [mkEntry (VS "user") prompt;
                              mkEntry (VS "model") (VStr text)])));
    [| exact Hfirst].
  intros m w0. unfold bind, ret. fold (chatCall prompt history options m).
  rewrite callProvider_attempt.
  destruct (provider rt (providerCalls w0) (chatCall prompt history options m));
    reflexivity.
Qed.

Lemma formatted_nonSystem (msgs : list Message) :
  Forall nonSystem msgs ->
  Forall2 entryAnswers msgs
    (map (fun msg =>
            mkEntry (if strictEqStr (role msg) (js "user") then VS "user" else VS "model")
                    (content msg))
         (filter (fun msg => negb (strictEqStr (role msg) (js "system")))
                 (map asStored msgs))).
Proof.
  induction 1 as [| m rest Hm _ IH]; [constructor |].
  cbn [map filter]. replace (role (asStored m)) with (role m) by reflexivity.
  unfold nonSystem in Hm. rewrite Hm. cbn [negb map].
  constructor; [| exact IH].
  unfold entryAnswers. cbn [entryParts entryRole role content asStored].
  split; [reflexivity |]. split; intros ->; reflexivity.
Qed.

Lemma generateWithChatHistory_history (rt : Runtime) (prompt : JsVal)
      (history : list HistoryEntry) (options : GenOptions) (w w' : World)
      (r : ChatResult) :
  generateWithChatHistory rt prompt history options w = (inr r, w') ->
  chatHistory r
  = history ++ [mkEntry (VS "user") prompt; mkEntry (VS "model") (VStr (chatText r))].
Proof.
  unfold generateWithChatHistory.
  destruct (negb (googleConfigured rt)); [discriminate |].
  intros H.
  eapply (tryModels_result _ _
            (fun x => chatHistory x
                      = history ++ [mkEntry (VS "user") prompt;
                                    mkEntry (VS "model") (VStr (chatText x))]));
    [| exact H].
  clear H. intros modelName w0 x w0'. unfold bind.
  destruct (callProvider rt _ w0) as [[e | responseText] w1]; [discriminate |].
  unfold ret. intros H. injection H as <- _. reflexivity.
Qed.

(** C6.  Appending messages with roles [user] and [assistant] to a
    conversation and loading it again gives, in provider format, the
    history it had before followed by one entry per appended message, in
    the order of appending, with role [user] for the user and [model] for
    the assistant; so exactly as many entries as messages appended when
    the conversation held only system messages.  And a successful
    [generateWithChatHistory] returns the history it was given followed
    by the user turn and the model turn.  The same holds of messages of
    any role but [system]: each gives one entry with its content, in
    order.  And [generateWithChatHistory] does return, with that
    history and the text of the first model that answers, whenever the
    API key is configured and one of the models answers. *)
Theorem history_round_trip :
  (forall (rt : Runtime) (conversationId owner : JsVal) (msgs : list Message)
          (w w1 w' : World) (c0 : Conversation),
      NoDup (docIds w) ->
      getConversation rt conversationId owner w = (inr c0, w1) ->
      Forall isTurn msgs ->
      appendAll rt conversationId owner msgs w1 = (inr tt, w') ->
      dbFault rt (dbOps w') = None ->
      exists c,
        getConversation rt conversationId owner w' = (inr c, afterDbOp w')
        /\ formatHistory c = formatHistory c0 ++ map expectedEntry msgs
        /\ (formatHistory c0 = [] ->
            List.length (formatHistory c) = List.length msgs))
  /\ (forall (rt : Runtime) (prompt : JsVal) (history : list HistoryEntry)
             (options : GenOptions) (w w' : World) (r : ChatResult),
         generateWithChatHistory rt prompt history options w = (inr r, w') ->
         chatHistory r
         = history ++ [mkEntry (VS "user") prompt;
                       mkEntry (VS "model") (VStr (chatText r))])
  /\ (forall (rt : Runtime) (conversationId owner : JsVal) (msgs : list Message)
             (w w1 w' : World) (c0 : Conversation),
         NoDup (docIds w) ->
         getConversation rt conversationId owner w = (inr c0, w1) ->
         Forall nonSystem msgs ->
         appendAll rt conversationId owner msgs w1 = (inr tt, w') ->
         dbFault rt (dbOps w') = None ->
         exists c entries,
           getConversation rt conversationId owner w' = (inr c, afterDbOp w')
           /\ formatHistory c = formatHistory c0 ++ entries
           /\ Forall2 entryAnswers msgs entries
           /\ List.length (formatHistory c)
              = List.length (formatHistory c0) + List.length msgs)
  /\ (forall (rt : Runtime) (prompt : JsVal) (history : list HistoryEntry)
             (options : GenOptions) (w : World) (j : nat) (text : jsstring),
         googleConfigured rt = true ->
         firstAnswer rt (providerCalls w)
                     (map (expectedChatCall prompt history options) modelNames) j text ->
         exists w',
           generateWithChatHistory rt prompt history options w
           = (inr (mkChatResult text
                     (history ++ [mkEntry (VS "user") prompt;
                                  mkEntry (VS "model") (VStr text)])),
              w')).
Proof.
  split; [| split; [exact generateWithChatHistory_history
                   | split; [| exact generateWithChatHistory_answers]]].
  - intros rt conversationId owner msgs w w1 w' c0 Hnd Hget Hturns Hrun Hfault.
    apply getConversation_inr in Hget as [Hfind [_ [-> [Hcid Howner]]]].
    destruct (appendAll_messages rt conversationId owner msgs (afterDbOp w) w' c0
                Hnd Hfind Hrun) as [c [Hc Hmsgs]].
    exists c. split; [now apply getConversation_found |].
    assert (Hformat : formatHistory c = formatHistory c0 ++ map expectedEntry msgs).
    { rewrite (formatHistory_app c _ _ Hmsgs). now rewrite formatted_turns. }
    split; [exact Hformat |].
    intros Hempty. rewrite Hformat, Hempty. simpl. apply length_map.
  - intros rt conversationId owner msgs w w1 w' c0 Hnd Hget Hturns Hrun Hfault.
    apply getConversation_inr in Hget as [Hfind [_ [-> [Hcid Howner]]]].
    destruct (appendAll_messages rt conversationId owner msgs (afterDbOp w) w' c0
                Hnd Hfind Hrun) as [c [Hc Hmsgs]].
    pose proof (formatted_nonSystem msgs Hturns) as Hentries.
    exists c. eexists. split; [now apply getConversation_found |].
    split; [exact (formatHistory_app c _ _ Hmsgs) |]. split; [exact Hentries |].
    rewrite (formatHistory_app c _ _ Hmsgs), length_app.
    now rewrite <- (Forall2_length Hentries).
Qed.

(** A conversation as [createConversation] returns it holds the seed
    system message and nothing else, so its history in provider format is
    empty. *)
Lemma createConversation_seed (rt : Runtime) (owner title : JsVal)
      (description : option JsVal) (w w' : World) (c : Conversation) :
  createConversation rt owner title description w = (inr c, w') ->
  messages c = [seedMessage] /\ formatHistory c = [].
Proof.
  unfold createConversation, tryCatch.
  destruct (truthy owner); simpl;
    [| unfold badRequest, rethrowOrWrap, throw; simpl; discriminate].
  destruct (truthy title); simpl;
    [| unfold badRequest, rethrowOrWrap, throw; simpl; discriminate].
  unfold Conversation_save, bind, dbOp, ret. simpl.
  destruct (dbFault rt (dbOps w)); simpl.
  - unfold rethrowOrWrap, throw. simpl. discriminate.
  - intros H. injection H as <- _. split; reflexivity.
Qed.

(** A conversation is created, three turns are appended, and it is
    loaded again: three entries, in order, the assistant as [model]. *)
Lemma history_round_trip_witness :
  let rt := Demo.runtime [] None in
  let created := snd (createConversation rt (VS "u1") (VS "Lease") None Demo.emptyWorld) in
  let loaded := snd (getConversation rt (VS "c1") (VS "u1") created) in
  let appended := snd (appendAll rt (VS "c1") (VS "u1") threeTurns loaded) in
  (exists c,
      getConversation rt (VS "c1") (VS "u1") appended = (inr c, afterDbOp appended)
      /\ formatHistory c
         = [mkEntry (VS "user") (VS "What is a lease?");
            mkEntry (VS "model") (VS "A lease is a contract.");
            mkEntry (VS "user") (VS "And a sublease?")])
  /\ exists w',
      generateWithChatHistory
        (Demo.runtime [inl (js "quota exceeded"); inr (js "It needs consent.")] None)
        (VS "And a sublease?")
        [mkEntry (VS "user") (VS "What is a lease?");
         mkEntry (VS "model") (VS "A lease is a contract.")]
        (mkOptions VUndefined VUndefined VUndefined) Demo.emptyWorld
      = (inr (mkChatResult (js "It needs consent.")
                [mkEntry (VS "user") (VS "What is a lease?");
                 mkEntry (VS "model") (VS "A lease is a contract.");
                 mkEntry (VS "user") (VS "And a sublease?");
                 mkEntry (VS "model") (VS "It needs consent.")]), w').
Proof.
  cbv zeta. split.
  2: { apply (proj2 (proj2 (proj2 history_round_trip))
                (Demo.runtime [inl (js "quota exceeded"); inr (js "It needs consent.")]
                              None)
                (VS "And a sublease?")
                [mkEntry (VS "user") (VS "What is a lease?");
                 mkEntry (VS "model") (VS "A lease is a contract.")]
                (mkOptions VUndefined VUndefined VUndefined) Demo.emptyWorld 1
                (js "It needs consent.") eq_refl).
       split; [vm_compute; reflexivity |].
       intros i Hi. assert (i = 0) as -> by lia.
       exists (js "quota exceeded"). vm_compute. reflexivity. }
  destruct history_round_trip as [H _].
  destruct (H (Demo.runtime [] None) (VS "c1") (VS "u1") threeTurns
              (snd (createConversation (Demo.runtime [] None) (VS "u1") (VS "Lease") None
                                       Demo.emptyWorld))
              (snd (getConversation (Demo.runtime [] None) (VS "c1") (VS "u1")
                      (snd (createConversation (Demo.runtime [] None) (VS "u1")
                                               (VS "Lease") None Demo.emptyWorld))))
              (snd (appendAll (Demo.runtime [] None) (VS "c1") (VS "u1") threeTurns
                      (snd (getConversation (Demo.runtime [] None) (VS "c1") (VS "u1")
                              (snd (createConversation (Demo.runtime [] None) (VS "u1")
                                      (VS "Lease") None Demo.emptyWorld))))))
              (mkConversation (js "c1") (VS "u1") (VS "Lease") (VStr []) (js "active")
                              [seedMessage]))
    as [c [Hload [Hformat _]]].
  - vm_compute. constructor; [intros [] | constructor].
  - vm_compute. reflexivity.
  - unfold threeTurns.
    repeat (apply Forall_cons; [first [now left | now right] |]). apply Forall_nil.
  - vm_compute. reflexivity.
  - reflexivity.
  - exists c. split; [exact Hload |]. rewrite Hformat. reflexivity.
Defined.

(* ================================================================== *)
(** ** No failure of the orchestrator is NotFound *)

Lemma toStr_error (rt : Runtime) (v : JsVal) (e : JsError) :
  toStr rt v = inl e -> e = cannotConvert.
Proof.
  unfold toStr, toStringOrThrow. destruct (ToString _ v); [discriminate |].
  intros H. now injection H.
Qed.

Ltac case_conversions rt :=
  repeat match goal with
         | |- context [toStr rt ?v] => destruct (toStr rt v) eqn:?
         | |- context [if ?b then _ else _] => destruct b
         end.

Lemma prepareSystemMessage_error (rt : Runtime) (intent : Props)
      (documentType tone : JsVal) (e : JsError) :
  prepareSystemMessage rt intent documentType tone = inl e -> e = cannotConvert.
Proof.
  unfold prepareSystemMessage, intentClause, documentSentence, toneSentence.
  case_conversions rt; try discriminate;
    intros H; injection H as <-; eapply toStr_error; eassumption.
Qed.

Lemma mapIntentToMetadataType_error (rt : Runtime) (intentType : JsVal) (e : JsError) :
  mapIntentToMetadataType rt intentType = inl e -> e = cannotConvert.
Proof.
  unfold mapIntentToMetadataType. destruct (toStr rt intentType) eqn:E; [| discriminate].
  intros H. injection H as <-. exact (toStr_error _ _ _ E).
Qed.

Lemma rethrowOrWrap_not_NotFound {A} (prefix : string) (error e : JsError)
      (w w' : World) :
  isNotFound error = false ->
  @rethrowOrWrap A prefix error w = (inl e, w') ->
  isNotFound e = false.
Proof.
  unfold rethrowOrWrap, throw. intros Herr.
  destruct (isAPIError error); intros H; injection H as <- _; [exact Herr | reflexivity].
Qed.

Lemma generateWithChatHistory_sameStore (rt : Runtime) (prompt : JsVal)
      (history : list HistoryEntry) (options : GenOptions) (w w' : World)
      (r : Result ChatResult) :
  generateWithChatHistory rt prompt history options w = (r, w') -> sameStore w w'.
Proof.
  unfold generateWithChatHistory. destruct (negb (googleConfigured rt)).
  - unfold throw. intros H. injection H as _ <-. apply sameStore_refl.
  - apply tryModels_sameStore. intros modelName w0 r0 w0'. unfold bind, ret.
    destruct (callProvider rt _ w0) as [[e | text] w1] eqn:E;
      intros H; injection H as _ <-; exact (callProvider_sameStore _ _ _ _ _ E).
Qed.

(** When [generateAnswer] returns for a request that names a conversation
    and a user, that conversation is in the store it leaves. *)
Lemma generateAnswer_inr (rt : Runtime) (message : JsVal) (options : QueryOptions)
      (systemMessage : jsstring) (startTime : float) (w w' : World)
      (x : jsstring * float) :
  truthy (optConversationId options) && truthy (optUserId options) = true ->
  generateAnswer rt message options systemMessage startTime w = (inr x, w') ->
  exists c,
    find (ownedBy (optConversationId options) (optUserId options)) (conversations w')
    = Some c.
Proof.
  intros Hids. unfold generateAnswer, tryCatch.
  match goal with |- context [?body w] => destruct (body w) as [[err | y] w1] eqn:Hbody end;
    [unfold throw; discriminate |].
  intros H. injection H as _ <-.
  unfold bind in Hbody.
  destruct (loadHistory rt options w) as [[e | history] wL] eqn:Hload; [discriminate |].
  unfold loadHistory in Hload. rewrite Hids in Hload. unfold bind, ret in Hload.
  destruct (getConversation rt _ _ w) as [[e | c0] w2] eqn:Hget; [discriminate |].
  injection Hload as _ <-.
  apply getConversation_inr in Hget as [Hfind [_ [-> _]]].
  exists c0.
  destruct history as [| h rest].
  - destruct (generateWithGoogleAI rt message _ (afterDbOp w)) as [[e | text] wG] eqn:Hgen;
      [discriminate |].
    apply generateWithGoogleAI_sameStore in Hgen.
    unfold dateNow, ret in Hbody. injection Hbody as _ <-.
    change (conversations (afterClockRead wG)) with (conversations wG).
    destruct Hgen as [-> _]. exact Hfind.
  - destruct (generateWithChatHistory rt message _ _ (afterDbOp w))
      as [[e | result] wG] eqn:Hgen; [discriminate |].
    apply generateWithChatHistory_sameStore in Hgen.
    unfold dateNow, ret in Hbody. injection Hbody as _ <-.
    change (conversations (afterClockRead wG)) with (conversations wG).
    destruct Hgen as [-> _]. exact Hfind.
Qed.

Lemma getConversation_inl_not_NotFound (rt : Runtime) (conversationId owner : JsVal)
      (w w' : World) (c0 : Conversation) (e : JsError) :
  find (ownedBy conversationId owner) (conversations w) = Some c0 ->
  getConversation rt conversationId owner w = (inl e, w') ->
  isNotFound e = false.
Proof.
  intros Hfind.
  unfold getConversation, tryCatch, badRequest, Conversation_findOne, bind, dbOp,
    rethrowOrWrap, throw, ret.
  destruct (truthy conversationId); simpl;
    [| intros H; injection H as <- _; reflexivity].
  destruct (truthy owner); simpl;
    [| intros H; injection H as <- _; reflexivity].
  destruct (dbFault rt (dbOps w)); simpl;
    [intros H; injection H as <- _; reflexivity |].
  rewrite Hfind. discriminate.
Qed.

Lemma addMessage_inl_not_NotFound (rt : Runtime) (conversationId owner r c : JsVal)
      (metadataArg : option Props) (w w' : World) (c0 : Conversation) (e : JsError) :
  find (ownedBy conversationId owner) (conversations w) = Some c0 ->
  addMessage rt conversationId owner r c metadataArg w = (inl e, w') ->
  isNotFound e = false.
Proof.
  intros Hfind. unfold addMessage, tryCatch.
  match goal with |- context [?body w] => destruct (body w) as [[err | x] w1] eqn:Hbody end;
    [| discriminate].
  apply rethrowOrWrap_not_NotFound.
  destruct (truthy conversationId); simpl in Hbody;
    [| injection Hbody as <- _; reflexivity].
  destruct (truthy owner); simpl in Hbody;
    [| injection Hbody as <- _; reflexivity].
  destruct (truthy r); simpl in Hbody;
    [| injection Hbody as <- _; reflexivity].
  destruct (truthy c); simpl in Hbody;
    [| injection Hbody as <- _; reflexivity].
  unfold bind in Hbody.
  destruct (getConversation rt conversationId owner w) as [[e' | c1] w2] eqn:Hget.
  - injection Hbody as <- _. exact (getConversation_inl_not_NotFound _ _ _ _ _ _ _ Hfind Hget).
  - unfold Conversation_addMessage, Conversation_save, bind, dbOp, ret in Hbody.
    destruct (dbFault rt (dbOps w2)); [| discriminate].
    injection Hbody as <- _. reflexivity.
Qed.

Lemma find_storeDoc_some (p : Conversation -> bool) (c0 c' : Conversation)
      (docs : list Conversation) :
  find p docs = Some c0 ->
  p c' = true ->
  exists c, find p (storeDoc c' docs) = Some c.
Proof.
  intros Hfind Hp. induction docs as [| d rest IH]; simpl in *; [discriminate |].
  destruct (str_eqb (_id d) (_id c')); simpl.
  - rewrite Hp. now exists c'.
  - destruct (p d); [now exists d | now apply IH].
Qed.

Lemma saveInteraction_inl_not_NotFound (rt : Runtime) (message : JsVal)
      (options : QueryOptions) (metadataType : JsVal) (aiResponse : jsstring)
      (metadata : Props) (w w' : World) (c0 : Conversation) (e : JsError) :
  find (ownedBy (optConversationId options) (optUserId options)) (conversations w)
  = Some c0 ->
  saveInteraction rt message options metadataType aiResponse metadata w = (inl e, w') ->
  isNotFound e = false.
Proof.
  intros Hfind. unfold saveInteraction.
  destruct (truthy (optConversationId options) && truthy (optUserId options));
    [| discriminate].
  unfold bind.
  destruct (addMessage rt _ _ (VS "user") message _ w) as [[e1 | conv] w1] eqn:Huser.
  - intros H. injection H as <- _.
    exact (addMessage_inl_not_NotFound _ _ _ _ _ _ _ _ _ _ Hfind Huser).
  - destruct (addMessage rt _ _ (VS "assistant") _ _ w1) as [[e2 | conv2] w2] eqn:Hassistant;
      [| discriminate].
    intros H. injection H as <- _.
    apply addMessage_inr in Huser as [c1 [Hfind1 [Hconv ->]]].
    destruct (find_storeDoc_some (ownedBy (optConversationId options) (optUserId options))
                c1 conv (conversations w) Hfind1) as [c2 Hc2].
    { subst conv. apply find_some in Hfind1. unfold ownedBy in *. simpl. tauto. }
    eapply addMessage_inl_not_NotFound; [| exact Hassistant]. exact Hc2.
Qed.

(** Whatever [processLegalQuery] throws, it is never the 404 error: a
    missing conversation surfaces as a 500 error, and once the history
    was loaded the conversation is there for the two [addMessage] calls. *)
Lemma processLegalQuery_never_NotFound (rt : Runtime) (message : JsVal)
      (options : QueryOptions) (w w' : World) (e : JsError) :
  processLegalQuery rt message options w = (inl e, w') ->
  isNotFound e = false.
Proof.
  unfold processLegalQuery.
  change (bind (dateNow rt) ?k w)
    with (k (clockAt rt (clockReads w)) (afterClockRead w)).
  cbv beta. unfold tryCatch.
  match goal with
  | |- context [bind ?m ?k (afterClockRead w)] =>
      destruct (bind m k (afterClockRead w)) as [[err | x] w1] eqn:Hbody
  end; [| discriminate].
  apply rethrowOrWrap_not_NotFound.
  unfold bind in Hbody.
  destruct (answerQuery rt message options _ (afterClockRead w))
    as [[e1 | answered] w2] eqn:Hanswer.
  - (* the failure comes from the steps before persistence *)
    injection Hbody as <- _.
    unfold answerQuery in Hanswer.
    destruct (truthy message); simpl in Hanswer;
      [| injection Hanswer as <- _; reflexivity].
    unfold bind in Hanswer.
    destruct (analyzeIntent_returns rt message (afterClockRead w)) as [intent [w3 Hi]].
    rewrite Hi in Hanswer. unfold lift in Hanswer.
    destruct (mapIntentToMetadataType rt _) as [e2 | metadataType] eqn:Hmap.
    { injection Hanswer as <- _.
      now rewrite (mapIntentToMetadataType_error _ _ _ Hmap). }
    destruct (prepareSystemMessage rt intent _ _) as [e3 | systemMessage] eqn:Hprompt.
    { injection Hanswer as <- _.
      now rewrite (prepareSystemMessage_error _ _ _ _ _ Hprompt). }
    unfold ret at 1 2 in Hanswer.
    destruct (generateAnswer rt message options systemMessage _ w3)
      as [[e4 | answer] w4] eqn:Hgen; [| discriminate].
    injection Hanswer as <- _.
    destruct (generateAnswer_failure_is_500 _ _ _ _ _ _ _ _ Hgen) as [err' ->].
    reflexivity.
  - (* the failure comes from persistence *)
    destruct (saveInteraction rt message options _ _ _ w2) as [[e5 | u] w5] eqn:Hsave;
      [| discriminate].
    injection Hbody as <- _.
    destruct (truthy (optConversationId options) && truthy (optUserId options)) eqn:Hids.
    + unfold answerQuery in Hanswer.
      destruct (truthy message); simpl in Hanswer; [| discriminate].
      unfold bind in Hanswer.
      destruct (analyzeIntent_returns rt message (afterClockRead w)) as [intent [w3 Hi]].
      rewrite Hi in Hanswer. unfold lift in Hanswer.
      destruct (mapIntentToMetadataType rt _); [discriminate |].
      destruct (prepareSystemMessage rt intent _ _); [discriminate |].
      unfold ret at 1 2 in Hanswer.
      destruct (generateAnswer rt message options _ _ w3) as [[e4 | answer] w4] eqn:Hgen;
        [discriminate |].
      unfold ret in Hanswer. injection Hanswer as _ <-.
      destruct (generateAnswer_inr _ _ _ _ _ _ _ _ Hids Hgen) as [c0 Hfind].
      exact (saveInteraction_inl_not_NotFound _ _ _ _ _ _ _ _ _ _ Hfind Hsave).
    + unfold saveInteraction in Hsave. rewrite Hids in Hsave. discriminate.
Qed.

(* ================================================================== *)
(** * Further properties *)

(** ** The fallback loop, call by call *)

Lemma failsBefore_cons (rt : Runtime) (before rest : list ProviderCall) (c : ProviderCall)
      (msg : jsstring) (j : nat) :
  provider rt before c = inl msg ->
  failsBefore rt (before ++ [c]) rest j ->
  failsBefore rt before (c :: rest) (S j).
Proof.
  intros Hc Hrest [| i] Hi.
  - exists msg. now rewrite answerAt_first, Hc.
  - rewrite answerAt_shift. apply Hrest. lia.
Qed.

Lemma tryModels_run {A} (rt : Runtime) (mk : jsstring -> ProviderCall)
      (f : jsstring -> A) (attempt : jsstring -> M A) :
  (forall m w,
      attempt m w
      = (match provider rt (providerCalls w) (mk m) with
         | inr text => inr (f text)
         | inl msg => inl (Error msg)
         end, afterCall w (mk m))) ->
  forall (names : list jsstring) (w w' : World) (r : Result A),
    tryModels attempt names w = (r, w') ->
    fallbackRun rt f (map mk names) w r w'.
Proof.
  intros Hattempt. induction names as [| m rest IH]; intros w w' r Hrun.
  - simpl in Hrun. unfold throw in Hrun. injection Hrun as <- <-.
    split; [apply sameStore_refl |]. simpl.
    split; [reflexivity |]. split; [intros i Hi; lia |].
    split; [now rewrite app_nil_r | lia].
  - rewrite tryModels_step, Hattempt in Hrun.
    destruct (provider rt (providerCalls w) (mk m)) as [msg | text] eqn:Hcall.
    + apply IH in Hrun. destruct Hrun as [Hstore Hr].
      split; [destruct Hstore as [H1 [H2 H3]]; repeat split; assumption |].
      simpl providerCalls in Hr. simpl warnings in Hr. rewrite length_app in Hr.
      simpl List.length in Hr.
      destruct r as [e | x].
      * destruct Hr as [He [Hfail [Hcalls Hwarn]]].
        split; [exact He |].
        split; [simpl; rewrite length_map in *; eapply failsBefore_cons; eassumption |].
        split; [rewrite Hcalls, <- app_assoc; reflexivity |].
        simpl. lia.
      * destruct Hr as [j [t [[Hans Hfail] [Hx [Hcalls Hwarn]]]]].
        exists (S j), t. split.
        { split; [simpl; now rewrite answerAt_shift |].
          simpl. eapply failsBefore_cons; eassumption. }
        split; [exact Hx |].
        split; [rewrite Hcalls, <- app_assoc; reflexivity | lia].
    + injection Hrun as <- <-.
      split; [repeat split |].
      exists 0, text. split.
      { split; [simpl; now rewrite answerAt_first, Hcall | intros i Hi; lia]. }
      split; [reflexivity |]. split; [reflexivity | simpl; lia].
Qed.

(** X1.  With the API key configured, [generateWithGoogleAI] returns the
    text of the first model, in the order of the list, that answers; it
    calls the models before it, which all failed, and none after it, and
    logs one warning per failed model.  When it throws, all three models
    were called and failed.  Every call carries the system prompt (the
    default one when none is given) and the prompt, and nothing else of
    the options; the store is not touched. *)
Theorem generateWithGoogleAI_first_answer :
  forall (rt : Runtime) (prompt : JsVal) (options : GenOptions) (w w' : World)
         (r : Result jsstring),
    googleConfigured rt = true ->
    generateWithGoogleAI rt prompt options w = (r, w') ->
    fallbackRun rt (fun text => text) (map (contentCall prompt options) modelNames) w r w'
    /\ List.length modelNames = 3.
Proof.
  intros rt prompt options w w' r Hcfg Hrun. split; [| reflexivity].
  unfold generateWithGoogleAI in Hrun. rewrite Hcfg in Hrun. simpl negb in Hrun.
  cbv iota in Hrun.
  eapply (tryModels_run rt (contentCall prompt options) (fun text => text));
    [| exact Hrun].
  intros m w0. apply callProvider_attempt.
Qed.

Lemma generateWithGoogleAI_first_answer_witness :
  let rt := Demo.runtime [inl (js "quota exceeded"); inr (js "Here is your NDA.")] None in
  let options := mkOptions VUndefined (VNum 0.7) (VNum 1000) in
  let run := generateWithGoogleAI rt (VS "Draft an NDA") options Demo.emptyWorld in
  googleConfigured rt = true
  /\ fst run = inr (js "Here is your NDA.")
  /\ providerCalls (snd run)
     = [GenerateContent (js "gemini-2.5-flash") [defaultSystemPrompt; VS "Draft an NDA"];
        GenerateContent (js "gemini-1.5-flash") [defaultSystemPrompt; VS "Draft an NDA"]]
  /\ fallbackRun rt (fun text => text)
       (map (contentCall (VS "Draft an NDA") options) modelNames)
       Demo.emptyWorld (fst run) (snd run).
Proof.
  cbv zeta. split; [reflexivity |]. split; [vm_compute; reflexivity |].
  split; [vm_compute; reflexivity |].
  apply (generateWithGoogleAI_first_answer
           (Demo.runtime [inl (js "quota exceeded"); inr (js "Here is your NDA.")] None)
           (VS "Draft an NDA") (mkOptions VUndefined (VNum 0.7) (VNum 1000))
           Demo.emptyWorld _ _ eq_refl (surjective_pairing _)).
Defined.

Lemma toChatTurns_roles (history : list HistoryEntry) :
  Forall (fun t => turnRole t = VS "user" \/ turnRole t = VS "model") (toChatTurns history).
Proof.
  unfold toChatTurns. apply Forall_forall. intros t Hin.
  apply in_map_iff in Hin as [msg [<- _]]. simpl.
  destruct (strictEqStr (entryRole msg) (js "user")); [now left | now right].
Qed.

Lemma toChatTurns_no_system (history : list HistoryEntry) :
  Forall (fun e => strictEqStr (entryRole e) (js "system") = false) history ->
  map turnText (toChatTurns history) = map entryParts history.
Proof.
  unfold toChatTurns. induction 1 as [| e rest He _ IH]; [reflexivity |].
  simpl. rewrite He. simpl. now rewrite IH.
Qed.

(** X2.  With the API key configured, [generateWithChatHistory] follows
    the same fallback: the first model that answers gives the text, the
    models after it are not called.  Each call carries the system
    instruction (the default one when none is given), the prompt, and the
    entries of the history that are not system entries, in order, with
    role [user] for the user and [model] for every other role; when the
    history has no system entry, one turn per entry.  When one of the
    models answers, the call returns. *)
Theorem generateWithChatHistory_first_answer :
  forall (rt : Runtime) (prompt : JsVal) (history : list HistoryEntry)
         (options : GenOptions) (w w' : World) (r : Result ChatResult),
    googleConfigured rt = true ->
    generateWithChatHistory rt prompt history options w = (r, w') ->
    fallbackRun rt
      (fun text =>
         mkChatResult text
           (history ++ [mkEntry (VS "user") prompt; mkEntry (VS "model") (VStr text)]))
      (map (chatCall prompt history options) modelNames) w r w'
    /\ Forall (fun t => turnRole t = VS "user" \/ turnRole t = VS "model")
              (toChatTurns history)
    /\ List.length (toChatTurns history) <= List.length history
    /\ (Forall (fun e => strictEqStr (entryRole e) (js "system") = false) history ->
        map turnText (toChatTurns history) = map entryParts history)
    /\ fallbackRun rt
         (fun text =>
            mkChatResult text
              (history ++ [mkEntry (VS "user") prompt; mkEntry (VS "model") (VStr text)]))
         (map (expectedChatCall prompt history options) modelNames) w r w'
    /\ toChatTurns history = flat_map turnFor history
    /\ (forall j text,
           firstAnswer rt (providerCalls w)
                       (map (expectedChatCall prompt history options) modelNames) j text ->
           r = inr (mkChatResult text
                      (history ++ [mkEntry (VS "user") prompt;
                                   mkEntry (VS "model") (VStr text)]))).
Proof.
  intros rt prompt history options w w' r Hcfg Hrun.
  assert (Hfallback :
    fallbackRun rt
      (fun text =>
         mkChatResult text
           (history ++ [mkEntry (VS "user") prompt; mkEntry (VS "model") (VStr text)]))
      (map (chatCall prompt history options) modelNames) w r w').
  { unfold generateWithChatHistory in Hrun. rewrite Hcfg in Hrun. simpl negb in Hrun.
    cbv iota in Hrun.
    eapply (tryModels_run rt (chatCall prompt history options)); [| exact Hrun].
    intros m w0. unfold bind, ret. fold (chatCall prompt history options m).
    rewrite callProvider_attempt.
    destruct (provider rt (providerCalls w0) (chatCall prompt history options m));
      reflexivity. }
  split; [exact Hfallback |]. split; [apply toChatTurns_roles |].
  split; [unfold toChatTurns; rewrite length_map; apply filter_length_le |].
  split; [apply toChatTurns_no_system |].
  split; [now rewrite <- expected_chat_calls |].
  split; [apply toChatTurns_turnFor |].
  intros j text Hfirst.
  destruct (generateWithChatHistory_answers rt prompt history options w j text
              Hcfg Hfirst) as [w0 Hreturns].
  rewrite Hreturns in Hrun. now injection Hrun as <- _.
Qed.

Lemma generateWithChatHistory_first_answer_witness :
  let rt := Demo.runtime [inl (js "quota exceeded"); inr (js "It needs consent.")] None in
  let history := [mkEntry (VS "system") (VS "Be brief.");
                  mkEntry (VS "user") (VS "What is a lease?");
                  mkEntry (VS "model") (VS "A contract.");
                  mkEntry (VS "user") (VS "Who signs it?");
                  mkEntry (VS "assistant") (VS "Both parties.")] in
  let options := mkOptions (VS "You are terse.") VUndefined VUndefined in
  let turns := [mkTurn (VS "user") (VS "What is a lease?");
                mkTurn (VS "model") (VS "A contract.");
                mkTurn (VS "user") (VS "Who signs it?");
                mkTurn (VS "model") (VS "Both parties.")] in
  let run := generateWithChatHistory rt (VS "And a sublease?") history options
               Demo.emptyWorld in
  googleConfigured rt = true
  /\ flat_map turnFor history = turns
  /\ providerCalls (snd run)
     = [SendMessage (js "gemini-2.5-flash") (VS "You are terse.") turns
                    (VS "And a sublease?");
        SendMessage (js "gemini-1.5-flash") (VS "You are terse.") turns
                    (VS "And a sublease?")]
  /\ fst run
     = inr (mkChatResult (js "It needs consent.")
              (history ++ [mkEntry (VS "user") (VS "And a sublease?");
                           mkEntry (VS "model") (VS "It needs consent.")]))
  /\ fallbackRun rt
       (fun text =>
          mkChatResult text
            (history ++ [mkEntry (VS "user") (VS "And a sublease?");
                         mkEntry (VS "model") (VStr text)]))
       (map (expectedChatCall (VS "And a sublease?") history options) modelNames)
       Demo.emptyWorld (fst run) (snd run)
  /\ toChatTurns history = turns.
Proof.
  cbv zeta. split; [reflexivity |]. split; [reflexivity |].
  split; [vm_compute; reflexivity |].
  destruct (generateWithChatHistory_first_answer
              (Demo.runtime [inl (js "quota exceeded"); inr (js "It needs consent.")] None)
              (VS "And a sublease?")
              [mkEntry (VS "system") (VS "Be brief.");
               mkEntry (VS "user") (VS "What is a lease?");
               mkEntry (VS "model") (VS "A contract.");
               mkEntry (VS "user") (VS "Who signs it?");
               mkEntry (VS "assistant") (VS "Both parties.")]
              (mkOptions (VS "You are terse.") VUndefined VUndefined)
              Demo.emptyWorld _ _ eq_refl (surjective_pairing _))
    as [_ [_ [_ [_ [Hrun [Hturns Hreturns]]]]]].
  split; [| split; [exact Hrun | rewrite Hturns; reflexivity]].
  apply (Hreturns 1 (js "It needs consent.")).
  split; [vm_compute; reflexivity |].
  intros i Hi. assert (i = 0) as -> by lia.
  exists (js "quota exceeded"). vm_compute. reflexivity.
Defined.

(** ** The health check of the adapter *)

Lemma probeModels_step (rt : Runtime) (modelName : jsstring) (rest : list jsstring)
      (w : World) :
  probeModels rt (modelName :: rest) w =
  match provider rt (providerCalls w) (probeCall modelName) with
  | inr _ => (inr true, afterCall w (probeCall modelName))
  | inl msg =>
      probeModels rt rest
        (afterWarning (afterCall w (probeCall modelName))
                      (js "Health check failed for model " ++ modelName ++ js ":") msg)
  end.
Proof.
  simpl. unfold tryCatch, bind, ret. fold (probeCall modelName).
  rewrite callProvider_attempt.
  destruct (provider rt (providerCalls w) (probeCall modelName)); reflexivity.
Qed.

Lemma probeModels_run (rt : Runtime) (names : list jsstring) :
  forall (w w' : World) (r : Result bool),
    probeModels rt names w = (r, w') ->
    exists b,
      r = inr b
      /\ fallbackRun rt (fun _ => tt) (map probeCall names) w
           (if b then inr tt else inl allModelsFailed) w'.
Proof.
  induction names as [| m rest IH]; intros w w' r Hrun.
  - simpl in Hrun. unfold ret in Hrun. injection Hrun as <- <-.
    exists false. split; [reflexivity |].
    split; [apply sameStore_refl |]. simpl.
    split; [reflexivity |]. split; [intros i Hi; lia |].
    split; [now rewrite app_nil_r | lia].
  - rewrite probeModels_step in Hrun.
    destruct (provider rt (providerCalls w) (probeCall m)) as [msg | text] eqn:Hcall.
    + apply IH in Hrun. destruct Hrun as [b [-> [Hstore Hr]]].
      exists b. split; [reflexivity |].
      split; [destruct Hstore as [H1 [H2 H3]]; repeat split; assumption |].
      simpl providerCalls in Hr. simpl warnings in Hr. rewrite length_app in Hr.
      simpl List.length in Hr.
      destruct b.
      * destruct Hr as [j [t [[Hans Hfail] [Hx [Hcalls Hwarn]]]]].
        exists (S j), t. split.
        { split; [simpl; now rewrite answerAt_shift |].
          simpl. eapply failsBefore_cons; eassumption. }
        split; [reflexivity |].
        split; [rewrite Hcalls, <- app_assoc; reflexivity | lia].
      * destruct Hr as [He [Hfail [Hcalls Hwarn]]].
        split; [exact He |].
        split; [simpl; rewrite length_map in *; eapply failsBefore_cons; eassumption |].
        split; [rewrite Hcalls, <- app_assoc; reflexivity |].
        simpl. lia.
    + injection Hrun as <- <-. exists true. split; [reflexivity |].
      split; [repeat split |].
      exists 0, text. split.
      { split; [simpl; now rewrite answerAt_first, Hcall | intros i Hi; lia]. }
      split; [reflexivity |]. split; [reflexivity | simpl; lia].
Qed.

(** X3.  [healthCheck] never throws and returns [{ google: b }].  Without
    an API key [b] is false and nothing is called.  With one, the models
    are probed in the order of the list until one answers: [b] is true
    exactly when one did, the models after it are not probed, and each
    failed probe is logged as a warning. *)
Theorem healthCheck_reports_first_answer :
  forall (rt : Runtime) (w : World),
  exists b w',
    healthCheck rt w = (inr [(js "google", VBool b)], w')
    /\ if googleConfigured rt then
         fallbackRun rt (fun _ => tt) (map probeCall modelNames) w
           (if b then inr tt else inl allModelsFailed) w'
       else b = false /\ w' = w.
Proof.
  intros rt w. unfold healthCheck. destruct (googleConfigured rt).
  - unfold tryCatch, bind, ret.
    destruct (probeModels rt modelNames w) as [r w'] eqn:Hrun.
    destruct (probeModels_run rt modelNames w w' r Hrun) as [b [-> Hr]].
    exists b, w'. split; [reflexivity | exact Hr].
  - exists false, w. repeat split.
Qed.

(** ** Lookups in the tables of the services *)

Lemma lookup_values (key : jsstring) (props : Props) (v : JsVal) :
  lookup key props = Some v -> In v (map snd props).
Proof.
  induction props as [| [k x] rest IH]; simpl; [discriminate |].
  destruct (str_eqb k key); [intros H; injection H as ->; now left | auto].
Qed.

Lemma truthy_jsOr (a b : JsVal) : truthy b = true -> truthy (jsOr a b) = true.
Proof. intros H. unfold jsOr. destruct (truthy a) eqn:E; assumption. Qed.

Lemma toStr_string (rt : Runtime) (s : jsstring) : toStr rt (VStr s) = inr s.
Proof. reflexivity. Qed.


(** X5.  For a clause type that is a string and not the name of a
    property of [Object.prototype], [getFallbackClause] returns one of
    its five clause texts, the default one for every type it does not
    list.  For the name of a property of [Object.prototype] it returns
    the inherited built-in.  Whatever is returned is truthy. *)
Theorem getFallbackClause_default :
  forall (rt : Runtime),
    (forall type : jsstring,
        existsb (str_eqb type) objectPrototypeNames = false ->
        exists clause,
          getFallbackClause rt (VStr type) = inr clause
          /\ In clause (map snd fallbackClauses)
          /\ (lookup type fallbackClauses = None ->
              clause = VS "Standard legal clause for the specified context."))
    /\ (forall type : jsstring,
           existsb (str_eqb type) objectPrototypeNames = true ->
           getFallbackClause rt (VStr type) = inr (VNative type))
    /\ (forall (type clause : JsVal),
           getFallbackClause rt type = inr clause -> truthy clause = true).
Proof.
  intros rt. split; [| split].
  - intros type Hproto. unfold getFallbackClause.
    rewrite toStr_string, Hproto.
    destruct (lookup type fallbackClauses) as [v |] eqn:Hlookup.
    + apply lookup_values in Hlookup. simpl in Hlookup.
      repeat (destruct Hlookup as [<- | Hlookup];
              [eexists; split; [reflexivity |];
               split; [vm_compute; tauto | discriminate] |]).
      destruct Hlookup.
    + eexists. split; [reflexivity |]. split; [vm_compute; tauto | reflexivity].
  - intros type Hproto. apply existsb_str_eqb in Hproto. simpl in Hproto.
    repeat (destruct Hproto as [<- | Hproto]; [reflexivity |]).
    destruct Hproto.
  - intros type clause. unfold getFallbackClause.
    destruct (toStr rt type); [discriminate |].
    intros H. injection H as <-. now apply truthy_jsOr.
Qed.

(** ** The provider rotation *)

Lemma getNextProvider_in_range (s : AdapterState) (c : nat) :
  currentProvider s = Some c ->
  c < List.length (providers s) ->
  exists p,
    getNextProvider s
    = (VStr p,
       mkAdapterState (providers s) (Some ((c + 1) mod List.length (providers s))))
    /\ In p (providers s).
Proof.
  intros Hc Hlt. unfold getNextProvider. rewrite Hc.
  destruct (List.length (providers s)) as [| len] eqn:Hlen; [lia |].
  assert (Hc1 : (c + 1) mod S len < List.length (providers s))
    by (rewrite Hlen; apply Nat.mod_upper_bound; lia).
  destruct (nth_error (providers s) ((c + 1) mod S len)) as [p |] eqn:Hp;
    [| apply nth_error_None in Hp; lia].
  exists p. split; [reflexivity | eapply nth_error_In; eassumption].
Qed.

Lemma nextProviders_state (n : nat) :
  forall (s : AdapterState) (c : nat),
    currentProvider s = Some c ->
    c < List.length (providers s) ->
    snd (nextProviders n s)
    = mkAdapterState (providers s) (Some ((c + n) mod List.length (providers s)))
    /\ Forall (fun v => exists p, v = VStr p /\ In p (providers s))
              (fst (nextProviders n s)).
Proof.
  induction n as [| n IH]; intros s c Hc Hlt.
  - simpl. rewrite Nat.add_0_r, Nat.mod_small by exact Hlt.
    split; [destruct s; simpl in *; now subst | constructor].
  - cbn [nextProviders].
    destruct (getNextProvider_in_range s c Hc Hlt) as [p [-> Hp]].
    set (c1 := (c + 1) mod List.length (providers s)).
    assert (Hc1 : c1 < List.length (providers s))
      by (apply Nat.mod_upper_bound; lia).
    destruct (IH (mkAdapterState (providers s) (Some c1)) c1 eq_refl Hc1)
      as [Hstate Hall].
    destruct (nextProviders n (mkAdapterState (providers s) (Some c1))) as [ps s2].
    simpl in *. split.
    + rewrite Hstate. f_equal. f_equal. unfold c1.
      rewrite Nat.Div0.add_mod_idemp_l. f_equal. lia.
    + constructor; [| exact Hall].
      exists p. split; [reflexivity | exact Hp].
Qed.

(** X6.  [getNextProvider] walks the provider list in a circle: from an
    index inside a non-empty list, [n] calls leave the index at
    [(c + n)] modulo the length, every call returns a provider of the
    list, and as many calls as there are providers bring the adapter back
    to the state it started from.  The adapter as constructed, with the
    one provider google, returns google on every call. *)
Theorem getNextProvider_round_robin :
  (forall (s : AdapterState) (c n : nat),
      currentProvider s = Some c ->
      c < List.length (providers s) ->
      currentProvider (snd (nextProviders n s))
      = Some ((c + n) mod List.length (providers s))
      /\ Forall (fun v => exists p, v = VStr p /\ In p (providers s))
                (fst (nextProviders n s))
      /\ snd (nextProviders (List.length (providers s)) s) = s)
  /\ (forall n, nextProviders n newAdapterState = (repeat (VS "google") n, newAdapterState)).
Proof.
  split.
  - intros s c n Hc Hlt.
    destruct (nextProviders_state n s c Hc Hlt) as [Hstate Hall].
    split; [now rewrite Hstate |]. split; [exact Hall |].
    destruct (nextProviders_state (List.length (providers s)) s c Hc Hlt) as [Hback _].
    rewrite Hback.
    replace ((c + List.length (providers s)) mod List.length (providers s)) with c.
    + destruct s; simpl in *; now subst.
    + rewrite <- Nat.Div0.add_mod_idemp_r, Nat.Div0.mod_same, Nat.add_0_r.
      symmetry. now apply Nat.mod_small.
  - induction n as [| n IH]; [reflexivity |].
    cbn [nextProviders].
    change (getNextProvider newAdapterState) with (VS "google", newAdapterState).
    cbv iota beta. rewrite IH. reflexivity.
Qed.

(** ** Trimming and splitting *)

Lemma trimStart_headClean (s : jsstring) : headClean (trimStart s).
Proof.
  induction s as [| c s IH]; simpl; [exact I |].
  destruct (isWhiteSpace c) eqn:E; [exact IH | exact E].
Qed.

Lemma trimStart_clean (s : jsstring) : headClean s -> trimStart s = s.
Proof. destruct s as [| c s]; simpl; [reflexivity | intros ->; reflexivity]. Qed.

Lemma trimStart_snoc (x : jsstring) (c : N) :
  isWhiteSpace c = false -> exists y, trimStart (x ++ [c]) = y ++ [c].
Proof.
  intros Hc. induction x as [| d x IH]; simpl.
  - rewrite Hc. now exists [].
  - destruct (isWhiteSpace d); [exact IH | now exists (d :: x)].
Qed.

Lemma trimEnd_headClean (s : jsstring) : headClean s -> headClean (trimEnd s).
Proof.
  destruct s as [| c t]; [intros _; exact I |].
  simpl. intros Hc. unfold trimEnd. simpl rev.
  destruct (trimStart_snoc (rev t) c Hc) as [y ->].
  rewrite rev_app_distr. simpl. exact Hc.
Qed.

Lemma trim_clean (s : jsstring) : headClean (trim s) /\ headClean (rev (trim s)).
Proof.
  unfold trim. split.
  - apply trimEnd_headClean, trimStart_headClean.
  - unfold trimEnd. rewrite rev_involutive. apply trimStart_headClean.
Qed.

Lemma trim_idempotent (s : jsstring) : trim (trim s) = trim s.
Proof.
  destruct (trim_clean s) as [Hhead Hlast].
  unfold trim at 1. rewrite (trimStart_clean _ Hhead).
  unfold trimEnd. rewrite (trimStart_clean _ Hlast). apply rev_involutive.
Qed.

Lemma splitScan_nonempty (r : Regex) (s : jsstring) :
  forall (skip : nat) (cur : jsstring), splitScan r skip cur s <> [].
Proof.
  induction s as [| c rest IH]; intros skip cur; simpl; [discriminate |].
  destruct skip; [| apply IH].
  destruct (matchAt r (c :: rest)) as [[| len] |]; try discriminate; try apply IH.
  destruct cur; [apply IH | discriminate].
Qed.

Lemma splitScanBy_nonempty (sepAt : jsstring -> option nat) (s : jsstring) :
  forall (skip : nat) (cur : jsstring), splitScanBy sepAt skip cur s <> [].
Proof.
  induction s as [| c rest IH]; intros skip cur; simpl; [discriminate |].
  destruct skip; [| apply IH].
  destruct (sepAt (c :: rest)) as [[| len] |]; try discriminate; try apply IH.
  destruct cur; [apply IH | discriminate].
Qed.

Lemma split_lines_nonempty (s : jsstring) : split (RChar (N.eqb 10)) s <> [].
Proof.
  destruct s as [| c rest]; [discriminate |]. apply splitScan_nonempty.
Qed.

Lemma sectionOfText_trimmed (index : nat) (section : jsstring) :
  exists title content,
    sectionOfText index section = inr (sectionObject title content (index + 1))
    /\ trim title = title /\ trim content = content.
Proof.
  unfold sectionOfText.
  destruct (split (RChar (N.eqb 10)) section) as [| title contentParts] eqn:E.
  - exfalso. exact (split_lines_nonempty section E).
  - eexists. eexists. split; [reflexivity |]. split; apply trim_idempotent.
Qed.

Lemma mapSections_numbered (sections : list jsstring) :
  forall index,
  exists l,
    mapSections index sections = inr (numbered index l)
    /\ List.length l = List.length sections
    /\ Forall (fun tc => trim (fst tc) = fst tc /\ trim (snd tc) = snd tc) l.
Proof.
  induction sections as [| section rest IH]; intros index.
  - exists []. repeat split. constructor.
  - simpl. destruct (sectionOfText_trimmed index section) as [t [c [-> [Ht Hc]]]].
    destruct (IH (S index)) as [l [-> [Hlen Hall]]].
    exists ((t, c) :: l). split; [reflexivity |].
    split; [simpl; now rewrite Hlen |]. constructor; [split; assumption | exact Hall].
Qed.

(** X7.  On a string, [parseSectionsFromText] never throws and returns at
    least one section; the sections are numbered 1, 2, 3, ... in the
    order of the text, one per piece of the text cut before its heading
    lines, and every title and every content is trimmed.  On anything
    that is not a string it throws. *)
Theorem parseSectionsFromText_numbered :
  (forall s : jsstring,
      exists l,
        parseSectionsFromText (VStr s) = inr (VArr (numbered 0 l))
        /\ l <> []
        /\ List.length l = List.length (splitBy sectionBreakAt s)
        /\ Forall (fun tc => trim (fst tc) = fst tc /\ trim (snd tc) = snd tc) l)
  /\ (forall text : JsVal,
         isString text = false -> exists e, parseSectionsFromText text = inl e).
Proof.
  split.
  - intros s. unfold parseSectionsFromText.
    destruct (mapSections_numbered (splitBy sectionBreakAt s) 0) as [l [-> [Hlen Hall]]].
    exists l. split; [reflexivity |]. split; [| split; assumption].
    intros ->. simpl in Hlen. symmetry in Hlen. apply length_zero_iff_nil in Hlen.
    revert Hlen. unfold splitBy. destruct s as [| c rest]; [discriminate |].
    apply splitScanBy_nonempty.
  - intros text Hns. destruct text; try discriminate; simpl; eauto.
Qed.

Example parseSectionsFromText_two_sections :
  parseSectionsFromText
    (VStr (js "Parties: Alice and Bob" ++ LF ++ js " both of London " ++ LF
           ++ js "Term: one year"))
  = inr (VArr [sectionObject (js "Parties Alice and Bob") (js "both of London") 1;
               sectionObject (js "Term one year") [] 2]).
Proof. vm_compute. reflexivity. Qed.

Lemma kept_lines_start_with_verb (verbs lines : list jsstring) (x : jsstring) :
  In x (map trim (filter (fun line => existsb (startsWith (trim line)) verbs) lines)) ->
  exists line verb,
    In line lines /\ x = trim line /\ In verb verbs /\ startsWith x verb = true.
Proof.
  intros Hin. apply in_map_iff in Hin as [line [<- Hline]].
  apply filter_In in Hline as [Hline Hverb].
  apply existsb_exists in Hverb as [verb [Hverb Hstarts]].
  exists line, verb. repeat split; assumption.
Qed.

(** X8.  Every suggestion [extractSuggestions] returns is a line of the
    text, trimmed: it is not empty, has no white space at either end, and
    starts with one of the action verbs.  There are at most as many
    suggestions as lines. *)
Theorem extractSuggestions_trimmed :
  forall text : JsVal,
    Forall (fun x =>
              trim x = x /\ x <> []
              /\ (exists verb, In verb actionVerbs /\ startsWith x verb = true)
              /\ (exists line, In line (split lineBreak (stringOf text)) /\ x = trim line))
           (extractSuggestions text)
    /\ List.length (extractSuggestions text)
       <= List.length (split lineBreak (stringOf text)).
Proof.
  intros text. unfold extractSuggestions.
  destruct (notText text); [split; [constructor | simpl; lia] |].
  cbv zeta. rewrite (fold_scanVerbs actionVerbs), app_nil_l. split.
  - apply Forall_forall. intros x Hin.
    apply kept_lines_start_with_verb in Hin
      as [line [verb [Hline [-> [Hverb Hstarts]]]]].
    split; [apply trim_idempotent |]. split; [| split].
    + intros Hempty. rewrite Hempty in Hstarts.
      simpl in Hverb.
      repeat (destruct Hverb as [<- | Hverb]; [discriminate Hstarts |]).
      destruct Hverb.
    + exists verb. split; assumption.
    + exists line. split; [assumption | reflexivity].
  - rewrite length_map. apply filter_length_le.
Qed.

(** ** Cached generation *)

Lemma generateContent_cases (rt : Runtime) (cache : CacheService) (prompt : JsVal)
      (options : ContentOptions) (s : Session) :
  let run := generateContent rt cache prompt options s in
  let ttl := jsOr (cacheTTL options) (VNum 3600) in
  (exists msg,
      cacheLookup cache (cacheWrites s) prompt = inl msg /\ run = (inl (Error msg), s))
  \/ (exists v,
         cacheLookup cache (cacheWrites s) prompt = inr v /\ truthy v = true
         /\ run = (inr v, mkSession (world s) (cacheWrites s)
                                    (infoLog s ++ [js "Using cached AI response"])
                                    (errorLog s)))
  \/ (exists v r w',
         cacheLookup cache (cacheWrites s) prompt = inr v /\ truthy v = false
         /\ generateWithGoogleAI rt prompt (genOptions options) (world s) = (r, w')
         /\ match r with
            | inl e =>
                run = (inl e,
                       mkSession w' (cacheWrites s) (infoLog s)
                                 (errorLog s ++ [(js "Google AI failed:", LogText (messageOf e))]))
            | inr text =>
                match cacheWriteFault cache (cacheWrites s) (mkCacheWrite prompt text ttl) with
                | None =>
                    run = (inr (VStr text),
                           mkSession w' (cacheWrites s ++ [mkCacheWrite prompt text ttl])
                                     (infoLog s) (errorLog s))
                | Some msg =>
                    run = (inl (Error msg),
                           mkSession w' (cacheWrites s) (infoLog s)
                                     (errorLog s ++ [(js "Google AI failed:", LogText msg)]))
                end
            end).
Proof.
  cbv zeta.
  destruct (cacheLookup cache (cacheWrites s) prompt) as [msg | v] eqn:Hlookup.
  - left. exists msg. split; [reflexivity |].
    unfold generateContent, bindS, getCachedAIResponse. now rewrite Hlookup.
  - right. destruct (truthy v) eqn:Htruthy.
    + left. exists v. split; [reflexivity |]. split; [exact Htruthy |].
      unfold generateContent, bindS, getCachedAIResponse.
      now rewrite Hlookup, Htruthy.
    + right.
      destruct (generateWithGoogleAI rt prompt (genOptions options) (world s))
        as [r w'] eqn:Hgen.
      exists v, r, w'. split; [reflexivity |]. split; [exact Htruthy |].
      split; [reflexivity |].
      unfold generateContent, bindS, getCachedAIResponse, tryCatchS, inWorld.
      rewrite Hlookup, Htruthy, Hgen.
      destruct r as [e | text]; [reflexivity |].
      unfold cacheAIResponse. cbn [cacheWrites world infoLog errorLog].
      destruct (cacheWriteFault cache (cacheWrites s)
                  (mkCacheWrite prompt text (jsOr (cacheTTL options) (VNum 3600))));
        reflexivity.
Qed.

Lemma generateContent_served (rt : Runtime) (cache : CacheService) (prompt : JsVal)
      (options : ContentOptions) (s s' : Session) (v : JsVal) :
  generateContent rt cache prompt options s = (inr v, s') ->
  servedFor rt cache prompt options s v.
Proof.
  intros Hrun.
  destruct (generateContent_cases rt cache prompt options s)
    as [[msg [_ H]] | [[v0 [Hlookup [Htruthy H]]] | [v0 [r [w' [_ [_ [Hgen H]]]]]]]];
    cbv zeta in H.
  - rewrite H in Hrun. discriminate.
  - rewrite H in Hrun. injection Hrun as <- _. left. split; assumption.
  - destruct r as [e | text].
    + rewrite H in Hrun. discriminate.
    + destruct (cacheWriteFault cache (cacheWrites s) _).
      * rewrite H in Hrun. discriminate.
      * rewrite H in Hrun. injection Hrun as <- _. right. exists text.
        split; [reflexivity |]. now rewrite Hgen.
Qed.


Lemma liftS_inr {A} (r : Result A) (s s' : Session) (x : A) :
  liftS r s = (inr x, s') -> r = inr x /\ s' = s.
Proof.
  destruct r as [e | y]; simpl; unfold throwS, retS; intros H.
  - discriminate.
  - injection H as <- <-. split; reflexivity.
Qed.



(** X12.  [generateContractSections] can only throw while it builds its
    prompt, before anything is read or written, and it always throws
    there when [parties] is missing.  Otherwise what it returns is fixed
    by the generation: when that fails, the six fallback sections; when
    it gives a response that parses as JSON, the parsed value; when the
    response is not JSON, the sections read from its text, or the six
    fallback sections when that reading fails too. *)
Theorem generateContractSections_falls_back :
  forall (rt : Runtime) (cache : CacheService) (contractType : JsVal)
         (parties : option (list JsVal)) (s : Session),
    let run := generateContractSections rt cache contractType parties s in
    match fst run with
    | inl e => sectionsPrompt rt contractType parties = inl e /\ snd run = s
    | inr v =>
        exists prompt,
          sectionsPrompt rt contractType parties = inr prompt
          /\ match fst (generateContent rt cache (VStr prompt) sectionsOptions s) with
             | inl _ => v = getFallbackSections contractType
             | inr response =>
                 servedFor rt cache (VStr prompt) sectionsOptions s response
                 /\ match parsedAsJson rt response with
                    | Some parsed => v = parsed
                    | None =>
                        match parseSectionsFromText response with
                        | inr sections => v = sections
                        | inl _ => v = getFallbackSections contractType
                        end
                    end
             end
    end
    /\ (parties = None -> exists e, fst run = inl e)
    /\ (exists sections,
           getFallbackSections contractType = VArr sections
           /\ List.length sections = 6).
Proof.
  intros rt cache contractType parties s. cbv zeta.
  assert (Hmain :
    match fst (generateContractSections rt cache contractType parties s) with
    | inl e => sectionsPrompt rt contractType parties = inl e
               /\ snd (generateContractSections rt cache contractType parties s) = s
    | inr v =>
        exists prompt,
          sectionsPrompt rt contractType parties = inr prompt
          /\ match fst (generateContent rt cache (VStr prompt) sectionsOptions s) with
             | inl _ => v = getFallbackSections contractType
             | inr response =>
                 servedFor rt cache (VStr prompt) sectionsOptions s response
                 /\ match parsedAsJson rt response with
                    | Some parsed => v = parsed
                    | None =>
                        match parseSectionsFromText response with
                        | inr sections => v = sections
                        | inl _ => v = getFallbackSections contractType
                        end
                    end
             end
    end).
  { unfold generateContractSections, bindS at 1.
    destruct (sectionsPrompt rt contractType parties) as [e | prompt] eqn:Hprompt.
    - simpl. split; reflexivity.
    - simpl liftS. unfold retS at 1. unfold tryCatchS at 1.
      fold sectionsOptions. unfold bindS at 1.
      destruct (generateContent rt cache (VStr prompt) sectionsOptions s)
        as [[e | response] s1] eqn:Hgen.
      + simpl. exists prompt. split; [reflexivity |]. now rewrite Hgen.
      + pose proof (generateContent_served _ _ _ _ _ _ _ Hgen) as Hserved.
        unfold tryCatchS, bindS, parsedAsJson.
        destruct (toStr rt response) as [e | text] eqn:Htext; simpl liftS.
        * unfold throwS at 1.
          destruct (parseSectionsFromText response) as [e' | sections] eqn:Hparse; simpl;
            exists prompt; (split; [reflexivity |]); rewrite Hgen; cbn [fst];
            (split; [exact Hserved |]); unfold parsedAsJson;
            rewrite Htext, ?Hparse; reflexivity.
        * unfold retS at 1.
          destruct (JSON_parse rt text) as [msg | v] eqn:Hjson.
          -- unfold throwS at 1.
             destruct (parseSectionsFromText response) as [e' | sections] eqn:Hparse;
               simpl; exists prompt; (split; [reflexivity |]); rewrite Hgen; cbn [fst];
               (split; [exact Hserved |]); unfold parsedAsJson;
               rewrite Htext, Hjson, ?Hparse; reflexivity.
          -- simpl. exists prompt. split; [reflexivity |]. rewrite Hgen. cbn [fst].
             split; [exact Hserved |]. unfold parsedAsJson.
             now rewrite Htext, Hjson. }
  split; [exact Hmain |]. split.
  - intros ->.
    destruct (fst (generateContractSections rt cache contractType None s)) as [e | v].
    + now exists e.
    + destruct Hmain as [prompt [Hprompt _]]. unfold sectionsPrompt in Hprompt.
      destruct (toStr rt contractType); discriminate.
  - eexists. split; reflexivity.
Qed.

Example generateContractSections_three_outcomes :
  let run script :=
    fst (generateContractSections (Demo.runtime script None) Demo.noCache
           (VS "lease") (Some [VS "Alice"; VS "Bob"]) Demo.emptySession) in
  run [inr Demo.adjustJson] = inr (VObj [(js "type", VS "adjust")])
  /\ run [inr (js "Term: one year")]
     = inr (VArr [sectionObject (js "Term one year") [] 1])
  /\ run [] = inr (getFallbackSections (VS "lease")).
Proof. cbv zeta. repeat split; vm_compute; reflexivity. Qed.

(** ** What a request does to the world, step by step *)

Section Pipeline.

Variable rt : Runtime.

(** A family of relations on worlds, indexed by a budget, that the steps
    of a request compose along. *)
Variable R : nat -> World -> World -> Prop.

Hypothesis R_zero : forall w, R 0 w w.
Hypothesis R_sub : forall a b w w', a <= b -> R a w w' -> R b w w'.
Hypothesis R_comp : forall a b w1 w2 w3, R a w1 w2 -> R b w2 w3 -> R (a + b) w1 w3.
Hypothesis R_call : forall c, keeps (R 1) (callProvider rt c).
Hypothesis R_warn : forall a b, keeps (R 0) (loggerWarn a b).
Hypothesis R_clock : keeps (R 0) (dateNow rt).

Lemma keeps_ret {A} (x : A) : keeps (R 0) (ret x).
Proof. intros w r w' H. injection H as _ <-. apply R_zero. Qed.

Lemma keeps_throw {A} (e : JsError) : keeps (R 0) (@throw A e).
Proof. intros w r w' H. injection H as _ <-. apply R_zero. Qed.

Lemma keeps_lift {A} (x : Result A) : keeps (R 0) (lift x).
Proof. destruct x; [apply keeps_throw | apply keeps_ret]. Qed.

Lemma keeps_sub {A} (a b : nat) (m : M A) : a <= b -> keeps (R a) m -> keeps (R b) m.
Proof. intros Hab Hm w r w' H. eapply R_sub; [exact Hab | exact (Hm _ _ _ H)]. Qed.

Lemma keeps_bind {A B} (a b : nat) (m : M A) (k : A -> M B) :
  keeps (R a) m -> (forall x, keeps (R b) (k x)) -> keeps (R (a + b)) (bind m k).
Proof.
  intros Hm Hk w r w'. unfold bind. destruct (m w) as [[e | x] w1] eqn:E.
  - intros H. injection H as _ <-. eapply R_sub; [| exact (Hm _ _ _ E)]. lia.
  - intros H. eapply R_comp; [exact (Hm _ _ _ E) | exact (Hk _ _ _ _ H)].
Qed.

Lemma keeps_tryCatch {A} (a b : nat) (m : M A) (h : JsError -> M A) :
  keeps (R a) m -> (forall e, keeps (R b) (h e)) -> keeps (R (a + b)) (tryCatch m h).
Proof.
  intros Hm Hh w r w'. unfold tryCatch. destruct (m w) as [[e | x] w1] eqn:E.
  - intros H. eapply R_comp; [exact (Hm _ _ _ E) | exact (Hh _ _ _ _ H)].
  - intros H. injection H as _ <-. eapply R_sub; [| exact (Hm _ _ _ E)]. lia.
Qed.

Lemma keeps_rethrowOrWrap {A} (prefix : string) (error : JsError) :
  keeps (R 0) (@rethrowOrWrap A prefix error).
Proof. unfold rethrowOrWrap. destruct (isAPIError error); apply keeps_throw. Qed.

Lemma keeps_tryModels {A} (attempt : jsstring -> M A) (names : list jsstring) :
  (forall modelName, keeps (R 1) (attempt modelName)) ->
  keeps (R (List.length names)) (tryModels attempt names).
Proof.
  intros Hattempt. induction names as [| modelName rest IH]; simpl.
  - apply keeps_throw.
  - apply (keeps_tryCatch 1 (List.length rest)); [apply Hattempt |].
    intros e. apply (keeps_bind 0 (List.length rest)); [apply R_warn |].
    intros _. exact IH.
Qed.

Lemma keeps_generateWithGoogleAI (prompt : JsVal) (options : GenOptions) :
  keeps (R 3) (generateWithGoogleAI rt prompt options).
Proof.
  unfold generateWithGoogleAI. destruct (negb (googleConfigured rt)).
  - apply (keeps_sub 0 3); [lia | apply keeps_throw].
  - apply (keeps_tryModels _ modelNames). intros modelName. apply R_call.
Qed.

Lemma keeps_generateWithChatHistory (prompt : JsVal) (history : list HistoryEntry)
      (options : GenOptions) :
  keeps (R 3) (generateWithChatHistory rt prompt history options).
Proof.
  unfold generateWithChatHistory. destruct (negb (googleConfigured rt)).
  - apply (keeps_sub 0 3); [lia | apply keeps_throw].
  - apply (keeps_tryModels _ modelNames). intros modelName.
    apply (keeps_bind 1 0); [apply R_call |]. intros x. apply keeps_ret.
Qed.

Lemma keeps_jsonParse (text : jsstring) : keeps (R 0) (jsonParse rt text).
Proof.
  unfold jsonParse. destruct (JSON_parse rt text); [apply keeps_throw | apply keeps_ret].
Qed.

Lemma keeps_analyzeIntent (message : JsVal) : keeps (R 3) (analyzeIntent rt message).
Proof.
  unfold analyzeIntent.
  apply (keeps_tryCatch 3 0); [| intros e; apply keeps_ret].
  apply (keeps_bind 3 0); [apply keeps_generateWithGoogleAI |]. intros responseText.
  apply (keeps_bind 0 0).
  - apply (keeps_tryCatch 0 0); [apply keeps_jsonParse |]. intros e.
    destruct (firstMatch braceRegex responseText);
      [apply keeps_jsonParse | apply keeps_throw].
  - intros result. apply (keeps_bind 0 0); [apply keeps_lift |]. intros type.
    apply (keeps_bind 0 0); [apply keeps_lift |]. intros clauseType.
    apply (keeps_bind 0 0); [apply keeps_lift |]. intros confidence.
    apply keeps_ret.
Qed.

Lemma keeps_generateAnswer (message : JsVal) (options : QueryOptions)
      (systemMessage : jsstring) (startTime : float) :
  keeps (R 0) (loadHistory rt options) ->
  keeps (R 3) (generateAnswer rt message options systemMessage startTime).
Proof.
  intros Hload. unfold generateAnswer.
  apply (keeps_tryCatch 3 0); [| intros e; apply keeps_throw].
  apply (keeps_bind 0 3); [exact Hload |]. intros history.
  apply (keeps_bind 3 0).
  - destruct history.
    + apply keeps_generateWithGoogleAI.
    + apply (keeps_bind 3 0); [apply keeps_generateWithChatHistory |].
      intros result. apply keeps_ret.
  - intros aiResponse. apply (keeps_bind 0 0); [apply R_clock |].
    intros now. apply keeps_ret.
Qed.

Lemma keeps_processLegalQuery (message : JsVal) (options : QueryOptions) :
  keeps (R 0) (loadHistory rt options) ->
  (forall metadataType aiResponse metadata,
      keeps (R 0) (saveInteraction rt message options metadataType aiResponse metadata)) ->
  keeps (R 6) (processLegalQuery rt message options).
Proof.
  intros Hload Hsave. unfold processLegalQuery.
  apply (keeps_bind 0 6); [apply R_clock |]. intros startTime.
  apply (keeps_tryCatch 6 0); [| intros e; apply keeps_rethrowOrWrap].
  apply (keeps_bind 6 0).
  - unfold answerQuery. destruct (negb (truthy message)).
    + apply (keeps_sub 0 6); [lia | apply keeps_throw].
    + apply (keeps_bind 3 3); [apply keeps_analyzeIntent |]. intros intent.
      apply (keeps_bind 0 3); [apply keeps_lift |]. intros metadataType.
      apply (keeps_bind 0 3); [apply keeps_lift |]. intros systemMessage.
      apply (keeps_bind 3 0); [now apply keeps_generateAnswer |].
      intros answer. apply keeps_ret.
  - intros answered. apply (keeps_bind 0 0); [apply Hsave |].
    intros _. apply keeps_ret.
Qed.

End Pipeline.

Lemma grows_zero (w : World) : grows 0 w w.
Proof. exists []. split; [now rewrite app_nil_r | simpl; lia]. Qed.

Lemma grows_same_calls (w w' : World) :
  providerCalls w' = providerCalls w -> grows 0 w w'.
Proof. intros H. exists []. split; [now rewrite app_nil_r | simpl; lia]. Qed.

Lemma grows_sub (a b : nat) (w w' : World) : a <= b -> grows a w w' -> grows b w w'.
Proof. intros Hab [calls [Hcalls Hlen]]. exists calls. split; [exact Hcalls | lia]. Qed.

Lemma grows_comp (a b : nat) (w1 w2 w3 : World) :
  grows a w1 w2 -> grows b w2 w3 -> grows (a + b) w1 w3.
Proof.
  intros [c1 [H1 L1]] [c2 [H2 L2]]. exists (c1 ++ c2). split.
  - now rewrite H2, H1, app_assoc.
  - rewrite length_app. lia.
Qed.

Lemma grows_call (rt : Runtime) (c : ProviderCall) : keeps (grows 1) (callProvider rt c).
Proof.
  intros w r w'. unfold callProvider.
  destruct (provider rt (providerCalls w) c); intros H; injection H as _ <-;
    exists [c]; split; reflexivity || (simpl; lia).
Qed.

Lemma grows_warn (a b : jsstring) : keeps (grows 0) (loggerWarn a b).
Proof. intros w r w' H. injection H as _ <-. now apply grows_same_calls. Qed.

Lemma grows_clock (rt : Runtime) : keeps (grows 0) (dateNow rt).
Proof. intros w r w' H. injection H as _ <-. now apply grows_same_calls. Qed.

Lemma grows_dbOp (rt : Runtime) : keeps (grows 0) (dbOp rt).
Proof.
  intros w r w'. unfold dbOp. destruct (dbFault rt (dbOps w));
    intros H; injection H as _ <-; now apply grows_same_calls.
Qed.

Lemma grows_getConversation (rt : Runtime) (conversationId owner : JsVal) :
  keeps (grows 0) (getConversation rt conversationId owner).
Proof.
  unfold getConversation.
  apply (keeps_tryCatch grows grows_sub grows_comp 0 0);
    [| intros e; apply (keeps_rethrowOrWrap grows grows_zero)].
  destruct (negb (truthy conversationId)); [apply (keeps_throw grows grows_zero) |].
  destruct (negb (truthy owner)); [apply (keeps_throw grows grows_zero) |].
  apply (keeps_bind grows grows_sub grows_comp 0 0).
  - unfold Conversation_findOne.
    apply (keeps_bind grows grows_sub grows_comp 0 0); [apply grows_dbOp |].
    intros _ w r w' H. injection H as _ <-. apply grows_zero.
  - intros [c |]; [apply (keeps_ret grows grows_zero) | apply (keeps_throw grows grows_zero)].
Qed.

Lemma grows_addMessage (rt : Runtime) (conversationId owner role content : JsVal)
      (metadataArg : option Props) :
  keeps (grows 0) (addMessage rt conversationId owner role content metadataArg).
Proof.
  unfold addMessage.
  apply (keeps_tryCatch grows grows_sub grows_comp 0 0);
    [| intros e; apply (keeps_rethrowOrWrap grows grows_zero)].
  destruct (negb (truthy conversationId)); [apply (keeps_throw grows grows_zero) |].
  destruct (negb (truthy owner)); [apply (keeps_throw grows grows_zero) |].
  destruct (negb (truthy role)); [apply (keeps_throw grows grows_zero) |].
  destruct (negb (truthy content)); [apply (keeps_throw grows grows_zero) |].
  apply (keeps_bind grows grows_sub grows_comp 0 0); [apply grows_getConversation |].
  intros conversation. unfold Conversation_addMessage, Conversation_save.
  apply (keeps_bind grows grows_sub grows_comp 0 0); [| intros _; apply (keeps_ret grows grows_zero)].
  apply (keeps_bind grows grows_sub grows_comp 0 0); [apply grows_dbOp |].
  intros _ w r w' H. injection H as _ <-. now apply grows_same_calls.
Qed.

Lemma grows_loadHistory (rt : Runtime) (options : QueryOptions) :
  keeps (grows 0) (loadHistory rt options).
Proof.
  unfold loadHistory.
  destruct (truthy (optConversationId options) && truthy (optUserId options));
    [| apply (keeps_ret grows grows_zero)].
  apply (keeps_bind grows grows_sub grows_comp 0 0); [apply grows_getConversation |].
  intros c. apply (keeps_ret grows grows_zero).
Qed.

Lemma grows_saveInteraction (rt : Runtime) (message : JsVal) (options : QueryOptions)
      (metadataType : JsVal) (aiResponse : jsstring) (metadata : Props) :
  keeps (grows 0) (saveInteraction rt message options metadataType aiResponse metadata).
Proof.
  unfold saveInteraction.
  destruct (truthy (optConversationId options) && truthy (optUserId options));
    [| apply (keeps_ret grows grows_zero)].
  apply (keeps_bind grows grows_sub grows_comp 0 0); [apply grows_addMessage |].
  intros _.
  apply (keeps_bind grows grows_sub grows_comp 0 0); [apply grows_addMessage |].
  intros _. apply (keeps_ret grows grows_zero).
Qed.

(** X13.  One [processLegalQuery] makes at most six calls to the
    provider (three models for the intent, three for the answer),
    whatever the outcome, and leaves the record of the earlier calls as
    it was. *)
Theorem processLegalQuery_at_most_six_calls :
  forall (rt : Runtime) (message : JsVal) (options : QueryOptions) (w : World),
    grows 6 w (snd (processLegalQuery rt message options w)).
Proof.
  intros rt message options w.
  apply (keeps_processLegalQuery rt grows grows_zero grows_sub grows_comp
           (grows_call rt) grows_warn (grows_clock rt) message options
           (grows_loadHistory rt options)
           (grows_saveInteraction rt message options)
           w (fst (processLegalQuery rt message options w))).
  apply surjective_pairing.
Qed.

Lemma grows_0_calls (w w' : World) : grows 0 w w' -> providerCalls w' = providerCalls w.
Proof.
  intros [calls [Hcalls Hlen]]. destruct calls; [| simpl in Hlen; lia].
  now rewrite app_nil_r in Hcalls.
Qed.

(** ** The intent classifier *)

Lemma default_intent_well_formed : wellFormedIntent defaultIntent.
Proof. split; reflexivity. Qed.

Lemma built_intent_well_formed (type clauseType confidence : JsVal) :
  wellFormedIntent [(js "type", jsOr type (VS "general"));
                    (js "clauseType", clauseType);
                    (js "confidence", jsOr confidence (VNum 0.95))].
Proof.
  split.
  - change (truthy (jsOr type (VS "general")) = true). now apply truthy_jsOr.
  - change (truthy (jsOr confidence (VNum 0.95)) = true). now apply truthy_jsOr.
Qed.

Lemma analyzeIntent_world (rt : Runtime) (message : JsVal) (w : World) :
  exists intent r w',
    analyzeIntent rt message w = (inr intent, w')
    /\ generateWithGoogleAI rt message classifierOptions w = (r, w')
    /\ wellFormedIntent intent.
Proof.
  unfold analyzeIntent.
  destruct (generateWithGoogleAI rt message classifierOptions w)
    as [[e | responseText] w1] eqn:Hgen.
  - rewrite (tryCatch_inl _ _ _ _ _ (bind_inl _ _ _ _ _ Hgen)).
    exists defaultIntent, (inl e), w1.
    split; [reflexivity |]. split; [reflexivity | apply default_intent_well_formed].
  - unfold tryCatch at 1. rewrite (bind_inr _ _ _ _ _ Hgen).
    assert (Htail : forall result : JsVal,
      exists intent,
        (type <- lift (getProp result "type") ;;
         clauseType <- lift (getProp result "clauseType") ;;
         confidence <- lift (getProp result "confidence") ;;
         ret [(js "type", jsOr type (VS "general"));
              (js "clauseType", clauseType);
              (js "confidence", jsOr confidence (VNum 0.95))])%js w1
        = (inr intent, w1) /\ wellFormedIntent intent
        \/ exists e,
          (type <- lift (getProp result "type") ;;
           clauseType <- lift (getProp result "clauseType") ;;
           confidence <- lift (getProp result "confidence") ;;
           ret [(js "type", jsOr type (VS "general"));
                (js "clauseType", clauseType);
                (js "confidence", jsOr confidence (VNum 0.95))])%js w1
          = (inl e, w1)).
    { intros result. unfold bind, lift, ret, throw.
      destruct (getProp result "type") as [e | type];
        [exists defaultIntent; right; now exists e |].
      destruct (getProp result "clauseType") as [e | clauseType];
        [exists defaultIntent; right; now exists e |].
      destruct (getProp result "confidence") as [e | confidence];
        [exists defaultIntent; right; now exists e |].
      eexists. left. split; [reflexivity | apply built_intent_well_formed]. }
    assert (Hparsed : forall result : JsVal,
      exists intent,
        match
          (type <- lift (getProp result "type") ;;
           clauseType <- lift (getProp result "clauseType") ;;
           confidence <- lift (getProp result "confidence") ;;
           ret [(js "type", jsOr type (VS "general"));
                (js "clauseType", clauseType);
                (js "confidence", jsOr confidence (VNum 0.95))])%js w1
        with
        | (inl e, w') => ret defaultIntent w'
        | r => r
        end = (inr intent, w1) /\ wellFormedIntent intent).
    { intros result. destruct (Htail result) as [intent [[-> Hwf] | [e ->]]].
      - exists intent. split; [reflexivity | exact Hwf].
      - exists defaultIntent. split; [reflexivity | apply default_intent_well_formed]. }
    unfold bind at 1. unfold tryCatch at 1. unfold jsonParse, ret at 1, throw at 1.
    destruct (JSON_parse rt responseText) as [m | result].
    + destruct (firstMatch braceRegex responseText) as [jsonMatch |].
      * destruct (JSON_parse rt jsonMatch) as [m' | result].
        -- exists defaultIntent, (inr responseText), w1.
           split; [reflexivity |]. split; [reflexivity | apply default_intent_well_formed].
        -- destruct (Hparsed result) as [intent [Hrun Hwf]].
           exists intent, (inr responseText), w1.
           split; [exact Hrun |]. split; [reflexivity | exact Hwf].
      * exists defaultIntent, (inr responseText), w1.
        split; [reflexivity |]. split; [reflexivity | apply default_intent_well_formed].
    + destruct (Hparsed result) as [intent [Hrun Hwf]].
      exists intent, (inr responseText), w1.
      split; [exact Hrun |]. split; [reflexivity | exact Hwf].
Qed.

(** X14.  The intent [analyzeIntent] returns always has a truthy [type]
    and a truthy [confidence], whatever the provider answered (an empty
    type or a confidence of 0 is replaced by the default); getting it
    costs at most three calls to the provider and touches nothing of the
    store. *)
Theorem analyzeIntent_well_formed :
  forall (rt : Runtime) (message : JsVal) (w : World),
    exists intent w',
      analyzeIntent rt message w = (inr intent, w')
      /\ wellFormedIntent intent
      /\ sameStore w w'
      /\ grows 3 w w'.
Proof.
  intros rt message w.
  destruct (analyzeIntent_world rt message w) as [intent [r [w' [Hrun [Hgen Hwf]]]]].
  exists intent, w'. split; [exact Hrun |]. split; [exact Hwf |]. split.
  - exact (generateWithGoogleAI_sameStore _ _ _ _ _ _ Hgen).
  - exact (keeps_generateWithGoogleAI rt grows grows_zero grows_sub grows_comp
             (grows_call rt) grows_warn message classifierOptions w r w' Hgen).
Qed.

(** ** The orchestrator, with and without a conversation *)

Lemma sameDatabase_refl (w : World) : sameDatabase w w.
Proof. split; reflexivity. Qed.

Lemma sameDatabase_trans (w1 w2 w3 : World) :
  sameDatabase w1 w2 -> sameDatabase w2 w3 -> sameDatabase w1 w3.
Proof. intros [H1 H2] [H3 H4]. split; congruence. Qed.

Lemma sameDatabase_call (rt : Runtime) (c : ProviderCall) :
  keeps sameDatabase (callProvider rt c).
Proof.
  intros w r w'. unfold callProvider.
  destruct (provider rt (providerCalls w) c); intros H; injection H as _ <-;
    split; reflexivity.
Qed.

Lemma sameDatabase_warn (a b : jsstring) : keeps sameDatabase (loggerWarn a b).
Proof. intros w r w' H. injection H as _ <-. split; reflexivity. Qed.

Lemma sameDatabase_clock (rt : Runtime) : keeps sameDatabase (dateNow rt).
Proof. intros w r w' H. injection H as _ <-. split; reflexivity. Qed.

Lemma loadHistory_without_ids (rt : Runtime) (options : QueryOptions) :
  truthy (optConversationId options) && truthy (optUserId options) = false ->
  loadHistory rt options = ret [].
Proof. intros Hids. unfold loadHistory. now rewrite Hids. Qed.

Lemma saveInteraction_without_ids (rt : Runtime) (message : JsVal) (options : QueryOptions)
      (metadataType : JsVal) (aiResponse : jsstring) (metadata : Props) :
  truthy (optConversationId options) && truthy (optUserId options) = false ->
  saveInteraction rt message options metadataType aiResponse metadata = ret tt.
Proof. intros Hids. unfold saveInteraction. now rewrite Hids. Qed.

(** X15.  A [processLegalQuery] that names no conversation (no
    conversation id, or no user id) never reads from or writes to the
    database, whether it returns or throws. *)
Theorem processLegalQuery_without_conversation :
  forall (rt : Runtime) (message : JsVal) (options : QueryOptions) (w : World),
    truthy (optConversationId options) && truthy (optUserId options) = false ->
    sameDatabase w (snd (processLegalQuery rt message options w)).
Proof.
  intros rt message options w Hids.
  apply (keeps_processLegalQuery rt (fun _ => sameDatabase)
           sameDatabase_refl (fun _ _ _ _ _ H => H)
           (fun _ _ => sameDatabase_trans)
           (sameDatabase_call rt) sameDatabase_warn (sameDatabase_clock rt)
           message options)
    with (r := fst (processLegalQuery rt message options w)).
  - rewrite (loadHistory_without_ids rt options Hids).
    intros w0 r w0' H. injection H as _ <-. apply sameDatabase_refl.
  - intros metadataType aiResponse metadata.
    rewrite (saveInteraction_without_ids rt message options _ _ _ Hids).
    intros w0 r w0' H. injection H as _ <-. apply sameDatabase_refl.
  - apply surjective_pairing.
Qed.

Lemma processLegalQuery_without_conversation_witness :
  let rt := Demo.runtime [inl (js "quota exceeded"); inr (js "general");
                          inr (js "A lease is a contract.")] None in
  let options := Demo.noConversation VUndefined VUndefined in
  let run := processLegalQuery rt (VS "What is a lease?") options Demo.oneConversation in
  option_map resultText
    (match fst run with inr result => Some result | inl _ => None end)
  = Some (js "A lease is a contract.")
  /\ sameDatabase Demo.oneConversation (snd run).
Proof.
  cbv zeta. split; [vm_compute; reflexivity |].
  apply (processLegalQuery_without_conversation
           (Demo.runtime [inl (js "quota exceeded"); inr (js "general");
                          inr (js "A lease is a contract.")] None)
           (VS "What is a lease?") (Demo.noConversation VUndefined VUndefined)
           Demo.oneConversation eq_refl).
Defined.

Lemma addMessage_inr_content (rt : Runtime) (conversationId owner r c : JsVal)
      (metadataArg : option Props) (w w' : World) (conv : Conversation) :
  addMessage rt conversationId owner r c metadataArg w = (inr conv, w') ->
  truthy r = true /\ truthy c = true.
Proof.
  unfold addMessage, tryCatch.
  match goal with |- context [?body w] => destruct (body w) as [[err | x] w1] eqn:Hbody end.
  - unfold rethrowOrWrap, throw. destruct (isAPIError err); discriminate.
  - intros _.
    destruct (truthy conversationId); simpl in Hbody; [| discriminate].
    destruct (truthy owner); simpl in Hbody; [| discriminate].
    destruct (truthy r); simpl in Hbody; [| discriminate].
    destruct (truthy c); simpl in Hbody; [| discriminate].
    split; reflexivity.
Qed.

Lemma answerQuery_inr (rt : Runtime) (message : JsVal) (options : QueryOptions)
      (startTime : float) (w w' : World) (answered : jsstring * JsVal * Props) :
  answerQuery rt message options startTime w = (inr answered, w') ->
  snd answered
  = buildMetadata (snd (fst answered)) options
      (match getOwn (snd answered) "responseTime" with VNum x => x | _ => 0%float end)
      (fst (fst answered)).
Proof.
  unfold answerQuery. destruct (negb (truthy message)); [discriminate |].
  unfold bind.
  destruct (analyzeIntent rt message w) as [[e | intent] w1]; [discriminate |].
  unfold lift at 1.
  destruct (mapIntentToMetadataType rt (getOwn intent "type")) as [e | metadataType];
    [discriminate |].
  unfold ret at 1. unfold lift at 1.
  destruct (prepareSystemMessage rt intent _ _) as [e | systemMessage]; [discriminate |].
  unfold ret at 1.
  destruct (generateAnswer rt message options systemMessage startTime w1)
    as [[e | answer] w2]; [discriminate |].
  unfold ret. intros H. injection H as <- _. reflexivity.
Qed.

Lemma processLegalQuery_inr (rt : Runtime) (message : JsVal) (options : QueryOptions)
      (w w' : World) (result : QueryResult) :
  processLegalQuery rt message options w = (inr result, w') ->
  exists (metadataType : JsVal) (w1 : World) (u : unit),
    answerQuery rt message options (clockAt rt (clockReads w)) (afterClockRead w)
    = (inr (resultText result, metadataType, resultMetadata result), w1)
    /\ saveInteraction rt message options metadataType (resultText result)
         (resultMetadata result) w1 = (inr u, w').
Proof.
  unfold processLegalQuery.
  change (bind (dateNow rt) ?k w)
    with (k (clockAt rt (clockReads w)) (afterClockRead w)).
  cbv beta. unfold tryCatch.
  match goal with
  | |- context [bind ?m ?k (afterClockRead w)] =>
      destruct (bind m k (afterClockRead w)) as [[err | x] w1] eqn:Hbody
  end.
  - unfold rethrowOrWrap, throw. destruct (isAPIError err); discriminate.
  - intros H. injection H as -> ->.
    unfold bind in Hbody.
    destruct (answerQuery rt message options _ (afterClockRead w))
      as [[e | [[aiResponse metadataType] metadata]] w2] eqn:Hanswer; [discriminate |].
    cbn [fst snd] in Hbody.
    destruct (saveInteraction rt message options metadataType aiResponse metadata w2)
      as [[e | u] w3] eqn:Hsave; [discriminate |].
    unfold ret in Hbody. injection Hbody as <- <-.
    exists metadataType, w2, u. split; [reflexivity | exact Hsave].
Qed.

(** X16.  Whenever [processLegalQuery] returns, the metadata of the
    result is built from the text it returns: its references and
    suggestions are the ones extracted from that text, its document type
    and tone are the ones of the options, its provider is google.  When
    the request named a conversation, the returned text is never empty:
    an empty answer cannot be stored, and the call fails instead. *)
Theorem processLegalQuery_result_metadata :
  forall (rt : Runtime) (message : JsVal) (options : QueryOptions) (w : World),
    match fst (processLegalQuery rt message options w) with
    | inr result =>
        getOwn (resultMetadata result) "references"
        = VArr (map VStr (extractReferences (VStr (resultText result))))
        /\ getOwn (resultMetadata result) "suggestions"
           = VArr (map VStr (extractSuggestions (VStr (resultText result))))
        /\ getOwn (resultMetadata result) "documentType" = optDocumentType options
        /\ getOwn (resultMetadata result) "tone" = optTone options
        /\ getOwn (resultMetadata result) "provider" = VS "google"
        /\ (truthy (optConversationId options) && truthy (optUserId options) = true ->
            resultText result <> [])
    | inl _ => True
    end.
Proof.
  intros rt message options w.
  destruct (processLegalQuery rt message options w) as [[e | result] w'] eqn:Hrun;
    [exact I |].
  cbn [fst].
  apply processLegalQuery_inr in Hrun as [metadataType [w1 [u [Hanswer Hsave]]]].
  apply answerQuery_inr in Hanswer. cbn [fst snd] in Hanswer.
  rewrite Hanswer.
  split; [reflexivity |]. split; [reflexivity |]. split; [reflexivity |].
  split; [reflexivity |]. split; [reflexivity |].
  intros Hids. unfold saveInteraction in Hsave. rewrite Hids in Hsave.
  unfold bind in Hsave.
  destruct (addMessage rt _ _ (VS "user") message _ w1) as [[e | c1] w2]; [discriminate |].
  destruct (addMessage rt _ _ (VS "assistant") (VStr (resultText result)) _ w2)
    as [[e | c2] w3] eqn:Hassistant; [discriminate |].
  apply addMessage_inr_content in Hassistant as [_ Hcontent].
  intros Hempty. rewrite Hempty in Hcontent. discriminate Hcontent.
Qed.

Example processLegalQuery_empty_answer_in_conversation :
  fst (processLegalQuery (Demo.runtime [inr (js "general"); inr []] None)
         (VS "What is a lease?") (Demo.inC1 VUndefined VUndefined) Demo.oneConversation)
  = inl (newAPIError (js "Message content is required") httpStatus.BAD_REQUEST).
Proof. vm_compute. reflexivity. Qed.

Example processLegalQuery_empty_answer_without_conversation :
  option_map resultText
    (match fst (processLegalQuery (Demo.runtime [inr (js "general"); inr []] None)
                  (VS "What is a lease?") (Demo.noConversation VUndefined VUndefined)
                  Demo.oneConversation)
     with inr result => Some result | inl _ => None end)
  = Some [].
Proof. vm_compute. reflexivity. Qed.

(** ** Without an API key *)

Lemma analyzeIntent_unconfigured (rt : Runtime) (message : JsVal) (w : World) :
  googleConfigured rt = false ->
  analyzeIntent rt message w = (inr defaultIntent, w).
Proof.
  intros Hcfg. unfold analyzeIntent, generateWithGoogleAI. rewrite Hcfg. reflexivity.
Qed.

Lemma generateAnswer_unconfigured (rt : Runtime) (message : JsVal)
      (options : QueryOptions) (systemMessage : jsstring) (startTime : float) (w : World) :
  googleConfigured rt = false ->
  exists x w1,
    generateAnswer rt message options systemMessage startTime w
    = (inl (newAPIError (js "Error processing legal query: " ++ messageOf x)
                        httpStatus.INTERNAL_SERVER_ERROR), w1)
    /\ providerCalls w1 = providerCalls w
    /\ (truthy (optConversationId options) && truthy (optUserId options) = false ->
        x = notConfigured).
Proof.
  intros Hcfg. unfold generateAnswer, tryCatch, bind.
  destruct (loadHistory rt options w) as [[e | history] w2] eqn:Hload.
  - exists e, w2. split; [reflexivity |]. split.
    + exact (grows_0_calls _ _ (grows_loadHistory rt options _ _ _ Hload)).
    + intros Hids. rewrite (loadHistory_without_ids rt options Hids) in Hload.
      discriminate Hload.
  - pose proof (grows_0_calls _ _ (grows_loadHistory rt options _ _ _ Hload)) as Hcalls.
    exists notConfigured, w2.
    destruct history as [| h rest].
    + unfold generateWithGoogleAI. rewrite Hcfg. simpl.
      split; [reflexivity |]. split; [exact Hcalls | reflexivity].
    + unfold generateWithChatHistory. rewrite Hcfg. simpl.
      split; [reflexivity |]. split; [exact Hcalls | reflexivity].
Qed.

Lemma answerQuery_unconfigured (rt : Runtime) (message : JsVal) (options : QueryOptions)
      (startTime : float) (w : World) :
  googleConfigured rt = false ->
  exists err w1,
    answerQuery rt message options startTime w = (inl err, w1)
    /\ providerCalls w1 = providerCalls w
    /\ ((truthy message = false
         /\ err = newAPIError (js "Message is required") httpStatus.BAD_REQUEST)
        \/ (truthy message = true
            /\ ((err = cannotConvert
                 /\ prepareSystemMessage rt defaultIntent (optDocumentType options)
                                         (optTone options) = inl cannotConvert)
                \/ (exists x,
                       err = newAPIError (js "Error processing legal query: " ++ messageOf x)
                                         httpStatus.INTERNAL_SERVER_ERROR
                       /\ (truthy (optConversationId options)
                           && truthy (optUserId options) = false ->
                           x = notConfigured))))).
Proof.
  intros Hcfg. unfold answerQuery.
  destruct (truthy message) eqn:Hmessage; cbn [negb].
  - rewrite (bind_inr _ _ _ _ _ (analyzeIntent_unconfigured rt message w Hcfg)).
    change (mapIntentToMetadataType rt (getOwn defaultIntent "type"))
      with (@inr JsError JsVal (VS "chat")).
    destruct (prepareSystemMessage rt defaultIntent (optDocumentType options)
                (optTone options)) as [e | systemMessage] eqn:Hprompt.
    + pose proof (prepareSystemMessage_error _ _ _ _ _ Hprompt) as He. subst e.
      exists cannotConvert, w. split; [reflexivity |]. split; [reflexivity |].
      right. split; [reflexivity |]. left. split; reflexivity.
    + destruct (generateAnswer_unconfigured rt message options systemMessage
                  startTime w Hcfg) as [x [w1 [Hanswer [Hcalls Hx]]]].
      unfold bind, lift, ret, throw. cbv beta iota. rewrite Hanswer.
      eexists. exists w1. split; [reflexivity |]. split; [exact Hcalls |].
      right. split; [reflexivity |]. right. exists x. split; [reflexivity | exact Hx].
  - eexists. exists w. split; [reflexivity |]. split; [reflexivity |].
    left. split; reflexivity.
Qed.

(** X17.  Without an API key [processLegalQuery] never returns and never
    calls the provider: it throws the 400 error for an empty message,
    and a 500 error otherwise.  When the request names no conversation
    and the system prompt could be built, the message of that error is
    "Error processing legal query: Google AI not configured". *)
Theorem processLegalQuery_unconfigured :
  forall (rt : Runtime) (message : JsVal) (options : QueryOptions) (w : World),
    googleConfigured rt = false ->
    let run := processLegalQuery rt message options w in
    exists e,
      fst run = inl e
      /\ statusOf e
         = Some (if truthy message then httpStatus.INTERNAL_SERVER_ERROR
                 else httpStatus.BAD_REQUEST)
      /\ providerCalls (snd run) = providerCalls w
      /\ (forall systemMessage,
             truthy message = true ->
             truthy (optConversationId options) && truthy (optUserId options) = false ->
             prepareSystemMessage rt defaultIntent (optDocumentType options)
                                  (optTone options) = inr systemMessage ->
             messageOf e
             = js "Error processing legal query: Google AI not configured").
Proof.
  intros rt message options w Hcfg. cbv zeta.
  destruct (answerQuery_unconfigured rt message options (clockAt rt (clockReads w))
              (afterClockRead w) Hcfg) as [err [w1 [Hanswer [Hcalls Hcases]]]].
  assert (Hrun : processLegalQuery rt message options w
                 = rethrowOrWrap "Error processing legal query: " err w1).
  { unfold processLegalQuery.
    change (bind (dateNow rt) ?k w)
      with (k (clockAt rt (clockReads w)) (afterClockRead w)).
    cbv beta.
    exact (tryCatch_inl _ _ _ _ _ (bind_inl _ _ _ _ _ Hanswer)). }
  rewrite Hrun.
  destruct Hcases as [[Hmessage ->] | [Hmessage [[-> Hprompt] | [x [-> Hx]]]]];
    rewrite Hmessage; simpl.
  - eexists. split; [reflexivity |]. split; [reflexivity |].
    split; [exact Hcalls |]. intros systemMessage H. discriminate H.
  - eexists. split; [reflexivity |]. split; [reflexivity |].
    split; [exact Hcalls |]. intros systemMessage _ _ H.
    rewrite Hprompt in H. discriminate H.
  - eexists. split; [reflexivity |]. split; [reflexivity |].
    split; [exact Hcalls |]. intros systemMessage _ Hids _. now rewrite (Hx Hids).
Qed.

Lemma processLegalQuery_unconfigured_witness :
  let run := processLegalQuery Demo.unconfigured (VS "What is a lease?")
               (Demo.noConversation VUndefined VUndefined) Demo.emptyWorld in
  fst run
  = inl (newAPIError (js "Error processing legal query: Google AI not configured")
                     httpStatus.INTERNAL_SERVER_ERROR)
  /\ exists e,
      fst run = inl e
      /\ statusOf e = Some httpStatus.INTERNAL_SERVER_ERROR
      /\ providerCalls (snd run) = []
      /\ (forall systemMessage,
             true = true -> false = false ->
             prepareSystemMessage Demo.unconfigured defaultIntent VUndefined VUndefined
             = inr systemMessage ->
             messageOf e
             = js "Error processing legal query: Google AI not configured").
Proof.
  cbv zeta. split; [vm_compute; reflexivity |].
  exact (processLegalQuery_unconfigured Demo.unconfigured (VS "What is a lease?")
           (Demo.noConversation VUndefined VUndefined) Demo.emptyWorld eq_refl).
Defined.

(** ** Creating, archiving and restoring conversations *)

(** X18.  [createConversation] checks the user id, then the title,
    before anything else: a falsy one is a 400 error and the database is
    not touched.  The conversation it returns belongs to the user, has
    the title given, the description given (the empty string when none
    is), and the seed system message as its only message; it took one
    database operation.  A failing save is a 500 error whose message is the
    driver's, prefixed. *)
Theorem createConversation_outcome :
  forall (rt : Runtime) (owner title0 : JsVal) (description0 : option JsVal) (w : World),
    let run := createConversation rt owner title0 description0 w in
    match fst run with
    | inr c =>
        truthy owner = true /\ truthy title0 = true
        /\ userId c = owner /\ title c = title0
        /\ (description0 = None -> description c = VStr [])
        /\ (forall d, description0 = Some d -> d <> VUndefined -> description c = d)
        /\ messages c = [seedMessage]
        /\ dbFault rt (dbOps w) = None
        /\ dbOps (snd run) = S (dbOps w)
    | inl e =>
        (truthy owner = false
         /\ e = newAPIError (js "User ID is required") httpStatus.BAD_REQUEST
         /\ snd run = w)
        \/ (truthy owner = true /\ truthy title0 = false
            /\ e = newAPIError (js "Title is required") httpStatus.BAD_REQUEST
            /\ snd run = w)
        \/ (exists msg,
               dbFault rt (dbOps w) = Some msg
               /\ e = newAPIError (js "Error creating conversation: " ++ msg)
                                  httpStatus.INTERNAL_SERVER_ERROR)
    end.
Proof.
  intros rt owner title0 description0 w. cbv zeta.
  unfold createConversation, tryCatch.
  destruct (truthy owner); cbn [negb].
  - destruct (truthy title0); cbn [negb].
    + unfold Conversation_save, bind, dbOp, ret.
      destruct (dbFault rt (dbOps w)) as [msg |]; cbn.
      * right. right. exists msg. split; reflexivity.
      * repeat split.
        -- now intros ->.
        -- intros d -> Hd. destruct d; [contradiction | reflexivity ..].
    + cbn. right. left. repeat split.
  - cbn. left. repeat split.
Qed.

Example createConversation_then_getConversation :
  let rt := Demo.runtime [] None in
  let created := createConversation rt (VS "u1") (VS "Lease") None Demo.emptyWorld in
  option_map (fun c => fst (getConversation rt (VStr (_id c)) (VS "u1") (snd created)))
    (match fst created with inr c => Some c | inl _ => None end)
  = Some (fst created).
Proof. vm_compute. reflexivity. Qed.

Lemma lifecycle_step (rt : Runtime) (method : Conversation -> M Conversation)
      (prefix : string) (conversationId owner : JsVal) (w : World) :
  let run :=
    tryCatchT
      (if negb (truthy conversationId) then
         throwT (misordered 400 (js "Conversation ID is required"))
       else if negb (truthy owner) then
         throwT (misordered 400 (js "User ID is required"))
       else
         bindT (awaitM (getConversation rt conversationId owner))
               (fun conversation => awaitM (method conversation)))
      (rethrowOrMisorder prefix) w in
  (truthy conversationId = false ->
   run = (inl (misordered 400 (js "Conversation ID is required")), w))
  /\ (truthy conversationId = true -> truthy owner = false ->
      run = (inl (misordered 400 (js "User ID is required")), w))
  /\ (truthy conversationId = true -> truthy owner = true ->
      forall e w1,
        getConversation rt conversationId owner w = (inl e, w1) ->
        run = (inl (thrownOf e), w1))
  /\ (truthy conversationId = true -> truthy owner = true ->
      forall c w1 r w2,
        getConversation rt conversationId owner w = (inr c, w1) ->
        method c w1 = (r, w2) ->
        run = (match r with
               | inr c' => inr c'
               | inl (Error msg) => inl (misordered 500 (js prefix ++ msg))
               | inl e => inl (thrownOf e)
               end, w2)).
Proof.
  cbv zeta. unfold tryCatchT. split; [| split; [| split]].
  - intros ->. reflexivity.
  - intros -> ->. reflexivity.
  - intros -> -> e w1 Hget. cbn [negb]. unfold bindT, awaitM. rewrite Hget.
    pose proof (getConversation_throws_APIError _ _ _ _ _ _ Hget) as Hapi.
    destruct e; [discriminate Hapi | reflexivity].
  - intros -> -> c w1 r w2 Hget Hmethod. cbn [negb]. unfold bindT, awaitM.
    rewrite Hget, Hmethod. destruct r as [[msg | m s op md] | c']; reflexivity.
Qed.

(** X19.  The errors [archiveConversation] and [restoreConversation]
    make themselves have their two arguments swapped: a missing id gives
    an error whose [message] is the number 400 and whose [status] is the
    text, and a plain error of the model's method gives one whose
    [message] is 500 and whose [status] is the prefixed text.  The
    validation happens before any database operation.  The errors of
    [getConversation], the 404 for a missing conversation included, pass
    through with message and status in their places. *)
Theorem archive_restore_misordered_errors :
  forall (rt : Runtime) (archive restore : Conversation -> M Conversation)
         (conversationId owner : JsVal) (w : World),
    let archived := archiveConversation rt archive conversationId owner w in
    let restored := restoreConversation rt restore conversationId owner w in
    (truthy conversationId = false ->
     archived = (inl (ThrownAPIError (VNum 400) (VS "Conversation ID is required")
                                     true VNull), w)
     /\ restored = archived)
    /\ (truthy conversationId = true -> truthy owner = false ->
        archived = (inl (ThrownAPIError (VNum 400) (VS "User ID is required") true VNull), w)
        /\ restored = archived)
    /\ (truthy conversationId = true -> truthy owner = true ->
        forall message0 status0 op md w1,
          getConversation rt conversationId owner w
          = (inl (APIError message0 status0 op md), w1) ->
          archived = (inl (ThrownAPIError (VStr message0)
                             (VNum (floatOfNat (Z.to_nat status0))) op md), w1)
          /\ restored = archived)
    /\ (truthy conversationId = true -> truthy owner = true ->
        forall c w1 msg w2,
          getConversation rt conversationId owner w = (inr c, w1) ->
          (archive c w1 = (inl (Error msg), w2) ->
           archived
           = (inl (ThrownAPIError (VNum 500)
                     (VStr (js "Error archiving conversation: " ++ msg)) true VNull), w2))
          /\ (restore c w1 = (inl (Error msg), w2) ->
              restored
              = (inl (ThrownAPIError (VNum 500)
                        (VStr (js "Error restoring conversation: " ++ msg)) true VNull),
                 w2))).
Proof.
  intros rt archive restore conversationId owner w. cbv zeta.
  destruct (lifecycle_step rt archive "Error archiving conversation: "
              conversationId owner w) as [A1 [A2 [A3 A4]]].
  destruct (lifecycle_step rt restore "Error restoring conversation: "
              conversationId owner w) as [R1 [R2 [R3 R4]]].
  cbv zeta in A1, A2, A3, A4, R1, R2, R3, R4.
  fold (archiveConversation rt archive conversationId owner) in A1, A2, A3, A4.
  fold (restoreConversation rt restore conversationId owner) in R1, R2, R3, R4.
  split; [| split; [| split]].
  - intros Hcid. rewrite (A1 Hcid), (R1 Hcid). split; reflexivity.
  - intros Hcid Howner. rewrite (A2 Hcid Howner), (R2 Hcid Howner). split; reflexivity.
  - intros Hcid Howner message0 status0 op md w1 Hget.
    rewrite (A3 Hcid Howner _ _ Hget), (R3 Hcid Howner _ _ Hget). split; reflexivity.
  - intros Hcid Howner c w1 msg w2 Hget. split.
    + intros Hmethod. exact (A4 Hcid Howner _ _ _ _ Hget Hmethod).
    + intros Hmethod. exact (R4 Hcid Howner _ _ _ _ Hget Hmethod).
Qed.

Example archiveConversation_of_missing_conversation :
  fst (archiveConversation (Demo.runtime [] None) (fun c => ret c)
         (VS "c1") (VS "u1") Demo.deletedConversation)
  = inl (ThrownAPIError (VS "Conversation not found") (VNum 404) true VNull).
Proof. vm_compute. reflexivity. Qed.

(** ** What the reference patterns match *)

Lemma orElse_some {A} (x y : option A) (m : A) :
  orElse x y = Some m -> x = Some m \/ y = Some m.
Proof. destruct x; simpl; intros H; [left | right]; exact H. Qed.

Lemma starMatch_between (p : N -> bool) (lo : nat) (k : MatchCont) :
  contBetween lo k -> contBetween lo (starMatch p k).
Proof.
  intros Hk n s. revert n. induction s as [| c rest IH]; intros n m; simpl.
  - apply Hk.
  - destruct (p c).
    + intros H. apply orElse_some in H as [H | H].
      * apply IH in H. lia.
      * apply Hk in H. simpl in H. exact H.
    + intros H. apply Hk in H. simpl in H. exact H.
Qed.

Lemma matchRe_between (r : Regex) :
  forall (lo : nat) (k : MatchCont),
    contBetween lo k -> contBetween (minLen r + lo) (matchRe r k).
Proof.
  induction r as [| p | a IHa b IHb | a IHa b IHb | a IHa | p]; intros lo k Hk n s m; simpl.
  - apply Hk.
  - destruct s as [| c rest]; [discriminate |].
    destruct (p c); [| discriminate].
    intros H. apply Hk in H. simpl. lia.
  - intros H.
    apply (IHa (minLen b + lo) (fun n' s' => matchRe b k n' s')) in H; [lia |].
    apply IHb. exact Hk.
  - intros H. apply orElse_some in H as [H | H].
    + apply (IHa lo k Hk) in H. lia.
    + apply (IHb lo k Hk) in H. lia.
  - intros H. apply orElse_some in H as [H | H].
    + apply (IHa lo k Hk) in H. lia.
    + apply Hk in H. lia.
  - apply (starMatch_between p lo k Hk).
Qed.

Lemma matchAt_between (r : Regex) (s : jsstring) (len : nat) :
  matchAt r s = Some len -> minLen r <= len <= List.length s.
Proof.
  unfold matchAt. intros H.
  apply (matchRe_between r 0 (fun n _ => Some n)) in H; [lia |].
  intros n s0 m H0. injection H0 as <-. lia.
Qed.

Lemma scanMatches_substrings (r : Regex) (s : jsstring) :
  forall (skip : nat) (x : jsstring),
    In x (scanMatches r skip s) ->
    substringOf x s /\ minLen r <= List.length x.
Proof.
  assert (Hhere : forall s0 len, matchAt r s0 = Some len ->
            substringOf (firstn len s0) s0 /\ minLen r <= List.length (firstn len s0)).
  { intros s0 len H. apply matchAt_between in H. split.
    - exists [], (skipn len s0). simpl. now rewrite firstn_skipn.
    - rewrite length_firstn. lia. }
  assert (Hlater : forall c rest x,
            substringOf x rest /\ minLen r <= List.length x ->
            substringOf x (c :: rest) /\ minLen r <= List.length x).
  { intros c rest x [[before [after ->]] Hlen]. split; [| exact Hlen].
    now exists (c :: before), after. }
  induction s as [| c rest IH]; intros skip x.
  - destruct skip; simpl; [| intros []].
    destruct (matchAt r []) as [len |] eqn:E; simpl; [| intros []].
    intros [<- | []]. exact (Hhere _ _ E).
  - destruct skip as [| skip']; simpl.
    + destruct (matchAt r (c :: rest)) as [len |] eqn:E.
      * intros [<- | Hin]; [exact (Hhere _ _ E) |].
        apply Hlater. exact (IH _ _ Hin).
      * intros Hin. apply Hlater. exact (IH _ _ Hin).
    + intros Hin. apply Hlater. exact (IH _ _ Hin).
Qed.

(** X20.  Every reference [extractReferences] returns occurs in the text
    as it is, and is at least five code units long: a match of one of
    the three patterns, never an empty string.  Nothing is returned for a
    value that is not a non-empty string. *)
Theorem extractReferences_substrings :
  forall text : JsVal,
    Forall (fun x => substringOf x (stringOf text) /\ 5 <= List.length x)
           (extractReferences text)
    /\ (notText text = true -> extractReferences text = []).
Proof.
  intros text. unfold extractReferences. destruct (notText text).
  - split; [constructor | reflexivity].
  - split; [| discriminate]. cbv zeta. apply Forall_forall. intros x Hin.
    apply (proj1 (uniqueStrings_In _ _)) in Hin.
    apply in_app_or in Hin as [Hin | Hin]; [| apply in_app_or in Hin as [Hin | Hin]];
      apply scanMatches_substrings in Hin as [Hsub Hlen];
      (split; [exact Hsub |]).
    + change (minLen sectionRegex) with 10 in Hlen. lia.
    + change (minLen caseRegex) with 8 in Hlen. lia.
    + change (minLen actRegex) with 5 in Hlen. lia.
Qed.

(** ** The contract conversation model *)

Lemma sliceFrom_suffix {A} (start : Z) (l : list A) :
  exists earlier, l = earlier ++ sliceFrom start l.
Proof.
  unfold sliceFrom. cbv zeta.
  match goal with |- context [skipn ?k l] => exists (firstn k l) end.
  now rewrite firstn_skipn.
Qed.

(** X21.  [getRecentMessages(limit)] returns the end of the history, in
    order: for a positive limit the last [limit] items, or all of them
    when there are fewer; ten when no limit is given.  A limit of 0 does
    not return nothing but the whole history, and a negative limit [-n]
    drops the first [n] items. *)
Theorem getRecentMessages_last_items :
  forall doc : ContractConversation,
    (forall limit, exists earlier, ccHistory doc = earlier ++ getRecentMessages doc limit)
    /\ (forall n : Z,
           (0 < n)%Z ->
           List.length (getRecentMessages doc (Some n))
           = Nat.min (Z.to_nat n) (List.length (ccHistory doc)))
    /\ getRecentMessages doc (Some 0%Z) = ccHistory doc
    /\ (forall n : Z,
           (0 < n)%Z ->
           getRecentMessages doc (Some (- n)%Z) = skipn (Z.to_nat n) (ccHistory doc))
    /\ getRecentMessages doc None = getRecentMessages doc (Some 10%Z).
Proof.
  intros doc. split; [| split; [| split; [| split]]].
  - intros limit. apply sliceFrom_suffix.
  - intros n Hn. unfold getRecentMessages, sliceFrom. cbv zeta.
    destruct (Z.ltb_spec (- n) 0); [| lia].
    rewrite length_skipn. lia.
  - unfold getRecentMessages, sliceFrom. cbv zeta. change (- 0 <? 0)%Z with false.
    cbv iota. change (- 0)%Z with 0%Z. rewrite Z.min_l by lia. reflexivity.
  - intros n Hn. unfold getRecentMessages, sliceFrom. cbv zeta.
    rewrite Z.opp_involutive.
    destruct (Z.ltb_spec n 0); [lia |].
    destruct (Z.le_gt_cases n (Z.of_nat (List.length (ccHistory doc)))) as [Hle | Hgt].
    + now rewrite Z.min_l.
    + rewrite Z.min_r by lia. rewrite Nat2Z.id.
      rewrite !skipn_all2; [reflexivity | lia | lia].
  - reflexivity.
Qed.

Lemma getFormattedHistory_app (doc : ContractConversation) (items : list HistoryItem) :
  getFormattedHistory (withHistory doc (ccHistory doc ++ items))
  = getFormattedHistory doc ++ getFormattedHistory (withHistory doc items).
Proof.
  unfold getFormattedHistory. simpl. now rewrite filter_app, map_app.
Qed.

Lemma documentSave_history (rt : Runtime) (doc : ContractConversation) (w : World) :
  ccHistory (fst (fst (documentSave rt doc w))) = ccHistory doc.
Proof.
  unfold documentSave, dateNow. cbv iota beta.
  match goal with |- context [dbOp rt ?w1] => destruct (dbOp rt w1) end.
  reflexivity.
Qed.

(** X22.  [addMessage(role, parts)] of a contract conversation appends
    one item with that role and that text to the history in memory and
    keeps the items before it, whether the save that follows succeeds or
    fails; [getRecentMessages(1)] then returns exactly that item.
    [getFormattedHistory] gains one turn ([user] for a user item, [model]
    for any other) unless the item is a system item, which it leaves out;
    it only ever holds [user] and [model] turns. *)
Theorem contractAddMessage_appends :
  forall (rt : Runtime) (doc : ContractConversation) (role0 parts : jsstring)
         (modifiedBlocks : JsVal) (w : World),
    let doc' :=
      fst (fst (contractAddMessage rt doc (VStr role0) (VStr parts) modifiedBlocks w)) in
    (exists item,
        ccHistory doc' = ccHistory doc ++ [item]
        /\ itemRole item = VStr role0 /\ itemParts item = VStr parts
        /\ getRecentMessages doc' (Some 1%Z) = [item])
    /\ getFormattedHistory doc' = getFormattedHistory doc ++ turnOf role0 parts
    /\ Forall (fun t => turnRole t = VS "user" \/ turnRole t = VS "model")
              (getFormattedHistory doc').
Proof.
  intros rt doc role0 parts modifiedBlocks w. cbv zeta.
  set (item := mkHistoryItem (VStr role0) (VStr parts)
                 (match modifiedBlocks with VUndefined => VArr [] | b => b end)
                 (clockAt rt (clockReads w))).
  assert (Hhistory :
    ccHistory (fst (fst (contractAddMessage rt doc (VStr role0) (VStr parts)
                           modifiedBlocks w)))
    = ccHistory doc ++ [item]).
  { unfold contractAddMessage, dateNow. cbv iota beta.
    now rewrite documentSave_history. }
  assert (Hformat : forall d d' : ContractConversation,
            ccHistory d = ccHistory d' -> getFormattedHistory d = getFormattedHistory d').
  { intros d d' H. unfold getFormattedHistory. now rewrite H. }
  split; [| split].
  - exists item. split; [exact Hhistory |]. split; [reflexivity |].
    split; [reflexivity |].
    unfold getRecentMessages, sliceFrom. rewrite Hhistory. cbv zeta.
    rewrite length_app. simpl List.length.
    destruct (Z.ltb_spec (- (1)) 0) as [_ | Hbad]; [| lia].
    replace (Z.to_nat (Z.max (Z.of_nat (List.length (ccHistory doc) + 1) + - (1)) 0))
      with (List.length (ccHistory doc)) by lia.
    rewrite skipn_app, skipn_all, Nat.sub_diag. reflexivity.
  - rewrite (Hformat _ (withHistory doc (ccHistory doc ++ [item])) Hhistory).
    rewrite getFormattedHistory_app. f_equal.
    unfold getFormattedHistory, turnOf. simpl.
    destruct (str_eqb role0 (js "system")); simpl; [reflexivity |].
    reflexivity.
  - unfold getFormattedHistory. apply Forall_forall. intros t Hin.
    apply in_map_iff in Hin as [msg [<- _]]. simpl.
    destruct (strictEqStr (itemRole msg) (js "user")); [left | right]; reflexivity.
Qed.

Example clearHistory_empties_both_views :
  let doc := mkContractConversation (VS "k1") (VS "u1")
               [mkHistoryItem (VS "user") (VS "Shorten clause 2") (VArr []) 1000]
               VUndefined 1000 1000 in
  let cleared := fst (fst (clearHistory (Demo.runtime [] None) doc Demo.emptyWorld)) in
  getFormattedHistory cleared = [] /\ getRecentMessages cleared None = [].
Proof. split; reflexivity. Qed.

(** ** The subscription gate *)


Example checkSubscription_refuses_at_the_limit :
  checkSubscription (VS "production")
    (fun _ => inr (VObj [(js "canCreate", VBool false); (js "remainingFree", VNum 0);
                         (js "limit", VNum 3)]))
    (mkRequest (VObj [(js "id", VS "u1")]) VUndefined)
  = inl (ThrownAPIError (VS "Subscription required to create more contracts")
           (VNum 402) true
           (VObj [(js "remainingFree", VNum 0); (js "limit", VNum 3);
                  (js "requiresSubscription", VBool true)])).
Proof. vm_compute. reflexivity. Qed.

(** ** The failures of [addMessage] *)


(** ** BlockNote content as text *)

Section BlockNoteFacts.

Variable numberToString : float -> jsstring.
Variable repeatHash : JsVal -> Result jsstring.

Lemma convertBlockToText_eq (props : Props) :
  convertBlockToText numberToString repeatHash (VObj props)
  = match getOwn props "content" with
    | VStr content =>
        formatBlockText repeatHash content (getOwn props "type") (getOwn props "props")
    | VArr items =>
        match mapResult (textPiece numberToString repeatHash) items with
        | inl e => inl e
        | inr pieces =>
            match joinPieces numberToString pieces with
            | inl e => inl e
            | inr text =>
                formatBlockText repeatHash text (getOwn props "type") (getOwn props "props")
            end
        end
    | _ => inr []
    end.
Proof.
  unfold getOwn at 1. cbn [convertBlockToText].
  match goal with
  | |- ?f props = _ =>
      assert (Hscan : forall l : Props,
                f l
                = match match lookup (js "content") l with
                        | Some v => v
                        | None => VUndefined
                        end with
                  | VStr content =>
                      formatBlockText repeatHash content (getOwn props "type")
                                      (getOwn props "props")
                  | VArr items =>
                      match mapResult (textPiece numberToString repeatHash) items with
                      | inl e => inl e
                      | inr pieces =>
                          match joinPieces numberToString pieces with
                          | inl e => inl e
                          | inr text =>
                              formatBlockText repeatHash text (getOwn props "type")
                                              (getOwn props "props")
                          end
                      end
                  | _ => inr []
                  end)
  end.
  { induction l as [| [k v] rest IH]; [reflexivity |].
    cbn [lookup]. destruct (str_eqb k (js "content")); [| exact IH].
    destruct v; try reflexivity.
    match goal with
    | |- match ?g elems with _ => _ end = _ =>
        assert (Heach : forall items, g items
                         = mapResult (textPiece numberToString repeatHash) items)
    end.
    { induction items as [| item more IHm]; [reflexivity |].
      cbn [mapResult]. rewrite <- IHm. destruct item; reflexivity. }
    now rewrite Heach. }
  apply Hscan.
Qed.





End BlockNoteFacts.



Lemma mapResult_Forall2 {A B} (f : A -> Result B) (l : list A) (ys : list B) :
  Forall2 (fun x y => f x = inr y) l ys -> mapResult f l = inr ys.
Proof.
  induction 1 as [| x y l ys Hx _ IH]; [reflexivity |].
  cbn [mapResult]. now rewrite Hx, IH.
Qed.

(** X26.  At the top level both converters return the empty string for a
    falsy value.  Given a string, the text converter returns it as it is,
    untrimmed, where the markdown converter returns the empty string.
    Given an array, each returns the conversions of the blocks joined by
    a blank line, so a one-block array converts as the block alone; an
    element that is not an object, a string included, contributes an
    empty piece. *)
Theorem blockNote_top_level :
  forall (numberToString : float -> jsstring) (repeatHash : JsVal -> Result jsstring),
    let asText := convertBlockNoteToText numberToString repeatHash in
    let asMarkdown := convertBlockNoteToMarkdown numberToString repeatHash in
    (forall v, truthy v = false -> asText v = inr [] /\ asMarkdown v = inr [])
    /\ (forall s, asText (VStr s) = inr s /\ asMarkdown (VStr s) = inr [])
    /\ (forall blocks texts,
           Forall2 (fun b t => convertBlockToText numberToString repeatHash b = inr t)
                   blocks texts ->
           asText (VArr blocks) = inr (joinWith [10%N; 10%N] texts))
    /\ (forall blocks texts,
           Forall2 (fun b t => convertBlockToMarkdown numberToString repeatHash b = inr t)
                   blocks texts ->
           asMarkdown (VArr blocks) = inr (joinWith [10%N; 10%N] texts))
    /\ (forall block,
           isObjectValue block = false ->
           convertBlockToText numberToString repeatHash block = inr []
           /\ convertBlockToMarkdown numberToString repeatHash block = inr [])
    /\ (forall props,
           asText (VArr [VObj props]) = asText (VObj props)
           /\ asMarkdown (VArr [VObj props]) = asMarkdown (VObj props)).
Proof.
  intros numberToString repeatHash. cbv zeta.
  unfold convertBlockNoteToText, convertBlockNoteToMarkdown.
  split; [| split; [| split; [| split; [| split]]]].
  - intros v Hv. rewrite Hv. split; reflexivity.
  - intros s. destruct s; split; reflexivity.
  - intros blocks texts Hall. cbn [truthy negb].
    now rewrite (mapResult_Forall2 _ _ _ Hall).
  - intros blocks texts Hall. cbn [truthy negb].
    now rewrite (mapResult_Forall2 _ _ _ Hall).
  - intros block Hobject. unfold convertBlockToMarkdown. rewrite Hobject.
    rewrite Bool.orb_true_r.
    destruct block; try discriminate Hobject; split; reflexivity.
  - intros props. cbn [truthy negb isObjectValue mapResult]. split.
    + destruct (convertBlockToText numberToString repeatHash (VObj props)); reflexivity.
    + destruct (convertBlockToMarkdown numberToString repeatHash (VObj props));
        reflexivity.
Qed.

Example convertBlockNoteToText_document :
  convertBlockNoteToText Demo.printNumber Demo.hashes
    (VArr [VObj [(js "type", VS "heading");
                 (js "props", VObj [(js "level", VNum 2)]);
                 (js "content", VS "Lease ")];
           VS "a stray string";
           Demo.greeting "quote"])
  = inr (js "## Lease" ++ LF ++ LF ++ LF ++ LF ++ js "> Hello world").
Proof. vm_compute. reflexivity. Qed.

Lemma valueSize_element (elems : list JsVal) (e : JsVal) :
  In e elems -> valueSize e < valueSize (VArr elems).
Proof.
  cbn [valueSize]. induction elems as [| x rest IH]; [intros [] |].
  intros [<- | Hin]; [lia |]. specialize (IH Hin). lia.
Qed.

Lemma valueSize_property (props : Props) (key : jsstring) (v : JsVal) :
  lookup key props = Some v -> valueSize v < valueSize (VObj props).
Proof.
  cbn [valueSize]. induction props as [| [k x] rest IH]; [discriminate |].
  cbn [lookup]. destruct (str_eqb k key).
  - intros H. injection H as <-. lia.
  - intros H. specialize (IH H). lia.
Qed.

Lemma mapResult_inl {A B} (f : A -> Result B) (l : list A) (e : JsError) :
  mapResult f l = inl e -> exists x, In x l /\ f x = inl e.
Proof.
  induction l as [| x rest IH]; [discriminate |]. cbn [mapResult].
  destruct (f x) as [e0 | y] eqn:Hx.
  - intros H. injection H as <-. exists x. split; [now left | exact Hx].
  - destruct (mapResult f rest) as [e0 | ys]; [| discriminate].
    intros H. injection H as <-. destruct (IH eq_refl) as [x0 [Hin Hx0]].
    exists x0. split; [now right | exact Hx0].
Qed.

Section BlockNoteErrors.

Variable numberToString : float -> jsstring.
Variable repeatHash : JsVal -> Result jsstring.

Lemma joinPieces_error (pieces : list JsVal) (e : JsError) :
  joinPieces numberToString pieces = inl e -> e = cannotConvert.
Proof.
  induction pieces as [| v rest IH]; [discriminate |]. cbn [joinPieces].
  destruct (joinPiece numberToString v) as [e0 | s] eqn:Hv.
  - intros H. injection H as <-. revert Hv. unfold joinPiece, toStringOrThrow.
    destruct v; try discriminate;
      match goal with
      | |- context [ToString ?n ?x] => destruct (ToString n x)
      end; try discriminate; intros H; now injection H.
  - destruct (joinPieces numberToString rest); [| discriminate].
    intros H. injection H as <-. now apply IH.
Qed.

Lemma formatBlockText_error (text : jsstring) (type props : JsVal) (e : JsError) :
  formatBlockText repeatHash text type props = inl e -> converterError repeatHash e.
Proof.
  unfold formatBlockText, headingHashes. destruct text; [discriminate |].
  destruct (strictEqStr type (js "heading")).
  - destruct (repeatHash _) as [e0 | h] eqn:Hh; [| discriminate].
    intros H. injection H as <-. right. eexists. exact Hh.
  - repeat match goal with
           | |- context [if ?b then _ else _] => destruct b
           end; discriminate.
Qed.

Lemma convertBlockToText_error_bounded (n : nat) :
  forall (block : JsVal) (e : JsError),
    valueSize block < n ->
    convertBlockToText numberToString repeatHash block = inl e ->
    converterError repeatHash e.
Proof.
  induction n as [| n IH]; intros block e Hsize; [lia |].
  destruct block; try discriminate.
  rewrite convertBlockToText_eq.
  destruct (getOwn props "content") as [| | | | s | items | |] eqn:Hcontent;
    try discriminate.
  - apply formatBlockText_error.
  - assert (Hitems : valueSize (VArr items) < valueSize (VObj props)).
    { unfold getOwn in Hcontent.
      destruct (lookup (js "content") props) as [v |] eqn:Hlookup; [| discriminate].
      subst v. exact (valueSize_property _ _ _ Hlookup). }
    destruct (mapResult (textPiece numberToString repeatHash) items)
      as [e0 | pieces] eqn:Hmap.
    + intros H. injection H as <-.
      apply mapResult_inl in Hmap as [item [Hin Hitem]].
      pose proof (valueSize_element _ _ Hin) as Hless.
      revert Hitem. unfold textPiece.
      destruct item; try discriminate;
        repeat match goal with
               | |- context [if ?b then _ else _] => destruct b
               end; try discriminate;
        match goal with
        | |- context [convertBlockToText _ _ ?x] =>
            destruct (convertBlockToText numberToString repeatHash x) as [e1 | t] eqn:Hx;
              [| discriminate];
              intros H; injection H as <-; apply (IH x e1); [lia | exact Hx]
        end.
    + destruct (joinPieces numberToString pieces) as [e0 | text] eqn:Hjoin.
      * intros H. injection H as <-. left. exact (joinPieces_error _ _ Hjoin).
      * apply formatBlockText_error.
Qed.

Lemma convertBlockToMarkdown_error (block : JsVal) (e : JsError) :
  convertBlockToMarkdown numberToString repeatHash block = inl e ->
  converterError repeatHash e.
Proof.
  unfold convertBlockToMarkdown, headingHashes.
  destruct (negb (truthy block) || negb (isObjectValue block)); [discriminate |].
  cbv zeta.
  destruct (field block "content") as [| | | | s | items | |];
    try (destruct (strictEqStr (field block "type") (js "heading"));
         [destruct (repeatHash _) as [e0 | h] eqn:Hh; [| discriminate];
          intros H; injection H as <-; right; eexists; exact Hh
         | repeat match goal with
                  | |- context [if ?b then _ else _] => destruct b
                  end; discriminate]).
  destruct (joinPieces numberToString (map markdownItem items)) as [e0 | text] eqn:Hjoin.
  - intros H. injection H as <-. left. exact (joinPieces_error _ _ Hjoin).
  - destruct (strictEqStr (field block "type") (js "heading")).
    + destruct (repeatHash _) as [e0 | h] eqn:Hh; [| discriminate].
      intros H. injection H as <-. right. eexists. exact Hh.
    + repeat match goal with
             | |- context [if ?b then _ else _] => destruct b
             end; discriminate.
Qed.

End BlockNoteErrors.

(** X27.  The converters throw only what the two built-ins they call
    throw: the error of ['#'.repeat] on the level of a heading, at any
    depth of nesting, or the [TypeError] of an inline text that has no
    string form.  Nothing else in a value, however it is shaped, makes
    them fail. *)
Theorem blockNote_converters_errors :
  forall (numberToString : float -> jsstring) (repeatHash : JsVal -> Result jsstring)
         (blockNoteContent : JsVal) (e : JsError),
    convertBlockNoteToText numberToString repeatHash blockNoteContent = inl e
    \/ convertBlockNoteToMarkdown numberToString repeatHash blockNoteContent = inl e ->
    converterError repeatHash e.
Proof.
  intros numberToString repeatHash v e.
  unfold convertBlockNoteToText, convertBlockNoteToMarkdown.
  destruct (negb (truthy v)); [intros [H | H]; discriminate H |].
  intros [H | H].
  - destruct v; try discriminate H.
    + destruct (mapResult _ elems) as [e0 | texts] eqn:Hmap; [| discriminate H].
      injection H as <-. apply mapResult_inl in Hmap as [block [_ Hblock]].
      exact (convertBlockToText_error_bounded numberToString repeatHash
               (S (valueSize block)) block e0 (Nat.lt_succ_diag_r _) Hblock).
    + cbn [isObjectValue] in H.
      exact (convertBlockToText_error_bounded numberToString repeatHash
               (S (valueSize (VObj props))) _ e (Nat.lt_succ_diag_r _) H).
    + destruct (isObjectValue (VNative name)); discriminate H.
  - destruct v; try discriminate H.
    + destruct (mapResult _ elems) as [e0 | texts] eqn:Hmap; [| discriminate H].
      injection H as <-. apply mapResult_inl in Hmap as [block [_ Hblock]].
      exact (convertBlockToMarkdown_error numberToString repeatHash _ _ Hblock).
    + cbn [isObjectValue] in H.
      exact (convertBlockToMarkdown_error numberToString repeatHash _ _ H).
    + destruct (isObjectValue (VNative name)); [| discriminate H].
      exact (convertBlockToMarkdown_error numberToString repeatHash _ _ H).
Qed.

Lemma blockNote_converters_errors_witness :
  let nested :=
    VObj [(js "type", VS "paragraph");
          (js "content",
           VArr [VS "See ";
                 VObj [(js "type", VS "heading");
                       (js "props", VObj [(js "level", VNum (-1))]);
                       (js "content", VS "Annex")]])] in
  convertBlockNoteToText Demo.printNumber Demo.hashes nested
  = inl (Error (js "Invalid count value: -1"))
  /\ converterError Demo.hashes (Error (js "Invalid count value: -1")).
Proof.
  cbv zeta. split; [vm_compute; reflexivity |].
  apply (blockNote_converters_errors Demo.printNumber Demo.hashes
           (VObj [(js "type", VS "paragraph");
                  (js "content",
                   VArr [VS "See ";
                         VObj [(js "type", VS "heading");
                               (js "props", VObj [(js "level", VNum (-1))]);
                               (js "content", VS "Annex")]])])).
  left. vm_compute. reflexivity.
Defined.

(** ** The context service *)



Example getRelevantContext_reads_a_deleted_conversation :
  let rt := Demo.runtime [] None in
  let s := mkContextState Demo.deletedConversation [] [] in
  fst (getConversation rt (VS "c1") (VS "u1") Demo.deletedConversation)
  = inl (newAPIError (js "Conversation not found") httpStatus.NOT_FOUND)
  /\ fst (getRelevantContext rt (fun _ => VUndefined) (VS "lease")
            (mkContextOptions (VS "u1") (VS "c1") (Some 1%Z)) s)
     = [mkContextMessage (VS "assistant") (VS "A lease is a contract.") VUndefined].
Proof. split; vm_compute; reflexivity. Qed.

(** ** Intent types the prompt builder does not know *)

Lemma intentClause_generic (rt : Runtime) (intent : Props) (tone : JsVal) :
  knownPromptType (getOwn intent "type") = false ->
  intentClause rt intent tone = inr genericClause.
Proof.
  unfold knownPromptType, intentClause. cbv zeta. intros Hknown.
  destruct (strictEqStr (getOwn intent "type") (js "summarize")); [discriminate |].
  destruct (strictEqStr (getOwn intent "type") (js "explain")); [discriminate |].
  destruct (strictEqStr (getOwn intent "type") (js "analyze")); [discriminate |].
  destruct (strictEqStr (getOwn intent "type") (js "suggest")); [discriminate |].
  destruct (strictEqStr (getOwn intent "type") (js "adjust")); [discriminate |].
  reflexivity.
Qed.

(** X29.  Only the five intent types summarize, explain, analyze, suggest
    and adjust select an instruction of their own in the system prompt.
    Every other type gets the generic instruction, and no clause type or
    tone is then read for it: so does the default intent, and so does
    each of the nine other names the metadata table knows, although the
    table maps them to analyze, suggest, adjust or chat. *)
Theorem only_five_intent_types_shape_the_prompt :
  forall (rt : Runtime),
    (forall (intent : Props) (documentType tone : JsVal),
        knownPromptType (getOwn intent "type") = false ->
        intentClause rt intent tone = inr genericClause
        /\ prepareSystemMessage rt intent documentType tone
           = match documentSentence rt documentType, toneSentence rt tone with
             | inr d, inr t =>
                 inr (js "You are a legal document assistant. " ++ genericClause ++ d ++ t)
             | inl e, _ => inl e
             | _, inl e => inl e
             end)
    /\ knownPromptType (getOwn defaultIntent "type") = false
    /\ Forall (fun entry =>
                 snd entry = VStr (fst entry)
                 \/ (knownPromptType (VStr (fst entry)) = false
                     /\ mapIntentToMetadataType rt (VStr (fst entry)) = inr (snd entry)))
              typeMap
    /\ List.length (filter (fun entry => negb (knownPromptType (VStr (fst entry)))) typeMap)
       = 9.
Proof.
  intros rt. split; [| split; [| split]].
  - intros intent documentType tone Hknown.
    pose proof (intentClause_generic rt intent tone Hknown) as Hclause.
    split; [exact Hclause |].
    unfold prepareSystemMessage. rewrite Hclause. cbv zeta.
    destruct (documentSentence rt documentType) as [e | d]; [reflexivity |].
    destruct (toneSentence rt tone) as [e | t]; [reflexivity |].
    now rewrite <- !app_assoc.
  - reflexivity.
  - unfold typeMap.
    repeat (apply Forall_cons;
            [first [left; reflexivity | right; split; reflexivity] |]).
    apply Forall_nil.
  - reflexivity.
Qed.

Example document_review_gets_the_generic_prompt :
  let rt := Demo.runtime [] None in
  let intent := [(js "type", VS "DocumentReview")] in
  mapIntentToMetadataType rt (getOwn intent "type") = inr (VS "analyze")
  /\ prepareSystemMessage rt intent VUndefined VUndefined
     = inr (js "You are a legal document assistant. " ++ genericClause).
Proof. split; vm_compute; reflexivity. Qed.
